(** Release automation for Gitea (release-please action): a shallow embedding
    of the version resolver, the changelog generator, the release and
    pull-request orchestration and the output formatter, with the fragment of
    ECMAScript string and number semantics they rely on. *)

From Stdlib Require Import ZArith QArith String Ascii List Bool Lia.
Import ListNotations.
Local Open Scope string_scope.
Local Open Scope Z_scope.

(** * ECMAScript strings

    A string is its sequence of code units; the embedding covers the
    strings whose code units are below 256. [code] is the value of a code
    unit. *)
Definition code (c : ascii) : Z := Z.of_N (N_of_ascii c).

(** White space and line terminators: TAB, LF, VT, FF, CR, SP, NBSP. *)
Definition is_space (c : ascii) : bool :=
  let n := code c in
  ((9 <=? n) && (n <=? 13)) || (n =? 32) || (n =? 160).

(** The decimal digits 0-9. *)
Definition is_digit (c : ascii) : bool := (48 <=? code c) && (code c <=? 57).

Fixpoint all_chars (p : ascii -> bool) (s : string) : bool :=
  match s with
  | EmptyString => true
  | String c r => p c && all_chars p r
  end.

(** Decimal numerals and the integers they denote. *)
Definition is_decimal (s : string) : bool :=
  negb (String.eqb s EmptyString) && all_chars is_digit s.

Fixpoint decimal_acc (s : string) (acc : Z) : Z :=
  match s with
  | EmptyString => acc
  | String c r => decimal_acc r (acc * 10 + (code c - 48))
  end.

Definition decimal_value (s : string) : Z := decimal_acc s 0.

(** Concatenation of a list of strings. *)
Fixpoint join (l : list string) : string :=
  match l with
  | [] => EmptyString
  | x :: r => x ++ join r
  end.

(** [String.prototype.trim], as [core.getInput] and [Number] apply it. *)
Fixpoint trimStart (s : string) : string :=
  match s with
  | String c r => if is_space c then trimStart r else s
  | EmptyString => EmptyString
  end.

Fixpoint trimEnd (s : string) : string :=
  match s with
  | EmptyString => EmptyString
  | String c r =>
      match trimEnd r with
      | EmptyString => if is_space c then EmptyString else String c EmptyString
      | r' => String c r'
      end
  end.

Definition trim (s : string) : string := trimEnd (trimStart s).

(** [s.split(sep)] for a one-character separator: never empty. *)
Fixpoint split_on (sep : ascii) (s : string) : list string :=
  match s with
  | EmptyString => [EmptyString]
  | String c r =>
      if Ascii.eqb c sep then EmptyString :: split_on sep r
      else match split_on sep r with
           | h :: t => String c h :: t
           | [] => [String c EmptyString]
           end
  end.

(** [s.replace(/^c/, '')]: drops one leading [c]. *)
Definition strip_leading (c : ascii) (s : string) : string :=
  match s with
  | String d r => if Ascii.eqb d c then r else s
  | EmptyString => EmptyString
  end.

(** [s.substring(0, n)]: the first [n] code units, or all of [s]. *)
Fixpoint substring0 (n : nat) (s : string) : string :=
  match n, s with
  | S n', String c r => String c (substring0 n' r)
  | _, _ => EmptyString
  end.

Fixpoint repeat_char (c : ascii) (n : nat) : string :=
  match n with
  | O => EmptyString
  | S n' => String c (repeat_char c n')
  end.

(** * ECMAScript numbers

    A Number is NaN, an infinity, or a finite binary64 value, kept as the
    rational it denotes (both zeros are [Fin 0]: the program never tells
    them apart). Arithmetic is exact arithmetic followed by rounding to the
    nearest binary64 value, ties to even. *)

Inductive jsnum : Type :=
| NaN : jsnum
| Inf (negative : bool) : jsnum
| Fin (q : Q) : jsnum.

Definition jszero : jsnum := Fin (0 # 1).
Definition jsone : jsnum := Fin (1 # 1).

(** Same value. *)
Definition jsnum_eqb (x y : jsnum) : bool :=
  match x, y with
  | NaN, NaN => true
  | Inf a, Inf b => Bool.eqb a b
  | Fin p, Fin q => Qeq_bool p q
  | _, _ => false
  end.

Definition jsneg (x : jsnum) : jsnum :=
  match x with
  | NaN => NaN
  | Inf b => Inf (negb b)
  | Fin q => Fin (Qopp q)
  end.

(** [floor (log2 (a / b))] for positive [a] and [b]. *)
Definition floor_log2_ratio (a b : Z) : Z :=
  let d := Z.log2 a - Z.log2 b in
  let ge := if 0 <=? d then b * 2 ^ d <=? a else b <=? a * 2 ^ (- d) in
  if ge then d else d - 1.

(** The integer nearest to [num / den], ties to even. *)
Definition round_half_even (num den : Z) : Z :=
  let q := num / den in
  let r := num mod den in
  match 2 * r ?= den with
  | Lt => q
  | Gt => q + 1
  | Eq => if Z.even q then q else q + 1
  end.

(** The binary64 value nearest to [a / b > 0]: a 53-bit significand [m] at
    exponent [e], subnormal below 2^-1022, infinite from 2^1024 on. *)
Definition round_pos (a b : Z) : jsnum :=
  let e := Z.max (floor_log2_ratio a b - 52) (-1074) in
  let m := if 0 <=? e then round_half_even a (b * 2 ^ e)
           else round_half_even (a * 2 ^ (- e)) b in
  if (971 <? e) || ((e =? 971) && (2 ^ 53 <=? m)) then Inf false
  else Fin (Qred (if 0 <=? e then (m * 2 ^ e) # 1 else m # Z.to_pos (2 ^ (- e)))).

Definition round_double (q : Q) : jsnum :=
  match Qnum q with
  | Z0 => jszero
  | Zpos a => round_pos (Zpos a) (Zpos (Qden q))
  | Zneg a => jsneg (round_pos (Zpos a) (Zpos (Qden q)))
  end.

(** [x + y] on Numbers. *)
Definition jsadd (x y : jsnum) : jsnum :=
  match x, y with
  | NaN, _ | _, NaN => NaN
  | Inf a, Inf b => if Bool.eqb a b then Inf a else NaN
  | Inf a, Fin _ => Inf a
  | Fin _, Inf b => Inf b
  | Fin p, Fin q => round_double (Qplus p q)
  end.

(** ToBoolean on Numbers: NaN and zero are falsy. *)
Definition truthy_num (x : jsnum) : bool :=
  match x with
  | NaN => false
  | Inf _ => true
  | Fin q => negb (Qnum q =? 0)
  end.

(** ** StringToNumber

    White space is trimmed; the empty string is 0; then a binary, octal or
    hexadecimal integer literal, or an optionally signed [Infinity] or
    decimal literal with optional fraction and exponent; anything else is
    NaN. The mathematical value of the literal is rounded to binary64. *)

Definition digit_of (radix : Z) (c : ascii) : option Z :=
  let n := code c in
  let v := if (48 <=? n) && (n <=? 57) then n - 48
           else if (97 <=? n) && (n <=? 102) then n - 87
           else if (65 <=? n) && (n <=? 70) then n - 55
           else radix in
  if v <? radix then Some v else None.

Fixpoint span_digits (radix : Z) (s : string) (acc cnt : Z) : Z * Z * string :=
  match s with
  | String c r =>
      match digit_of radix c with
      | Some d => span_digits radix r (acc * radix + d) (cnt + 1)
      | None => (acc, cnt, s)
      end
  | EmptyString => (acc, cnt, s)
  end.

(** The rational [s * 10^t]. *)
Definition scaled_value (s t : Z) : Q :=
  if 0 <=? t then (s * 10 ^ t) # 1 else s # Z.to_pos (10 ^ (- t)).

Definition radix_literal (radix : Z) (s : string) : jsnum :=
  match span_digits radix s 0 0 with
  | (v, cnt, EmptyString) => if 0 <? cnt then round_double (v # 1) else NaN
  | _ => NaN
  end.

Definition exponent_part (s : string) : option Z :=
  match s with
  | EmptyString => Some 0
  | String c r =>
      if Ascii.eqb c "e" || Ascii.eqb c "E" then
        let '(neg, r') :=
          match r with
          | String "+" r' => (false, r')
          | String "-" r' => (true, r')
          | _ => (false, r)
          end in
        match span_digits 10 r' 0 0 with
        | (v, cnt, EmptyString) =>
            if 0 <? cnt then Some (if neg then - v else v) else None
        | _ => None
        end
      else None
  end.

Definition unsigned_decimal (s : string) : jsnum :=
  if String.eqb s "Infinity" then Inf false
  else
    let '(ip, nip, r1) := span_digits 10 s 0 0 in
    let '(m, nfp, r2) :=
      match r1 with
      | String "." r => span_digits 10 r ip 0
      | _ => (ip, 0, r1)
      end in
    if 0 <? nip + nfp then
      match exponent_part r2 with
      | Some x => round_double (scaled_value m (x - nfp))
      | None => NaN
      end
    else NaN.

Definition radix_prefix (s : string) : option (Z * string) :=
  match s with
  | String c0 (String c1 r) =>
      if Ascii.eqb c0 "0" then
        if Ascii.eqb c1 "x" || Ascii.eqb c1 "X" then Some (16, r)
        else if Ascii.eqb c1 "o" || Ascii.eqb c1 "O" then Some (8, r)
        else if Ascii.eqb c1 "b" || Ascii.eqb c1 "B" then Some (2, r)
        else None
      else None
  | _ => None
  end.

(** [Number(str)] on a string. *)
Definition Number_ (str : string) : jsnum :=
  let s := trim str in
  match radix_prefix s with
  | Some (radix, r) => radix_literal radix r
  | None =>
      match s with
      | EmptyString => jszero
      | String c r =>
          if Ascii.eqb c "+" then unsigned_decimal r
          else if Ascii.eqb c "-" then jsneg (unsigned_decimal r)
          else unsigned_decimal s
      end
  end.

(** ** Number::toString, radix 10

    For a positive [x] the digits are those of the integer [s] with the
    fewest digits [k] such that [s * 10^(n-k)] rounds to [x] (the closest
    to [x] if several); [format_digits] lays them out as an integer, a
    decimal fraction, or in exponent notation. *)

Definition digit_char (d : Z) : ascii := ascii_of_N (Z.to_N (48 + d)).

Fixpoint dec_digits (fuel : nat) (n : Z) : string :=
  match fuel with
  | O => EmptyString
  | S f =>
      if n <? 10 then String (digit_char n) EmptyString
      else dec_digits f (n / 10) ++ String (digit_char (n mod 10)) EmptyString
  end.

(** The decimal numeral of a natural number. *)
Definition string_of_Z (n : Z) : string :=
  dec_digits (S (Z.to_nat (Z.log2 n))) n.

Definition ndigits (n : Z) : Z := Z.of_nat (String.length (string_of_Z n)).

Fixpoint lead_zeros (fuel : nat) (a b j : Z) : Z :=
  match fuel with
  | O => j
  | S f => if b <=? a * 10 ^ j then j else lead_zeros f a b (j + 1)
  end.

(** The [n] with [10^(n-1) <= a / b < 10^n]. *)
Definition dec_exponent (a b : Z) : Z :=
  if b <=? a then ndigits (a / b) else 1 - lead_zeros 400 a b 1.

(** [floor ((a / b) / 10^t)]. *)
Definition scaled_floor (a b t : Z) : Z :=
  if 0 <=? t then a / (b * 10 ^ t) else (a * 10 ^ (- t)) / b.

Fixpoint shortest (fuel : nat) (x : Q) (n k : Z) : option (Z * Z * Z) :=
  match fuel with
  | O => None
  | S f =>
      let t := n - k in
      let lo := scaled_floor (Qnum x) (Zpos (Qden x)) t in
      let hi := lo + 1 in
      let ok s := jsnum_eqb (round_double (scaled_value s t)) (Fin x) in
      let up := if hi =? 10 ^ k then (n + 1, 1, 1) else (n, k, hi) in
      match ok lo, ok hi with
      | true, true =>
          match Qcompare (x - scaled_value lo t) (scaled_value hi t - x) with
          | Lt => Some (n, k, lo)
          | Gt => Some up
          | Eq => if Z.even lo then Some (n, k, lo) else Some up
          end
      | true, false => Some (n, k, lo)
      | false, true => Some up
      | false, false => shortest f x n (k + 1)
      end
  end.

Definition format_digits (n k s : Z) : string :=
  let ds := string_of_Z s in
  let zeros z := repeat_char "0" (Z.to_nat z) in
  let expo := (if 0 <? n - 1 then "+" else "-") ++ string_of_Z (Z.abs (n - 1)) in
  if (k <=? n) && (n <=? 21) then ds ++ zeros (n - k)
  else if (0 <? n) && (n <=? 21) then
    substring0 (Z.to_nat n) ds ++ "." ++ String.substring (Z.to_nat n) (Z.to_nat (k - n)) ds
  else if (-6 <? n) && (n <=? 0) then "0." ++ zeros (- n) ++ ds
  else if k =? 1 then ds ++ "e" ++ expo
  else substring0 1 ds ++ "." ++ String.substring 1 (Z.to_nat (k - 1)) ds ++ "e" ++ expo.

Definition ToString_pos (x : Q) : string :=
  match shortest 17 x (dec_exponent (Qnum x) (Zpos (Qden x))) 1 with
  | Some (n, k, s) => format_digits n k s
  | None => EmptyString
  end.

(** [String(x)], as a template literal applies it to a Number. *)
Definition ToString (x : jsnum) : string :=
  match x with
  | NaN => "NaN"
  | Inf false => "Infinity"
  | Inf true => "-Infinity"
  | Fin q =>
      match Qnum q with
      | Z0 => "0"
      | Zpos _ => ToString_pos q
      | Zneg _ => "-" ++ ToString_pos (Qopp q)
      end
  end.

(** * Values thrown and returned *)

(** A thrown [Error] object: [String(e)] follows [Error.prototype.toString]. *)
Record JsError : Type := { err_name : string; err_message : string }.

Definition error_toString (e : JsError) : string :=
  if String.eqb (err_name e) "" then err_message e
  else if String.eqb (err_message e) "" then err_name e
  else err_name e ++ ": " ++ err_message e.

(** The result of a step: a value, or a thrown error. *)
Inductive outcome (A : Type) : Type :=
| Ok (a : A)
| Throw (e : JsError).
Arguments Ok {A} a.
Arguments Throw {A} e.

Definition obind {A B : Type} (m : outcome A) (k : A -> outcome B) : outcome B :=
  match m with
  | Ok a => k a
  | Throw e => Throw e
  end.

(** * Data model (interfaces [ActionInputs], [Release], [PullRequest])

    An optional member is an [option]. The members of [Release] and
    [PullRequest] carry the prefixes [rel_] and [pr_]. *)

Record ActionInputs : Type := {
  token : string;
  repoUrl : string;
  releaseType : option string;
  path : option string;
  giteaApiUrl : string;
  configFile : option string;
  manifestFile : option string;
  proxyServer : option string;
  targetBranch : string;
  skipGiteaRelease : option bool;
  skipGiteaPullRequest : option bool;
  skipLabeling : option bool;
  includeComponentInTag : option bool;
  changelogHost : string;
  versioningStrategy : option string;
  releaseAs : option string;
  giteaOwner : string;
  giteaRepo : string
}.

(** Optional fields are [None] when absent or [undefined]. *)
Record Release : Type := {
  rel_id : option jsnum;
  rel_tagName : string;
  rel_name : string;
  rel_body : string;
  rel_draft : option bool;
  rel_prerelease : option bool;
  rel_path : string;
  rel_version : option string;
  rel_major : option jsnum;
  rel_minor : option jsnum;
  rel_patch : option jsnum;
  rel_sha : option string;
  rel_url : option string;
  rel_uploadUrl : option string
}.

Record PullRequest : Type := {
  pr_number : jsnum;
  pr_title : string;
  pr_body : string;
  pr_headBranchName : string;
  pr_baseBranchName : string;
  pr_url : string;
  pr_labels : option (list string)
}.

(** One element of the commit listing: [sha] and [commit.message]. *)
Record Commit : Type := { commit_sha : string; commit_message : string }.

(** Values handed to [core.setOutput]. The two [JSON.stringify] results are
    kept as the value that is serialised. *)
Inductive jsval : Type :=
| VStr (s : string)
| VBool (b : bool)
| VNum (n : jsnum)
| VPullRequest (pr : PullRequest)
| VJsonPaths (ps : list string)
| VJsonPRs (prs : list PullRequest).

(** * The hosting service *)

(** The REST requests the client issues (owner and repo are fixed for an
    invocation and left out). *)
Inductive ApiCall : Type :=
| CreateRelease (tag_name name body : string) (draft prerelease : bool)
| CreatePull (title body head base : string)
| AddLabels (issue_number : jsnum) (labels : list string)
| GetLatestRelease
| ListCommits (sha : option string) (per_page : Z)
| GetBranch (branch : string)
| CreateRef (ref sha : string).

(** What the client reads from the responses to release and pull-request
    creation. *)
Record ReleaseData : Type := {
  rd_id : option jsnum;
  rd_html_url : option string;
  rd_upload_url : option string
}.

Record PullData : Type := { pd_number : jsnum; pd_html_url : string }.

(** A hosting service with state [S]: each request yields a new state and
    either the response data or a thrown error. *)
Record Host (S : Type) : Type := {
  repos_createRelease : S -> string -> string -> string -> bool -> bool -> S * outcome ReleaseData;
  pulls_create : S -> string -> string -> string -> string -> S * outcome PullData;
  issues_addLabels : S -> jsnum -> list string -> S * outcome unit;
  repos_getLatestRelease : S -> S * outcome string;
  repos_listCommits : S -> option string -> Z -> S * outcome (list Commit);
  repos_getBranch : S -> string -> S * outcome string;
  git_createRef : S -> string -> string -> S * outcome unit
}.
Arguments repos_createRelease {S} h.
Arguments pulls_create {S} h.
Arguments issues_addLabels {S} h.
Arguments repos_getLatestRelease {S} h.
Arguments repos_listCommits {S} h.
Arguments repos_getBranch {S} h.
Arguments git_createRef {S} h.

(** * The action toolkit ([core]) and the state of one invocation *)

(** Lines written by [core.info], [core.warning] and [core.error]. *)
Inductive LogEvent : Type :=
| Info (msg : string)
| Warning (msg : string)
| Error (msg : string).

(** The state of an invocation: the host's state, the outputs set so far
    (oldest first), the log, the message the invocation was failed with,
    and the requests issued so far. *)
Record Run (S : Type) : Type := {
  host_state : S;
  outputs : list (string * jsval);
  log : list LogEvent;
  failed : option string;
  calls : list ApiCall
}.
Arguments host_state {S} r.
Arguments outputs {S} r.
Arguments log {S} r.
Arguments failed {S} r.
Arguments calls {S} r.
Arguments Build_Run {S}.

(** A fresh invocation against a host in state [s]. *)
Definition start {S : Type} (s : S) : Run S :=
  {| host_state := s; outputs := []; log := []; failed := None; calls := [] |}.

(** Computations of an invocation: state passing with exceptions. *)
Definition M (S A : Type) : Type := Run S -> Run S * outcome A.

Definition ret {S A : Type} (a : A) : M S A := fun r => (r, Ok a).

Definition throw {S A : Type} (e : JsError) : M S A := fun r => (r, Throw e).

Definition bind {S A B : Type} (m : M S A) (k : A -> M S B) : M S B :=
  fun r => match m r with
           | (r', Ok a) => k a r'
           | (r', Throw e) => (r', Throw e)
           end.

(** [try { m } catch (e) { h e }] *)
Definition try_catch {S A : Type} (m : M S A) (h : JsError -> M S A) : M S A :=
  fun r => match m r with
           | (r', Ok a) => (r', Ok a)
           | (r', Throw e) => h e r'
           end.

Definition lift {S A : Type} (o : outcome A) : M S A := fun r => (r, o).

Declare Scope action_scope.
Delimit Scope action_scope with action.
Notation "x <- m ;; k" := (bind m (fun x => k))
  (at level 61, m at next level, right associativity) : action_scope.
Notation "m ;; k" := (bind m (fun _ => k))
  (at level 61, right associativity) : action_scope.
Local Open Scope action_scope.

(** The four ways an invocation's state changes. *)
Definition logged {S : Type} (r : Run S) (ev : LogEvent) : Run S :=
  {| host_state := host_state r; outputs := outputs r;
     log := (log r ++ [ev])%list; failed := failed r; calls := calls r |}.

Definition with_output {S : Type} (r : Run S) (key : string) (value : jsval) : Run S :=
  {| host_state := host_state r; outputs := (outputs r ++ [(key, value)])%list;
     log := log r; failed := failed r; calls := calls r |}.

Definition marked_failed {S : Type} (r : Run S) (msg : string) : Run S :=
  {| host_state := host_state r; outputs := outputs r;
     log := (log r ++ [Error msg])%list; failed := Some msg; calls := calls r |}.

Definition answered {S : Type} (r : Run S) (s' : S) (c : ApiCall) : Run S :=
  {| host_state := s'; outputs := outputs r; log := log r;
     failed := failed r; calls := (calls r ++ [c])%list |}.

(** [core.info], [core.warning], [core.error] and [core.setOutput]. *)
Definition emit {S : Type} (ev : LogEvent) : M S unit := fun r => (logged r ev, Ok tt).

Definition core_info {S : Type} (msg : string) : M S unit := emit (Info msg).
Definition core_warning {S : Type} (msg : string) : M S unit := emit (Warning msg).
Definition core_error {S : Type} (msg : string) : M S unit := emit (Error msg).

Definition core_setOutput {S : Type} (key : string) (value : jsval) : M S unit :=
  fun r => (with_output r key value, Ok tt).

(** [core.setFailed]: sets the failing exit code and logs the message as an
    error. *)
Definition core_setFailed {S : Type} (msg : string) : M S unit :=
  fun r => (marked_failed r msg, Ok tt).

(** A REST round trip: the request is recorded and the host answers. *)
Definition request {S A : Type} (c : ApiCall) (f : S -> S * outcome A) : M S A :=
  fun r => let (s', res) := f (host_state r) in (answered r s' c, res).

(** ** Inputs *)

(** The characters that cannot be written inside a string literal. *)
Definition dquote : string := String (ascii_of_nat 34) EmptyString.
Definition newline : string := String (ascii_of_nat 10) EmptyString.

(** [core.getInput]: [env] gives the raw value of an input, empty when it is
    not supplied. *)
Definition core_getInput (env : string -> string) (name : string) (required : bool)
  : outcome string :=
  let val := env name in
  if required && String.eqb val "" then
    Throw {| err_name := "Error";
             err_message := "Input required and not supplied: " ++ name |}
  else Ok (trim val).

(** [core.getBooleanInput]: the YAML 1.2 core schema booleans, a
    [TypeError] for anything else. *)
Definition core_getBooleanInput (env : string -> string) (name : string) : outcome bool :=
  obind (core_getInput env name false) (fun val =>
    if existsb (String.eqb val) ["true"; "True"; "TRUE"] then Ok true
    else if existsb (String.eqb val) ["false"; "False"; "FALSE"] then Ok false
    else Throw {| err_name := "TypeError";
                  err_message :=
                    "Input does not meet YAML 1.2 " ++ dquote ++ "Core Schema" ++ dquote
                    ++ " specification: " ++ name ++ newline
                    ++ "Support boolean input list: `true | True | TRUE | false | False | FALSE`" |}).

(** [s || undefined] and [s || d] on strings. *)
Definition nonempty (s : string) : option string :=
  if String.eqb s "" then None else Some s.

Definition or_else (s d : string) : string :=
  if String.eqb s "" then d else s.

Definition getOptionalInput (env : string -> string) (name : string) : outcome (option string) :=
  obind (core_getInput env name false) (fun val => Ok (nonempty val)).

Definition getOptionalBooleanInput (env : string -> string) (name : string)
  : outcome (option bool) :=
  obind (core_getInput env name false) (fun val =>
    if String.eqb val "" then Ok None
    else obind (core_getBooleanInput env name) (fun b => Ok (Some b))).

Definition DEFAULT_CONFIG_FILE : string := "release-please-config.json".
Definition DEFAULT_MANIFEST_FILE : string := ".release-please-manifest.json".

(** The members are evaluated in the order of the object literal; the
    first input that throws ends the parsing. *)
Definition parseInputs (env : string -> string) : outcome ActionInputs :=
  obind (core_getInput env "token" true) (fun token_ =>
  obind (getOptionalInput env "release-type") (fun releaseType_ =>
  obind (getOptionalInput env "path") (fun path_ =>
  obind (core_getInput env "repo-url" false) (fun repoUrl_ =>
  obind (getOptionalInput env "target-branch") (fun targetBranch_ =>
  obind (core_getInput env "config-file" false) (fun configFile_ =>
  obind (core_getInput env "manifest-file" false) (fun manifestFile_ =>
  obind (core_getInput env "gitea-api-url" true) (fun giteaApiUrl_ =>
  obind (getOptionalInput env "proxy-server") (fun proxyServer_ =>
  obind (getOptionalBooleanInput env "skip-gitea-release") (fun skipGiteaRelease_ =>
  obind (getOptionalBooleanInput env "skip-gitea-pull-request") (fun skipGiteaPullRequest_ =>
  obind (getOptionalBooleanInput env "skip-labeling") (fun skipLabeling_ =>
  obind (getOptionalBooleanInput env "include-component-in-tag") (fun includeComponentInTag_ =>
  obind (core_getInput env "changelog-host" false) (fun changelogHost_ =>
  obind (getOptionalInput env "versioning-strategy") (fun versioningStrategy_ =>
  obind (getOptionalInput env "release-as") (fun releaseAs_ =>
  obind (core_getInput env "gitea-owner" true) (fun giteaOwner_ =>
  obind (core_getInput env "gitea-repo" true) (fun giteaRepo_ =>
  Ok {| token := token_;
        releaseType := releaseType_;
        path := path_;
        repoUrl := or_else repoUrl_ "";
        targetBranch := match targetBranch_ with Some b => b | None => "main" end;
        configFile := Some (or_else configFile_ DEFAULT_CONFIG_FILE);
        manifestFile := Some (or_else manifestFile_ DEFAULT_MANIFEST_FILE);
        giteaApiUrl := giteaApiUrl_;
        proxyServer := proxyServer_;
        skipGiteaRelease := skipGiteaRelease_;
        skipGiteaPullRequest := skipGiteaPullRequest_;
        skipLabeling := skipLabeling_;
        includeComponentInTag := includeComponentInTag_;
        changelogHost := or_else changelogHost_ "";
        versioningStrategy := versioningStrategy_;
        releaseAs := releaseAs_;
        giteaOwner := giteaOwner_;
        giteaRepo := giteaRepo_ |})))))))))))))))))).

(** * The Gitea client

    The methods of [GiteaClient]. The client's constructor only fixes the
    base URL, owner and repo of the requests, which are part of the host
    here. Every method but [getLatestRelease] logs a failure and throws it
    again. *)

(** ToBoolean on an optional boolean and on an optional string. *)
Definition truthy_flag (b : option bool) : bool :=
  match b with
  | Some true => true
  | _ => false
  end.

Definition truthy_str (s : option string) : bool :=
  match s with
  | Some v => negb (String.eqb v "")
  | None => false
  end.

Definition createRelease {S : Type} (host : Host S) (release : Release) : M S Release :=
  try_catch
    (data <- request
               (CreateRelease (rel_tagName release) (rel_name release) (rel_body release)
                  (truthy_flag (rel_draft release)) (truthy_flag (rel_prerelease release)))
               (fun s => repos_createRelease host s (rel_tagName release) (rel_name release)
                           (rel_body release) (truthy_flag (rel_draft release))
                           (truthy_flag (rel_prerelease release))) ;;
     ret {| rel_id := rd_id data;
            rel_tagName := rel_tagName release;
            rel_name := rel_name release;
            rel_body := rel_body release;
            rel_draft := rel_draft release;
            rel_prerelease := rel_prerelease release;
            rel_path := rel_path release;
            rel_version := rel_version release;
            rel_major := rel_major release;
            rel_minor := rel_minor release;
            rel_patch := rel_patch release;
            rel_sha := rel_sha release;
            rel_url := rd_html_url data;
            rel_uploadUrl := rd_upload_url data |})
    (fun e => core_error ("Failed to create release: " ++ error_toString e) ;; throw e).

(** [pr.labels && pr.labels.length > 0] *)
Definition has_labels (pr : PullRequest) : bool :=
  match pr_labels pr with
  | Some (_ :: _) => true
  | _ => false
  end.

Definition createPullRequest {S : Type} (host : Host S) (pr : PullRequest) : M S PullRequest :=
  try_catch
    (data <- request
               (CreatePull (pr_title pr) (pr_body pr) (pr_headBranchName pr) (pr_baseBranchName pr))
               (fun s => pulls_create host s (pr_title pr) (pr_body pr)
                           (pr_headBranchName pr) (pr_baseBranchName pr)) ;;
     (if has_labels pr then
        request (AddLabels (pd_number data) (match pr_labels pr with Some l => l | None => [] end))
          (fun s => issues_addLabels host s (pd_number data)
                      (match pr_labels pr with Some l => l | None => [] end))
      else ret tt) ;;
     ret {| pr_number := pd_number data;
            pr_title := pr_title pr;
            pr_body := pr_body pr;
            pr_headBranchName := pr_headBranchName pr;
            pr_baseBranchName := pr_baseBranchName pr;
            pr_url := pd_html_url data;
            pr_labels := pr_labels pr |})
    (fun e => core_error ("Failed to create pull request: " ++ error_toString e) ;; throw e).

(** [getLatestRelease]: any failure of the request means no release. *)
Definition getLatestRelease {S : Type} (host : Host S) : M S (option string) :=
  try_catch
    (tag <- request GetLatestRelease (repos_getLatestRelease host) ;; ret (Some tag))
    (fun _ => ret None).

Definition listCommits {S : Type} (host : Host S) (sha : option string) (perPage : Z)
  : M S (list Commit) :=
  try_catch
    (request (ListCommits sha perPage) (fun s => repos_listCommits host s sha perPage))
    (fun e => core_error ("Failed to list commits: " ++ error_toString e) ;; throw e).

(** [getBranch] returns the branch data; only [commit.sha] is read from it. *)
Definition getBranch {S : Type} (host : Host S) (branch : string) : M S string :=
  try_catch
    (request (GetBranch branch) (fun s => repos_getBranch host s branch))
    (fun e => core_error ("Failed to get branch: " ++ error_toString e) ;; throw e).

Definition createRef {S : Type} (host : Host S) (ref sha : string) : M S unit :=
  try_catch
    (request (CreateRef ("refs/heads/" ++ ref) sha)
       (fun s => git_createRef host s ("refs/heads/" ++ ref) sha))
    (fun e => core_error ("Failed to create ref: " ++ error_toString e) ;; throw e).

(** * Version resolver *)

(** [versionParts[i] || 0]. *)
Definition component (versionParts : list jsnum) (i : nat) : jsnum :=
  match nth_error versionParts i with
  | Some n => if truthy_num n then n else jszero
  | None => jszero
  end.

(** A [case] label of the [switch] on the strategy (strict equality). *)
Definition strategy_is (versioningStrategy : option string) (label : string) : bool :=
  match versioningStrategy with
  | Some s => String.eqb s label
  | None => false
  end.

(** [tag_name.replace(/^v/, '').split('.').map(Number)] *)
Definition versionParts (tag_name : string) : list jsnum :=
  let currentVersion := strip_leading "v" tag_name in
  map Number_ (split_on "." currentVersion).

(** The part of [determineNextVersion] after the latest release is known. *)
Definition bumpVersion (tag_name : string) (versioningStrategy : option string) : string :=
  let versionParts := versionParts tag_name in
  let major := component versionParts 0 in
  let minor := component versionParts 1 in
  let patch := component versionParts 2 in
  if strategy_is versioningStrategy "always-bump-major" then
    ToString (jsadd major jsone) ++ ".0.0"
  else if strategy_is versioningStrategy "always-bump-minor" then
    ToString major ++ "." ++ ToString (jsadd minor jsone) ++ ".0"
  else
    ToString major ++ "." ++ ToString minor ++ "." ++ ToString (jsadd patch jsone).

(** [determineNextVersion]: 1.0.0 when there is no release, else the bump. *)
Definition determineNextVersion {S : Type} (host : Host S) (versioningStrategy : option string)
  : M S string :=
  latestRelease <- getLatestRelease host ;;
  match latestRelease with
  | None => ret "1.0.0"
  | Some tag_name => ret (bumpVersion tag_name versioningStrategy)
  end.

(** * Changelog generator *)

(** [message.split('\n')[0]] *)
Definition first_line (message : string) : string :=
  hd EmptyString (split_on (ascii_of_nat 10) message).

(** The bullet line of one commit. *)
Definition changelog_line (c : Commit) : string :=
  "* " ++ first_line (commit_message c) ++ " (" ++ substring0 7 (commit_sha c) ++ ")" ++ newline.

(** The loop over the commits, with its [break]. *)
Fixpoint changelog_loop (fromTag : option string) (commits : list Commit) (changelog : string)
  : string :=
  match commits with
  | [] => changelog
  | commit :: rest =>
      if truthy_str fromTag
         && String.eqb (commit_sha commit) (match fromTag with Some t => t | None => "" end)
      then changelog
      else changelog_loop fromTag rest (changelog ++ changelog_line commit)
  end.

(** [generateChangelog]: one page of at most 100 commits from [toSha]. *)
Definition generateChangelog {S : Type} (host : Host S) (fromTag : option string)
  (toSha : string) : M S string :=
  commits <- listCommits host (Some toSha) 100 ;;
  ret (changelog_loop fromTag commits ("## Changes" ++ newline ++ newline)).

(** * Output formatter *)

(** [setPathOutput]: the key as it is at the root, behind the path
    otherwise. *)
Definition setPathOutput {S : Type} (path key : string) (value : jsval) : M S unit :=
  if String.eqb path "." then core_setOutput key value
  else core_setOutput (path ++ "--" ++ key) value.

(** [Object.entries(release)]: the properties in creation order (the literal
    built by [main], then the three added by [createRelease]). *)
Definition entries (release : Release) : list (string * option jsval) :=
  [ ("tagName", Some (VStr (rel_tagName release)));
    ("name", Some (VStr (rel_name release)));
    ("body", Some (VStr (rel_body release)));
    ("draft", option_map VBool (rel_draft release));
    ("prerelease", option_map VBool (rel_prerelease release));
    ("path", Some (VStr (rel_path release)));
    ("version", option_map VStr (rel_version release));
    ("major", option_map VNum (rel_major release));
    ("minor", option_map VNum (rel_minor release));
    ("patch", option_map VNum (rel_patch release));
    ("sha", option_map VStr (rel_sha release));
    ("id", option_map VNum (rel_id release));
    ("url", option_map VStr (rel_url release));
    ("uploadUrl", option_map VStr (rel_uploadUrl release)) ].

(** The renaming of keys in [outputReleases], one [if] after the other. *)
Definition output_key (rawKey : string) : string :=
  let key := rawKey in
  let key := if String.eqb key "tagName" then "tag_name" else key in
  let key := if String.eqb key "uploadUrl" then "upload_url" else key in
  let key := if String.eqb key "body" then "body" else key in
  let key := if String.eqb key "url" then "html_url" else key in
  key.

(** The inner loop of [outputReleases]: every property that has a value. *)
Fixpoint output_entries {S : Type} (path : string) (es : list (string * option jsval))
  : M S unit :=
  match es with
  | [] => ret tt
  | (rawKey, value) :: rest =>
      match value with
      | Some v => setPathOutput path (output_key rawKey) v
      | None => ret tt
      end ;;
      output_entries path rest
  end.

(** [xs.filter(x => x !== undefined)] *)
Definition defined {A : Type} (xs : list (option A)) : list A :=
  flat_map (fun x => match x with Some a => [a] | None => [] end) xs.

(** The loop of [outputReleases]; the result is [pathsReleased]. *)
Fixpoint output_each {S : Type} (releases : list Release) (pathsReleased : list string)
  : M S (list string) :=
  match releases with
  | [] => ret pathsReleased
  | release :: rest =>
      let path := or_else (rel_path release) "." in
      pathsReleased' <-
        (if negb (String.eqb path "") then
           setPathOutput path "release_created" (VBool true) ;;
           ret (pathsReleased ++ [path])%list
         else ret pathsReleased) ;;
      output_entries path (entries release) ;;
      output_each rest pathsReleased'
  end.

(** [outputReleases] and [outputPRs]. *)
Definition outputReleases {S : Type} (releases : list (option Release)) : M S unit :=
  let releases := defined releases in
  core_setOutput "releases_created" (VBool (0 <? Z.of_nat (List.length releases))) ;;
  pathsReleased <- (if negb (Nat.eqb (List.length releases) 0)
                    then output_each releases []
                    else ret []) ;;
  core_setOutput "paths_released" (VJsonPaths pathsReleased).

Definition outputPRs {S : Type} (prs : list (option PullRequest)) : M S unit :=
  let prs := defined prs in
  core_setOutput "prs_created" (VBool (0 <? Z.of_nat (List.length prs))) ;;
  match prs with
  | pr0 :: _ =>
      core_setOutput "pr" (VPullRequest pr0) ;;
      core_setOutput "prs" (VJsonPRs prs)
  | [] => ret tt
  end.

(** * Orchestrator *)

(** [inputs.releaseAs || await determineNextVersion(client, inputs.versioningStrategy)] *)
Definition nextVersion {S : Type} (host : Host S) (inputs : ActionInputs) : M S string :=
  if truthy_str (releaseAs inputs)
  then ret (match releaseAs inputs with Some v => v | None => "" end)
  else determineNextVersion host (versioningStrategy inputs).

(** [inputs.path || '.'] *)
Definition effective_path (inputs : ActionInputs) : string :=
  match path inputs with
  | Some p => or_else p "."
  | None => "."
  end.

(** The tag name and the release branch name computed in [main]. *)
Definition tagName (inputs : ActionInputs) (nextVersion : string) : string :=
  if truthy_flag (includeComponentInTag inputs) && truthy_str (path inputs)
  then match path inputs with Some p => p | None => "" end ++ "-v" ++ nextVersion
  else "v" ++ nextVersion.

Definition releaseBranchName (inputs : ActionInputs) (nextVersion : string) : string :=
  "release-please--" ++ targetBranch inputs ++ "--" ++ nextVersion.

(** The body of [if (!inputs.skipGiteaRelease)]. *)
Definition releaseBranch {S : Type} (host : Host S) (inputs : ActionInputs) : M S unit :=
  core_info "Creating release" ;;
  nextVersion <- nextVersion host inputs ;;
  branch <- getBranch host (targetBranch inputs) ;;
  latestRelease <- getLatestRelease host ;;
  changelog <- generateChangelog host
                 (match latestRelease with
                  | Some t => nonempty t
                  | None => None
                  end) branch ;;
  let release :=
    {| rel_id := None;
       rel_tagName := tagName inputs nextVersion;
       rel_name := "Release " ++ nextVersion;
       rel_body := changelog;
       rel_draft := Some false;
       rel_prerelease := Some false;
       rel_path := effective_path inputs;
       rel_version := Some nextVersion;
       rel_major := None;
       rel_minor := None;
       rel_patch := None;
       rel_sha := None;
       rel_url := None;
       rel_uploadUrl := None |} in
  createdRelease <- createRelease host release ;;
  outputReleases [Some createdRelease].

(** The body of [if (!inputs.skipGiteaPullRequest)]. *)
Definition pullRequestBranch {S : Type} (host : Host S) (inputs : ActionInputs) : M S unit :=
  core_info "Creating pull request" ;;
  nextVersion <- nextVersion host inputs ;;
  branch <- getBranch host (targetBranch inputs) ;;
  let releaseBranchName := releaseBranchName inputs nextVersion in
  try_catch (createRef host releaseBranchName branch)
    (fun _ => core_warning ("Branch " ++ releaseBranchName ++ " may already exist")) ;;
  let pr :=
    {| pr_number := jszero;
       pr_title := "chore: release " ++ nextVersion;
       pr_body := "Release " ++ nextVersion ++ newline ++ newline
                  ++ "This PR was generated by release-please for Gitea.";
       pr_headBranchName := releaseBranchName;
       pr_baseBranchName := targetBranch inputs;
       pr_url := "";
       pr_labels := Some (if truthy_flag (skipLabeling inputs) then []
                          else ["autorelease: pending"]) |} in
  createdPR <- createPullRequest host pr ;;
  outputPRs [Some createdPR].

(** [main]: both branches inside one [try]; whatever is thrown fails the
    invocation. *)
Definition main {S : Type} (host : Host S) (env : string -> string) : M S unit :=
  try_catch
    (inputs <- lift (parseInputs env) ;;
     core_info "Starting Gitea release-please process" ;;
     (if negb (truthy_flag (skipGiteaRelease inputs)) then releaseBranch host inputs
      else ret tt) ;;
     (if negb (truthy_flag (skipGiteaPullRequest inputs)) then pullRequestBranch host inputs
      else ret tt) ;;
     core_info "Release-please process completed successfully")
    (fun error => core_setFailed ("release-please failed: " ++ error_toString error)).


(** * Reference values used in the statements *)

(** A tag of the form [v]major.minor.patch. *)
Definition version_tag (prefixed : bool) (major minor patch : string) : string :=
  (if prefixed then "v" else "") ++ major ++ "." ++ minor ++ "." ++ patch.

(** The name under which a per-release value is published. *)
Definition output_name (path key : string) : string :=
  if String.eqb path "." then key else path ++ "--" ++ key.

(** The published fields of a release, under their external names. *)
Definition external_fields (release : Release) : list (string * option jsval) :=
  [ ("tag_name", Some (VStr (rel_tagName release)));
    ("name", Some (VStr (rel_name release)));
    ("body", Some (VStr (rel_body release)));
    ("draft", option_map VBool (rel_draft release));
    ("prerelease", option_map VBool (rel_prerelease release));
    ("path", Some (VStr (rel_path release)));
    ("version", option_map VStr (rel_version release));
    ("major", option_map VNum (rel_major release));
    ("minor", option_map VNum (rel_minor release));
    ("patch", option_map VNum (rel_patch release));
    ("sha", option_map VStr (rel_sha release));
    ("id", option_map VNum (rel_id release));
    ("html_url", option_map VStr (rel_url release));
    ("upload_url", option_map VStr (rel_uploadUrl release)) ].

(** The fields that have a value, each under [rename key]. *)
Definition published (rename : string -> string) (fields : list (string * option jsval))
  : list (string * jsval) :=
  flat_map (fun kv => match snd kv with
                      | Some v => [(rename (fst kv), v)]
                      | None => []
                      end) fields.

(** What the formatter publishes for one release whose effective path is
    [path]. *)
Definition release_outputs (path : string) (release : Release) : list (string * jsval) :=
  (("releases_created", VBool true)
   :: (output_name path "release_created", VBool true)
   :: published (output_name path) (external_fields release)
   ++ [("paths_released", VJsonPaths [path])])%list.

Definition pr_outputs (pr : PullRequest) : list (string * jsval) :=
  [ ("prs_created", VBool true); ("pr", VPullRequest pr); ("prs", VJsonPRs [pr]) ].

Definition with_outputs {S : Type} (r : Run S) (l : list (string * jsval)) : Run S :=
  {| host_state := host_state r; outputs := (outputs r ++ l)%list;
     log := log r; failed := failed r; calls := calls r |}.

(** The value last published under [key]. *)
Definition get_output (key : string) (outs : list (string * jsval)) : option jsval :=
  match find (fun kv => String.eqb (fst kv) key) (rev outs) with
  | Some kv => Some (snd kv)
  | None => None
  end.

Definition has_key (key : string) (outs : list (string * jsval)) : bool :=
  existsb (fun kv => String.eqb (fst kv) key) outs.

(** The external name of an internal field. *)
Definition external_name (field : string) : string :=
  if String.eqb field "tagName" then "tag_name"
  else if String.eqb field "uploadUrl" then "upload_url"
  else if String.eqb field "url" then "html_url"
  else field.

(** The names a release is published under, before any path prefix. *)
Definition external_names : list string :=
  [ "release_created"; "tag_name"; "name"; "body"; "draft"; "prerelease"; "path";
    "version"; "major"; "minor"; "patch"; "sha"; "id"; "html_url"; "upload_url" ].

(** [s] has two consecutive hyphens somewhere. *)
Fixpoint has_double_dash (s : string) : bool :=
  match s with
  | String a r =>
      match r with
      | String b _ => (Ascii.eqb a "-" && Ascii.eqb b "-") || has_double_dash r
      | EmptyString => false
      end
  | EmptyString => false
  end.

(** ** Sample environments and hosts *)

(** An environment given by the inputs that are supplied. *)
Definition env_of (supplied : list (string * string)) (name : string) : string :=
  match find (fun kv => String.eqb (fst kv) name) supplied with
  | Some kv => snd kv
  | None => EmptyString
  end.

Definition required_inputs : list (string * string) :=
  [ ("token", "secret"); ("gitea-api-url", "https://gitea.example/api/v1");
    ("gitea-owner", "owner"); ("gitea-repo", "repo") ].

(** A host whose answer to each kind of request is fixed. *)
Record Answers : Type := {
  latest_release : outcome string;
  branch_head : outcome string;
  commit_page : outcome (list Commit);
  created_release : outcome ReleaseData;
  created_ref : outcome unit;
  created_pull : outcome PullData;
  added_labels : outcome unit
}.

Definition fixed_host (a : Answers) : Host unit :=
  {| repos_createRelease := fun s _ _ _ _ _ => (s, created_release a);
     pulls_create := fun s _ _ _ _ => (s, created_pull a);
     issues_addLabels := fun s _ _ => (s, added_labels a);
     repos_getLatestRelease := fun s => (s, latest_release a);
     repos_listCommits := fun s _ _ => (s, commit_page a);
     repos_getBranch := fun s _ => (s, branch_head a);
     git_createRef := fun s _ _ => (s, created_ref a) |}.

Definition http_error (msg : string) : JsError :=
  {| err_name := "HttpError"; err_message := msg |}.

Definition sample_commits : list Commit :=
  [ {| commit_sha := "3f2a9c1d5e7b8a6f4c0d1e2f3a4b5c6d7e8f9a0b";
       commit_message := "feat: add widget" ++ newline ++ newline ++ "Longer description." |};
    {| commit_sha := "9b8c7d6e5f4a3b2c1d0e9f8a7b6c5d4e3f2a1b0c";
       commit_message := "fix: handle empty list" |};
    {| commit_sha := "0a1b2c3d4e5f60718293a4b5c6d7e8f901234567";
       commit_message := "chore: release 1.2.3" |} ].

(** Every request succeeds; [latest] is the answer to the latest-release
    lookup. *)
Definition healthy (latest : outcome string) : Answers :=
  {| latest_release := latest;
     branch_head := Ok "3f2a9c1d5e7b8a6f4c0d1e2f3a4b5c6d7e8f9a0b";
     commit_page := Ok sample_commits;
     created_release :=
       Ok {| rd_id := Some (Fin (42 # 1));
             rd_html_url := Some "https://gitea.example/owner/repo/releases/42";
             rd_upload_url := None |};
     created_ref := Ok tt;
     created_pull :=
       Ok {| pd_number := Fin (7 # 1);
             pd_html_url := "https://gitea.example/owner/repo/pulls/7" |};
     added_labels := Ok tt |}.

(** The scenario of a prior release v1.2.3 with patch bumps and the
    pull-request branch skipped. *)
Definition scenario_env : string -> string :=
  env_of (required_inputs
          ++ [ ("versioning-strategy", "always-bump-patch");
               ("skip-gitea-pull-request", "true") ])%list.

Definition scenario_host : Host unit := fixed_host (healthy (Ok "v1.2.3")).

(** A component pkgA whose name goes into the tag. *)
Definition component_env : string -> string :=
  env_of (required_inputs
          ++ [ ("path", "pkgA"); ("include-component-in-tag", "true") ])%list.

(** Only the required inputs are supplied. *)
Definition plain_env : string -> string := env_of required_inputs.

(** The branch lookup fails: the first step of either branch that can fail. *)
Definition no_branch_host : Host unit :=
  fixed_host
    {| latest_release := Ok "v1.2.3";
       branch_head := Throw (http_error "branch not found");
       commit_page := Ok sample_commits;
       created_release := created_release (healthy (Ok "v1.2.3"));
       created_ref := Ok tt;
       created_pull := created_pull (healthy (Ok "v1.2.3"));
       added_labels := Ok tt |}.

(** The release branch succeeds; the ref exists already and the pull
    request is refused. *)
Definition no_pull_host : Host unit :=
  fixed_host
    {| latest_release := Ok "v1.2.3";
       branch_head := branch_head (healthy (Ok "v1.2.3"));
       commit_page := Ok sample_commits;
       created_release := created_release (healthy (Ok "v1.2.3"));
       created_ref := Throw (http_error "reference already exists");
       created_pull := Throw (http_error "pull request refused");
       added_labels := Ok tt |}.

(** The ref exists already; everything else succeeds. *)
Definition ref_exists_host : Host unit :=
  fixed_host
    {| latest_release := Ok "v1.2.3";
       branch_head := branch_head (healthy (Ok "v1.2.3"));
       commit_page := Ok sample_commits;
       created_release := created_release (healthy (Ok "v1.2.3"));
       created_ref := Throw (http_error "reference already exists");
       created_pull := created_pull (healthy (Ok "v1.2.3"));
       added_labels := Ok tt |}.

(** An explicit version is requested. *)
Definition override_env : string -> string :=
  env_of (required_inputs ++ [ ("release-as", "3.0.0") ])%list.

(** The pull request that the pull-request branch proposes for a version. *)
Definition pull_request_for (inputs : ActionInputs) (nextVersion : string) : PullRequest :=
  {| pr_number := jszero;
     pr_title := "chore: release " ++ nextVersion;
     pr_body := "Release " ++ nextVersion ++ newline ++ newline
                ++ "This PR was generated by release-please for Gitea.";
     pr_headBranchName := releaseBranchName inputs nextVersion;
     pr_baseBranchName := targetBranch inputs;
     pr_url := "";
     pr_labels := Some (if truthy_flag (skipLabeling inputs) then []
                        else ["autorelease: pending"]) |}.

(** A created release record at [path]. *)
Definition sample_release (path : string) : Release :=
  {| rel_id := Some (Fin (42 # 1));
     rel_tagName := "v1.0.0";
     rel_name := "Release 1.0.0";
     rel_body := "## Changes" ++ newline ++ newline;
     rel_draft := Some false;
     rel_prerelease := Some false;
     rel_path := path;
     rel_version := Some "1.0.0";
     rel_major := None;
     rel_minor := None;
     rel_patch := None;
     rel_sha := None;
     rel_url := Some "https://gitea.example/owner/repo/releases/42";
     rel_uploadUrl := None |}.

(** ** Footprints: what a branch may publish, log and request *)

(** The version a branch works with: the override when set, otherwise what
    the resolver computes. *)
Definition resolved (inputs : ActionInputs) (version : string) : Prop :=
  if truthy_str (releaseAs inputs) then releaseAs inputs = Some version
  else version = "1.0.0" \/ exists tag, version = bumpVersion tag (versioningStrategy inputs).

Definition is_lookup (c : ApiCall) : bool :=
  match c with
  | GetLatestRelease => true
  | _ => false
  end.

(** Number of latest-release lookups among requests. *)
Definition lookups (cs : list ApiCall) : nat := List.length (filter is_lookup cs).

Definition release_call (inputs : ActionInputs) (version : string) (c : ApiCall) : Prop :=
  match c with
  | GetLatestRelease => True
  | GetBranch b => b = targetBranch inputs
  | ListCommits sha n => n = 100
  | CreateRelease tag name _ d p =>
      tag = tagName inputs version /\ name = "Release " ++ version /\ d = false /\ p = false
  | _ => False
  end.

(** What a branch logs after its opening line: nothing more when it
    completes, the failing step's error when it throws. *)
Definition failure_log (steps : list string) (res : outcome unit) (tail : list LogEvent)
  : Prop :=
  match res with
  | Ok _ => tail = []
  | Throw e =>
      exists step, In step steps /\
                   tail = [Error ("Failed to " ++ step ++ ": " ++ error_toString e)]
  end.

Definition release_log (res : outcome unit) (ll : list LogEvent) : Prop :=
  failure_log ["get branch"; "list commits"; "create release"] res ll.

Definition pull_call (inputs : ActionInputs) (version : string) (c : ApiCall) : Prop :=
  match c with
  | GetLatestRelease => True
  | GetBranch b => b = targetBranch inputs
  | CreateRef ref _ => ref = "refs/heads/" ++ releaseBranchName inputs version
  | CreatePull title _ head base =>
      title = "chore: release " ++ version /\
      head = releaseBranchName inputs version /\
      base = targetBranch inputs
  | AddLabels _ labels => labels = ["autorelease: pending"]
  | _ => False
  end.

(** The pull-request branch may in addition log a failed ref creation,
    as an error followed by the warning that replaces the failure. *)
Definition pull_log (inputs : ActionInputs) (version : string) (res : outcome unit)
  (ll : list LogEvent) : Prop :=
  exists tail,
    failure_log ["get branch"; "create pull request"] res tail /\
    (ll = tail \/
     exists e, ll = Error ("Failed to create ref: " ++ error_toString e)
                    :: Warning ("Branch " ++ releaseBranchName inputs version
                                ++ " may already exist")
                    :: tail).

(** The message the invocation is failed with. *)
Definition failure_message (e : JsError) : string :=
  "release-please failed: " ++ error_toString e.

(** ** The checks of [parseInputs] *)

(** What [parseInputs] demands of an input: that it is supplied, or that it
    is a boolean when it is not blank. *)
Inductive InputCheck : Type :=
| Supplied
| BooleanOrBlank.

(** The inputs that [parseInputs] can reject, in the order it reads them. *)
Definition checked_inputs : list (string * InputCheck) :=
  [ ("token", Supplied);
    ("gitea-api-url", Supplied);
    ("skip-gitea-release", BooleanOrBlank);
    ("skip-gitea-pull-request", BooleanOrBlank);
    ("skip-labeling", BooleanOrBlank);
    ("include-component-in-tag", BooleanOrBlank);
    ("gitea-owner", Supplied);
    ("gitea-repo", Supplied) ].

Definition yaml_booleans : list string :=
  [ "true"; "True"; "TRUE"; "false"; "False"; "FALSE" ].

(** The error with which a check rejects the value [env name]. *)
Definition input_error (env : string -> string) (check : string * InputCheck)
  : option JsError :=
  let name := fst check in
  match snd check with
  | Supplied =>
      if String.eqb (env name) "" then
        Some {| err_name := "Error";
                err_message := "Input required and not supplied: " ++ name |}
      else None
  | BooleanOrBlank =>
      let val := trim (env name) in
      if String.eqb val "" || existsb (String.eqb val) yaml_booleans then None
      else Some {| err_name := "TypeError";
                   err_message :=
                     "Input does not meet YAML 1.2 " ++ dquote ++ "Core Schema" ++ dquote
                     ++ " specification: " ++ name ++ newline
                     ++ "Support boolean input list: `true | True | TRUE | false | False | FALSE`" |}
  end.

(** The first error among a list of checks. *)
Fixpoint first_error (env : string -> string) (checks : list (string * InputCheck))
  : option JsError :=
  match checks with
  | [] => None
  | check :: rest =>
      match input_error env check with
      | Some e => Some e
      | None => first_error env rest
      end
  end.

(** The value of an optional boolean input that passed its check. *)
Definition flag_value (env : string -> string) (name : string) : option bool :=
  if String.eqb (trim (env name)) "" then None
  else Some (existsb (String.eqb (trim (env name))) ["true"; "True"; "TRUE"]).

(** The last line of a completed invocation. *)
Definition completed : LogEvent := Info "Release-please process completed successfully".

(** ** The client's constructor *)

(** [s.replace(/suffix$/, '')] for a literal [suffix]: the match is looked
    for from the left, and can only be the end of [s]. *)
Fixpoint strip_suffix (suffix s : string) : string :=
  if String.eqb s suffix then EmptyString
  else match s with
       | String c r => String c (strip_suffix suffix r)
       | EmptyString => EmptyString
       end.

(** The fields of a [GiteaClient]; [octokit_auth] and [octokit_baseUrl] are
    the options its Octokit instance is built with. *)
Record GiteaClient : Type := {
  client_owner : string;
  client_repo : string;
  client_baseUrl : string;
  octokit_auth : string;
  octokit_baseUrl : string
}.

Definition new_GiteaClient (token baseUrl owner repo : string) : GiteaClient :=
  let this_baseUrl := strip_suffix "/api/v1" baseUrl in
  {| client_owner := owner;
     client_repo := repo;
     client_baseUrl := this_baseUrl;
     octokit_auth := token;
     octokit_baseUrl := this_baseUrl ++ "/api/v1" |}.

(** [s] ends with [suffix]. *)
Fixpoint ends_with (suffix s : string) : bool :=
  String.eqb s suffix ||
  match s with
  | String _ r => ends_with suffix r
  | EmptyString => false
  end.

(** ** Pull requests and their labels *)

(** [pr.labels], read as a list. *)
Definition labels_of (pr : PullRequest) : list string :=
  match pr_labels pr with
  | Some l => l
  | None => []
  end.

(** The request that creates [pr]. *)
Definition create_pull_call (pr : PullRequest) : ApiCall :=
  CreatePull (pr_title pr) (pr_body pr) (pr_headBranchName pr) (pr_baseBranchName pr).

(** [{...pr, number, url}] with the values of the response. *)
Definition created_pull_request (pr : PullRequest) (data : PullData) : PullRequest :=
  {| pr_number := pd_number data;
     pr_title := pr_title pr;
     pr_body := pr_body pr;
     pr_headBranchName := pr_headBranchName pr;
     pr_baseBranchName := pr_baseBranchName pr;
     pr_url := pd_html_url data;
     pr_labels := pr_labels pr |}.

Definition is_labeling (c : ApiCall) : bool :=
  match c with
  | AddLabels _ _ => true
  | _ => false
  end.

(** The inputs parsed from [plain_env]. *)
Definition plain_inputs : ActionInputs :=
  {| token := "secret"; repoUrl := ""; releaseType := None; path := None;
     giteaApiUrl := "https://gitea.example/api/v1";
     configFile := Some DEFAULT_CONFIG_FILE; manifestFile := Some DEFAULT_MANIFEST_FILE;
     proxyServer := None; targetBranch := "main"; skipGiteaRelease := None;
     skipGiteaPullRequest := None; skipLabeling := None; includeComponentInTag := None;
     changelogHost := ""; versioningStrategy := None; releaseAs := None;
     giteaOwner := "owner"; giteaRepo := "repo" |}.

(** A token of white space only. *)
Definition blank_token_env : string -> string :=
  env_of [ ("token", " "); ("gitea-api-url", "https://gitea.example/api/v1");
           ("gitea-owner", "owner"); ("gitea-repo", "repo") ].

(** The gitea-api-url is missing and skip-labeling is not a boolean. *)
Definition faulty_env : string -> string :=
  env_of [ ("token", "secret"); ("skip-labeling", "yes") ].

(** Labels are not wanted. *)
Definition unlabeled_env : string -> string :=
  env_of (required_inputs ++ [ ("skip-labeling", "TRUE") ])%list.

(** The pull request is created, but the label is refused. *)
Definition no_labels_host : Host unit :=
  fixed_host
    {| latest_release := Ok "v1.2.3";
       branch_head := branch_head (healthy (Ok "v1.2.3"));
       commit_page := Ok sample_commits;
       created_release := created_release (healthy (Ok "v1.2.3"));
       created_ref := Ok tt;
       created_pull := created_pull (healthy (Ok "v1.2.3"));
       added_labels := Throw (http_error "label not found") |}.

(** ** Successive releases *)

(** The tags of [k] successive releases after [tag], each release tagged by
    [main] with the version the resolver computes from the tag before. *)
Fixpoint release_series (inputs : ActionInputs) (k : nat) (tag : string) : string :=
  match k with
  | O => tag
  | S k' =>
      tagName inputs
        (bumpVersion (release_series inputs k' tag) (versioningStrategy inputs))
  end.

(** The components after [k] bumps under a strategy. *)
Definition bumped (strategy : option string) (k : Z) (version : Z * Z * Z) : Z * Z * Z :=
  let '(major, minor, patch) := version in
  if strategy_is strategy "always-bump-major" then (major + k, 0, 0)
  else if strategy_is strategy "always-bump-minor" then (major, minor + k, 0)
  else (major, minor, patch + k).

(** The tag v<major>.<minor>.<patch>. *)
Definition tag_of (version : Z * Z * Z) : string :=
  let '(major, minor, patch) := version in
  version_tag true (string_of_Z major) (string_of_Z minor) (string_of_Z patch).

(** ** Reference values for the release notes and the next release *)



(** A component pkgA whose name goes into the tag. *)
Definition component_inputs : ActionInputs :=
  {| token := "secret"; repoUrl := ""; releaseType := None; path := Some "pkgA";
     giteaApiUrl := "https://gitea.example/api/v1";
     configFile := Some DEFAULT_CONFIG_FILE; manifestFile := Some DEFAULT_MANIFEST_FILE;
     proxyServer := None; targetBranch := "main"; skipGiteaRelease := None;
     skipGiteaPullRequest := None; skipLabeling := None; includeComponentInTag := Some true;
     changelogHost := ""; versioningStrategy := None; releaseAs := None;
     giteaOwner := "owner"; giteaRepo := "repo" |}.



(** [s] holds the character [c]. *)
Fixpoint contains (c : ascii) (s : string) : bool :=
  match s with
  | String d r => Ascii.eqb d c || contains c r
  | EmptyString => false
  end.

(** ** Reference values for the formatter and the client *)

(** The path under which the formatter publishes a record. *)
Definition published_path (release : Release) : string := or_else (rel_path release) ".".

(** What the formatter publishes for one record of a list. *)
Definition record_outputs (release : Release) : list (string * jsval) :=
  (output_name (published_path release) "release_created", VBool true)
  :: published (output_name (published_path release)) (external_fields release).

(** The request that creates [release]: an undefined draft or prerelease
    flag is sent as false. *)
Definition create_release_call (release : Release) : ApiCall :=
  CreateRelease (rel_tagName release) (rel_name release) (rel_body release)
    (truthy_flag (rel_draft release)) (truthy_flag (rel_prerelease release)).

(** [{...release, id, url, uploadUrl}] with the values of the response. *)
Definition created_release_record (release : Release) (data : ReleaseData) : Release :=
  {| rel_id := rd_id data;
     rel_tagName := rel_tagName release;
     rel_name := rel_name release;
     rel_body := rel_body release;
     rel_draft := rel_draft release;
     rel_prerelease := rel_prerelease release;
     rel_path := rel_path release;
     rel_version := rel_version release;
     rel_major := rel_major release;
     rel_minor := rel_minor release;
     rel_patch := rel_patch release;
     rel_sha := rel_sha release;
     rel_url := rd_html_url data;
     rel_uploadUrl := rd_upload_url data |}.

(** The state after a request that failed with [e] in a method that reports
    its failures as "Failed to [step]". *)
Definition reported {S : Type} (r : Run S) (s' : S) (c : ApiCall) (step : string)
  (e : JsError) : Run S :=
  logged (answered r s' c) (Error ("Failed to " ++ step ++ ": " ++ error_toString e)).

(* ================================================================= *)
(** * Properties *)

(** ** Rounding to binary64 on integers *)

Lemma Qred_int (z : Z) : Qred (z # 1) = z # 1.
Proof.
  unfold Qred.
  pose proof (Z.ggcd_correct_divisors z 1) as Hd.
  pose proof (Z.ggcd_gcd z 1) as Hg.
  destruct (Z.ggcd z 1) as [g [a b]]. simpl in *.
  rewrite Z.gcd_1_r in Hg. subst g. destruct Hd as [Ha Hb].
  replace a with z by lia. replace b with 1 by lia. reflexivity.
Qed.

Lemma Qred_scaled (z k : Z) : 0 < k -> Qred ((z * k) # Z.to_pos k) = z # 1.
Proof.
  intros Hk. rewrite <- (Qred_int z). apply Qred_complete.
  unfold Qeq. simpl. rewrite Z2Pos.id by lia. lia.
Qed.

Lemma round_half_even_exact (z d : Z) : 0 < d -> round_half_even (z * d) d = z.
Proof.
  intros Hd. unfold round_half_even.
  rewrite Z.div_mul, Z.mod_mul by lia.
  destruct (Z.compare_spec (2 * 0) d); lia.
Qed.

Lemma round_half_even_one (z : Z) : round_half_even z 1 = z.
Proof.
  pose proof (round_half_even_exact z 1) as H.
  rewrite Z.mul_1_r in H. apply H. lia.
Qed.

Lemma round_half_even_lower (n d : Z) : 0 < d -> n / d <= round_half_even n d.
Proof.
  intros Hd. unfold round_half_even.
  destruct (2 * (n mod d) ?= d); try destruct (Z.even (n / d)); lia.
Qed.

Lemma floor_log2_int (v : Z) : 0 < v -> floor_log2_ratio v 1 = Z.log2 v.
Proof.
  intros Hv. unfold floor_log2_ratio.
  change (Z.log2 1) with 0. rewrite Z.sub_0_r.
  pose proof (Z.log2_nonneg v) as Hn.
  destruct (Z.leb_spec 0 (Z.log2 v)); try lia.
  pose proof (Z.log2_spec v Hv) as [Hlo _].
  destruct (Z.leb_spec (1 * 2 ^ Z.log2 v) v); lia.
Qed.

Lemma round_pos_safe (v : Z) : 0 < v < 2 ^ 53 -> round_pos v 1 = Fin (v # 1).
Proof.
  intros [Hpos Hlt]. unfold round_pos.
  rewrite floor_log2_int by assumption.
  pose proof (Z.log2_nonneg v) as Hn.
  assert (Hl : Z.log2 v < 53) by (apply Z.log2_lt_pow2; lia).
  rewrite Z.max_l by lia.
  set (e := Z.log2 v - 52).
  destruct (Z.leb_spec 0 e) as [He | He].
  - assert (He0 : e = 0) by lia. rewrite He0.
    change (1 * 2 ^ 0) with 1. change (2 ^ 0) with 1.
    rewrite round_half_even_one.
    change (971 <? 0) with false. change (0 =? 971) with false.
    cbn [orb andb]. rewrite Z.mul_1_r, Qred_int. reflexivity.
  - rewrite round_half_even_one.
    destruct (Z.ltb_spec 971 e); try lia.
    destruct (Z.eqb_spec e 971); try lia.
    cbn [orb andb]. rewrite Qred_scaled. reflexivity.
    apply Z.pow_pos_nonneg; lia.
Qed.

Lemma round_double_safe (v : Z) : 0 <= v < 2 ^ 53 -> round_double (v # 1) = Fin (v # 1).
Proof.
  intros [H0 H1]. unfold round_double. simpl Qnum. simpl Qden.
  destruct v as [| a | a]; try lia.
  - reflexivity.
  - apply round_pos_safe. lia.
Qed.

Lemma round_pos_large (y : Z) :
  2 ^ 53 <= y -> round_pos y 1 = Inf false \/ exists z, 2 ^ 53 <= z /\ round_pos y 1 = Fin (z # 1).
Proof.
  intros Hy. assert (Hpos : 0 < y) by lia.
  unfold round_pos. rewrite floor_log2_int by assumption.
  assert (Hl : 53 <= Z.log2 y) by (apply Z.log2_le_pow2; lia).
  rewrite Z.max_l by lia.
  set (e := Z.log2 y - 52).
  destruct (Z.leb_spec 0 e); try lia.
  rewrite Z.mul_1_l.
  set (m := round_half_even y (2 ^ e)).
  destruct ((971 <? e) || ((e =? 971) && (2 ^ 53 <=? m))); [left; reflexivity | right].
  exists (m * 2 ^ e). split; [| rewrite Qred_int; reflexivity].
  assert (Hpe : 0 < 2 ^ e) by (apply Z.pow_pos_nonneg; lia).
  assert (Hm : 2 ^ 52 <= m).
  { subst m. etransitivity; [| apply round_half_even_lower; lia].
    apply Z.div_le_lower_bound; try lia.
    rewrite <- Z.pow_add_r by lia.
    replace (e + 52) with (Z.log2 y) by lia.
    apply Z.log2_spec. lia. }
  assert (2 ^ 1 <= 2 ^ e) by (apply Z.pow_le_mono_r; lia).
  change (2 ^ 53) with (2 ^ 52 * 2 ^ 1).
  apply Z.mul_le_mono_nonneg; lia.
Qed.

Lemma round_int_inv (y v : Z) :
  0 <= y -> 0 <= v < 2 ^ 53 ->
  jsnum_eqb (round_double (y # 1)) (Fin (v # 1)) = true -> y = v.
Proof.
  intros Hy Hv He.
  destruct (Z.lt_ge_cases y (2 ^ 53)) as [Hs | Hb].
  - rewrite round_double_safe in He by lia. simpl in He.
    apply Qeq_bool_eq in He. unfold Qeq in He. simpl in He. lia.
  - unfold round_double in He. simpl Qnum in He. simpl Qden in He.
    destruct y as [| a | a]; try lia.
    destruct (round_pos_large (Z.pos a) Hb) as [E | [z [Hz E]]]; rewrite E in He.
    + discriminate.
    + simpl in He. apply Qeq_bool_eq in He. unfold Qeq in He. simpl in He. lia.
Qed.

(** Decimal digits *)

Lemma dec_digits_S (f : nat) (n : Z) :
  dec_digits (S f) n =
  if n <? 10 then String (digit_char n) EmptyString
  else dec_digits f (n / 10) ++ String (digit_char (n mod 10)) EmptyString.
Proof. reflexivity. Qed.

Lemma dec_digits_fuel (f1 : nat) : forall (f2 : nat) (n : Z),
  0 <= n < 10 ^ Z.of_nat (S f1) -> n < 10 ^ Z.of_nat (S f2) ->
  dec_digits (S f1) n = dec_digits (S f2) n.
Proof.
  induction f1 as [| f1 IH]; intros f2 n Hn Hn2.
  - change (10 ^ Z.of_nat 1) with 10 in Hn. simpl.
    destruct (Z.ltb_spec n 10); try lia. reflexivity.
  - cbn [dec_digits]. destruct (Z.ltb_spec n 10) as [Hs | Hb]; [reflexivity |].
    destruct f2 as [| f2].
    + change (10 ^ Z.of_nat 1) with 10 in Hn2. lia.
    + f_equal. apply IH.
      * split; [apply Z.div_pos; lia |].
        apply Z.div_lt_upper_bound; [lia |].
        rewrite <- Z.pow_succ_r by lia. rewrite <- Nat2Z.inj_succ. lia.
      * apply Z.div_lt_upper_bound; [lia |].
        rewrite <- Z.pow_succ_r by lia. rewrite <- Nat2Z.inj_succ. lia.
Qed.

Lemma lt_pow10_log2 (n : Z) : 0 <= n -> n < 10 ^ Z.of_nat (S (Z.to_nat (Z.log2 n))).
Proof.
  intros Hn. pose proof (Z.log2_nonneg n) as Hl.
  rewrite Nat2Z.inj_succ, Z2Nat.id by lia.
  destruct (Z.eq_dec n 0) as [-> | Hz].
  - change (Z.log2 0) with 0. simpl. lia.
  - pose proof (Z.log2_spec n ltac:(lia)) as [_ Hu].
    eapply Z.lt_le_trans; [exact Hu |].
    apply Z.pow_le_mono_l. lia.
Qed.

Lemma string_of_Z_fuel (f : nat) (n : Z) :
  0 <= n < 10 ^ Z.of_nat (S f) -> string_of_Z n = dec_digits (S f) n.
Proof.
  intros [H0 H1]. unfold string_of_Z.
  apply dec_digits_fuel; [split; [lia | apply lt_pow10_log2; lia] | lia].
Qed.

Lemma string_of_Z_step (n : Z) :
  10 <= n ->
  string_of_Z n = string_of_Z (n / 10) ++ String (digit_char (n mod 10)) EmptyString.
Proof.
  intros Hn. unfold string_of_Z at 1. cbn [dec_digits].
  destruct (Z.ltb_spec n 10); try lia.
  f_equal.
  assert (Hl : 0 < Z.log2 n) by (apply Z.log2_pos; lia).
  destruct (Z.to_nat (Z.log2 n)) as [| f] eqn:E; [lia |].
  symmetry. apply string_of_Z_fuel.
  split; [apply Z.div_pos; lia |].
  apply Z.div_lt_upper_bound; [lia |].
  rewrite <- Z.pow_succ_r by lia. rewrite <- Nat2Z.inj_succ, <- E.
  apply lt_pow10_log2. lia.
Qed.

Lemma string_of_Z_mul10 (s : Z) :
  1 <= s -> string_of_Z (s * 10) = string_of_Z s ++ "0".
Proof.
  intros Hs. rewrite string_of_Z_step by lia.
  rewrite Z.div_mul, Z.mod_mul by lia. reflexivity.
Qed.

Lemma repeat_char_snoc (c : ascii) (n : nat) :
  repeat_char c (S n) = repeat_char c n ++ String c EmptyString.
Proof.
  induction n as [| n IH]; [reflexivity |].
  cbn [repeat_char append] in *. rewrite <- IH. reflexivity.
Qed.

Lemma append_assoc (a b c : string) : (a ++ b) ++ c = a ++ (b ++ c).
Proof.
  induction a as [| x a IH]; simpl; [reflexivity | rewrite IH; reflexivity].
Qed.

Lemma append_nil_r (a : string) : a ++ "" = a.
Proof.
  induction a as [| x a IH]; simpl; [reflexivity | rewrite IH; reflexivity].
Qed.

Lemma string_of_Z_pow10 (s : Z) (j : nat) :
  1 <= s -> string_of_Z (s * 10 ^ Z.of_nat j) = string_of_Z s ++ repeat_char "0" j.
Proof.
  intros Hs. induction j as [| j IH].
  - simpl. rewrite Z.mul_1_r, append_nil_r. reflexivity.
  - rewrite Nat2Z.inj_succ, Z.pow_succ_r by lia.
    replace (s * (10 * 10 ^ Z.of_nat j)) with (s * 10 ^ Z.of_nat j * 10) by lia.
    assert (0 < 10 ^ Z.of_nat j) by (apply Z.pow_pos_nonneg; lia).
    rewrite string_of_Z_mul10 by nia.
    rewrite IH, repeat_char_snoc, append_assoc. reflexivity.
Qed.

Lemma length_append (a b : string) :
  String.length (a ++ b) = (String.length a + String.length b)%nat.
Proof.
  induction a as [| x a IH]; simpl; [reflexivity | rewrite IH; reflexivity].
Qed.

Lemma dec_digits_length (f : nat) : forall n : Z,
  0 <= n < 10 ^ Z.of_nat (S f) ->
  (1 <= String.length (dec_digits (S f) n) <= S f)%nat.
Proof.
  induction f as [| f IH]; intros n Hn.
  - change (10 ^ Z.of_nat 1) with 10 in Hn. simpl.
    destruct (Z.ltb_spec n 10); try lia. simpl. lia.
  - rewrite dec_digits_S. destruct (Z.ltb_spec n 10) as [Hs | Hb]; [simpl; lia |].
    rewrite length_append. cbn [String.length].
    assert (Hq : 0 <= n / 10 < 10 ^ Z.of_nat (S f)).
    { split; [apply Z.div_pos; lia |].
      apply Z.div_lt_upper_bound; [lia |].
      rewrite <- Z.pow_succ_r by lia. rewrite <- Nat2Z.inj_succ. lia. }
    specialize (IH _ Hq). lia.
Qed.

Lemma ndigits_bounds (v : Z) : 0 <= v < 2 ^ 53 -> 1 <= ndigits v <= 16.
Proof.
  intros Hv. unfold ndigits.
  rewrite (string_of_Z_fuel 15) by (change (10 ^ Z.of_nat 16) with 10000000000000000;
                                    change (2 ^ 53) with 9007199254740992 in Hv; lia).
  pose proof (dec_digits_length 15 v) as H.
  change (10 ^ Z.of_nat 16) with 10000000000000000 in H.
  change (2 ^ 53) with 9007199254740992 in Hv.
  specialize (H ltac:(lia)). lia.
Qed.

(** Number::toString on safe integers *)

Lemma shortest_S (f : nat) (x : Q) (n k : Z) :
  shortest (S f) x n k =
  let t := n - k in
  let lo := scaled_floor (Qnum x) (Zpos (Qden x)) t in
  let hi := lo + 1 in
  let ok s := jsnum_eqb (round_double (scaled_value s t)) (Fin x) in
  let up := if hi =? 10 ^ k then (n + 1, 1, 1) else (n, k, hi) in
  match ok lo, ok hi with
  | true, true =>
      match Qcompare (x - scaled_value lo t) (scaled_value hi t - x) with
      | Lt => Some (n, k, lo)
      | Gt => Some up
      | Eq => if Z.even lo then Some (n, k, lo) else Some up
      end
  | true, false => Some (n, k, lo)
  | false, true => Some up
  | false, false => shortest f x n (k + 1)
  end.
Proof. reflexivity. Qed.

Lemma scaled_value_int (s t : Z) : 0 <= t -> scaled_value s t = (s * 10 ^ t) # 1.
Proof.
  intros Ht. unfold scaled_value. destruct (Z.leb_spec 0 t); [reflexivity | lia].
Qed.

Lemma scaled_floor_int (v t : Z) : 0 <= t -> scaled_floor v 1 t = v / 10 ^ t.
Proof.
  intros Ht. unfold scaled_floor. destruct (Z.leb_spec 0 t); [| lia].
  rewrite Z.mul_1_l. reflexivity.
Qed.

Lemma jsnum_eqb_refl_int (v : Z) : jsnum_eqb (Fin (v # 1)) (Fin (v # 1)) = true.
Proof. simpl. apply Qeq_bool_iff. reflexivity. Qed.

Lemma shortest_safe (v n : Z) :
  0 < v < 2 ^ 53 ->
  forall (fuel : nat) (k : Z),
    1 <= k <= n -> (Z.to_nat (n - k) < fuel)%nat ->
    exists k' s, k <= k' <= n /\ s * 10 ^ (n - k') = v /\
                 shortest fuel (v # 1) n k = Some (n, k', s).
Proof.
  intros Hv. induction fuel as [| fuel IH]; intros k Hk Hf; [lia |].
  rewrite shortest_S. cbn zeta. cbn [Qnum Qden].
  assert (Ht : 0 <= n - k) by lia.
  assert (Hp : 0 < 10 ^ (n - k)) by (apply Z.pow_pos_nonneg; lia).
  rewrite scaled_floor_int by lia.
  rewrite !scaled_value_int by lia.
  set (d := 10 ^ (n - k)) in *.
  pose proof (Z.div_mod v d ltac:(lia)) as Hdm.
  pose proof (Z.mod_pos_bound v d Hp) as Hmod.
  assert (Hlo : 0 <= v / d) by (apply Z.div_pos; lia).
  destruct (jsnum_eqb (round_double (((v / d + 1) * d) # 1)) (Fin (v # 1))) eqn:Ehi.
  { apply round_int_inv in Ehi; nia. }
  destruct (jsnum_eqb (round_double ((v / d * d) # 1)) (Fin (v # 1))) eqn:Elo.
  - apply round_int_inv in Elo; try nia.
    exists k, (v / d). repeat split; lia.
  - destruct (Z.eq_dec k n) as [-> | Hne].
    + exfalso. subst d. rewrite Z.sub_diag in Elo. change (10 ^ 0) with 1 in Elo.
      rewrite Z.div_1_r, Z.mul_1_r in Elo.
      rewrite round_double_safe, jsnum_eqb_refl_int in Elo by lia. discriminate.
    + destruct (IH (k + 1)) as [k' [s [Hk' [Hs E]]]]; try lia.
      exists k', s. repeat split; try lia. exact E.
Qed.

Lemma ToString_safe (v : Z) : 0 <= v < 2 ^ 53 -> ToString (Fin (v # 1)) = string_of_Z v.
Proof.
  intros Hv. destruct v as [| p | p]; [reflexivity | | lia].
  cbn [ToString Qnum]. unfold ToString_pos. cbn [Qnum Qden].
  unfold dec_exponent. destruct (Z.leb_spec 1 (Z.pos p)); [| lia].
  rewrite Z.div_1_r.
  pose proof (ndigits_bounds (Z.pos p) Hv) as Hn.
  destruct (shortest_safe (Z.pos p) (ndigits (Z.pos p)) ltac:(lia) 17 1)
    as [k [s [Hk [Hs E]]]]; try lia.
  rewrite E. unfold format_digits.
  destruct (Z.leb_spec k (ndigits (Z.pos p))); [| lia].
  destruct (Z.leb_spec (ndigits (Z.pos p)) 21); [| lia].
  cbn [andb].
  assert (Hp : 0 < 10 ^ (ndigits (Z.pos p) - k)) by (apply Z.pow_pos_nonneg; lia).
  set (j := ndigits (Z.pos p) - k) in *.
  transitivity (string_of_Z (s * 10 ^ Z.of_nat (Z.to_nat j))).
  - symmetry. apply string_of_Z_pow10. nia.
  - rewrite Z2Nat.id by lia. rewrite Hs. reflexivity.
Qed.

Lemma jsadd_one_safe (v : Z) :
  0 <= v -> v + 1 < 2 ^ 53 -> jsadd (Fin (v # 1)) jsone = Fin ((v + 1) # 1).
Proof.
  intros H0 H1. unfold jsadd, jsone, Qplus. cbn [Qnum Qden].
  change (1 * 1)%positive with 1%positive.
  rewrite !Z.mul_1_r. apply round_double_safe. lia.
Qed.

(** Decimal numerals *)

Lemma is_digit_code (c : ascii) : is_digit c = true -> 48 <= code c <= 57.
Proof. unfold is_digit. intros H. apply andb_prop in H. lia. Qed.

Lemma eqb_code (c d : ascii) : code c <> code d -> Ascii.eqb c d = false.
Proof. intros H. apply Ascii.eqb_neq. intros ->. apply H. reflexivity. Qed.

Ltac not_digit H :=
  apply eqb_code; apply is_digit_code in H; unfold code at 2; simpl; lia.

Lemma digit_not_space (c : ascii) : is_digit c = true -> is_space c = false.
Proof.
  intros H. apply is_digit_code in H. unfold is_space. cbn zeta.
  destruct (Z.leb_spec 9 (code c)), (Z.leb_spec (code c) 13),
    (Z.eqb_spec (code c) 32), (Z.eqb_spec (code c) 160); simpl; lia.
Qed.

Lemma digit_of_digit (c : ascii) : is_digit c = true -> digit_of 10 c = Some (code c - 48).
Proof.
  intros H. apply is_digit_code in H. unfold digit_of. cbn zeta.
  destruct (Z.leb_spec 48 (code c)), (Z.leb_spec (code c) 57); try lia. cbn [andb].
  destruct (Z.ltb_spec (code c - 48) 10); [reflexivity | lia].
Qed.

Lemma trimEnd_digits (s : string) : all_chars is_digit s = true -> trimEnd s = s.
Proof.
  induction s as [| c r IH]; [reflexivity |].
  cbn [all_chars]. intros H. apply andb_prop in H. destruct H as [Hc Hr].
  cbn [trimEnd]. rewrite (IH Hr). destruct r; [| reflexivity].
  rewrite (digit_not_space c Hc). reflexivity.
Qed.

Lemma trim_decimal (s : string) : all_chars is_digit s = true -> trim s = s.
Proof.
  intros H. unfold trim. destruct s as [| c r]; [reflexivity |].
  cbn [trimStart]. pose proof H as H'. cbn [all_chars] in H'.
  apply andb_prop in H'. destruct H' as [Hc _].
  rewrite (digit_not_space c Hc). apply trimEnd_digits. exact H.
Qed.

Lemma span_digits_decimal (s : string) : forall acc cnt : Z,
  all_chars is_digit s = true ->
  span_digits 10 s acc cnt =
  (decimal_acc s acc, cnt + Z.of_nat (String.length s), EmptyString).
Proof.
  induction s as [| c r IH]; intros acc cnt H.
  - simpl. rewrite Z.add_0_r. reflexivity.
  - cbn [all_chars] in H. apply andb_prop in H. destruct H as [Hc Hr].
    cbn [span_digits decimal_acc]. rewrite (digit_of_digit c Hc), (IH _ _ Hr).
    cbn [String.length]. rewrite Nat2Z.inj_succ. f_equal. f_equal. lia.
Qed.

Lemma decimal_acc_nonneg (s : string) : forall acc : Z,
  all_chars is_digit s = true -> 0 <= acc -> 0 <= decimal_acc s acc.
Proof.
  induction s as [| c r IH]; intros acc H Ha; [exact Ha |].
  cbn [all_chars] in H. apply andb_prop in H. destruct H as [Hc Hr].
  cbn [decimal_acc]. apply IH; [exact Hr |]. apply is_digit_code in Hc. lia.
Qed.

Lemma radix_prefix_decimal (s : string) :
  all_chars is_digit s = true -> radix_prefix s = None.
Proof.
  destruct s as [| c0 [| c1 r]]; try reflexivity.
  cbn [all_chars]. intros H. apply andb_prop in H. destruct H as [_ H].
  apply andb_prop in H. destruct H as [H1 _].
  unfold radix_prefix. destruct (Ascii.eqb c0 "0"); [| reflexivity].
  replace (Ascii.eqb c1 "x") with false by (symmetry; not_digit H1).
  replace (Ascii.eqb c1 "X") with false by (symmetry; not_digit H1).
  replace (Ascii.eqb c1 "o") with false by (symmetry; not_digit H1).
  replace (Ascii.eqb c1 "O") with false by (symmetry; not_digit H1).
  replace (Ascii.eqb c1 "b") with false by (symmetry; not_digit H1).
  replace (Ascii.eqb c1 "B") with false by (symmetry; not_digit H1).
  reflexivity.
Qed.

Lemma Number_decimal (s : string) :
  is_decimal s = true -> Number_ s = round_double (decimal_value s # 1).
Proof.
  unfold is_decimal. intros H. apply andb_prop in H. destruct H as [Hne Hd].
  unfold Number_. rewrite (trim_decimal s Hd). cbn zeta.
  rewrite (radix_prefix_decimal s Hd).
  destruct s as [| c r]; [discriminate |].
  pose proof Hd as Hd'. cbn [all_chars] in Hd'. apply andb_prop in Hd'.
  destruct Hd' as [Hc Hr].
  replace (Ascii.eqb c "+") with false by (symmetry; not_digit Hc).
  replace (Ascii.eqb c "-") with false by (symmetry; not_digit Hc).
  unfold unsigned_decimal.
  replace (String.eqb (String c r) "Infinity") with false.
  2:{ symmetry. cbn [String.eqb].
      replace (Ascii.eqb c "I") with false by (symmetry; not_digit Hc). reflexivity. }
  rewrite (span_digits_decimal _ 0 0 Hd).
  cbn [exponent_part]. rewrite Z.add_0_l, Z.add_0_r.
  destruct (Z.ltb_spec 0 (Z.of_nat (String.length (String c r)))) as [_ | Hl];
    [| cbn [String.length] in Hl; lia].
  unfold scaled_value. change (0 - 0) with 0. change (0 <=? 0) with true.
  cbn iota. change (10 ^ 0) with 1. rewrite Z.mul_1_r. reflexivity.
Qed.

Lemma Number_decimal_safe (s : string) :
  is_decimal s = true -> decimal_value s < 2 ^ 53 ->
  Number_ s = Fin (decimal_value s # 1).
Proof.
  intros H Hb. rewrite (Number_decimal s H). apply round_double_safe.
  split; [| exact Hb].
  unfold is_decimal in H. apply andb_prop in H.
  apply decimal_acc_nonneg; [apply H | lia].
Qed.

(** Splitting a tag *)

Lemma split_on_decimal (s : string) :
  all_chars is_digit s = true -> split_on "." s = [s].
Proof.
  induction s as [| c r IH]; [reflexivity |].
  cbn [all_chars]. intros H. apply andb_prop in H. destruct H as [Hc Hr].
  cbn [split_on]. replace (Ascii.eqb c ".") with false by (symmetry; not_digit Hc).
  rewrite (IH Hr). reflexivity.
Qed.

Lemma split_on_decimal_dot (s rest : string) :
  all_chars is_digit s = true ->
  split_on "." (s ++ String "." rest) = s :: split_on "." rest.
Proof.
  induction s as [| c r IH]; [reflexivity |].
  cbn [all_chars]. intros H. apply andb_prop in H. destruct H as [Hc Hr].
  cbn [append split_on]. replace (Ascii.eqb c ".") with false by (symmetry; not_digit Hc).
  rewrite (IH Hr). reflexivity.
Qed.

Lemma strip_leading_decimal (s rest : string) :
  is_decimal s = true -> strip_leading "v" (s ++ rest) = s ++ rest.
Proof.
  unfold is_decimal. intros H. apply andb_prop in H. destruct H as [Hne Hd].
  destruct s as [| c r]; [discriminate |].
  cbn [all_chars] in Hd. apply andb_prop in Hd. destruct Hd as [Hc _].
  cbn [append strip_leading].
  replace (Ascii.eqb c "v") with false by (symmetry; not_digit Hc). reflexivity.
Qed.

Lemma is_decimal_digits (s : string) : is_decimal s = true -> all_chars is_digit s = true.
Proof. unfold is_decimal. intros H. apply andb_prop in H. apply H. Qed.

Lemma versionParts_tag (prefixed : bool) (M m p : string) :
  is_decimal M = true -> is_decimal m = true -> is_decimal p = true ->
  versionParts (version_tag prefixed M m p) = [Number_ M; Number_ m; Number_ p].
Proof.
  intros HM Hm Hp. unfold versionParts, version_tag.
  assert (E : strip_leading "v" ((if prefixed then "v" else "") ++ M ++ "." ++ m ++ "." ++ p)
              = M ++ "." ++ m ++ "." ++ p).
  { destruct prefixed; [reflexivity |].
    apply (strip_leading_decimal M ("." ++ m ++ "." ++ p) HM). }
  cbn zeta. rewrite E. cbn [append].
  rewrite split_on_decimal_dot by (apply is_decimal_digits; exact HM).
  rewrite split_on_decimal_dot by (apply is_decimal_digits; exact Hm).
  rewrite split_on_decimal by (apply is_decimal_digits; exact Hp).
  reflexivity.
Qed.

Lemma truthy_or_zero (v : Z) :
  (if truthy_num (Fin (v # 1)) then Fin (v # 1) else jszero) = Fin (v # 1).
Proof.
  cbn [truthy_num Qnum]. destruct (Z.eqb_spec v 0) as [-> | _]; reflexivity.
Qed.

Lemma decimal_value_nonneg (s : string) : is_decimal s = true -> 0 <= decimal_value s.
Proof.
  intros H. apply decimal_acc_nonneg; [apply is_decimal_digits; exact H | lia].
Qed.

Section Bump.
Variables (prefixed : bool) (M m p : string).
Hypothesis HM : is_decimal M = true.
Hypothesis Hm : is_decimal m = true.
Hypothesis Hp : is_decimal p = true.
Hypothesis BM : decimal_value M < 2 ^ 53 - 1.
Hypothesis Bm : decimal_value m < 2 ^ 53 - 1.
Hypothesis Bp : decimal_value p < 2 ^ 53 - 1.

Let tag := version_tag prefixed M m p.

Lemma components_tag :
  component (versionParts tag) 0 = Fin (decimal_value M # 1) /\
  component (versionParts tag) 1 = Fin (decimal_value m # 1) /\
  component (versionParts tag) 2 = Fin (decimal_value p # 1).
Proof.
  unfold tag. rewrite versionParts_tag by assumption.
  unfold component. cbn [nth_error].
  rewrite !Number_decimal_safe by (assumption || lia).
  rewrite !truthy_or_zero. auto.
Qed.

Lemma bumpVersion_major :
  bumpVersion tag (Some "always-bump-major") = string_of_Z (decimal_value M + 1) ++ ".0.0".
Proof.
  unfold bumpVersion. cbn zeta. destruct components_tag as [E0 [E1 E2]].
  rewrite E0. change (strategy_is (Some "always-bump-major") "always-bump-major") with true.
  cbn iota. pose proof (decimal_value_nonneg M HM).
  rewrite jsadd_one_safe, ToString_safe by lia. reflexivity.
Qed.

Lemma bumpVersion_minor :
  bumpVersion tag (Some "always-bump-minor") =
  string_of_Z (decimal_value M) ++ "." ++ string_of_Z (decimal_value m + 1) ++ ".0".
Proof.
  unfold bumpVersion. cbn zeta. destruct components_tag as [E0 [E1 E2]].
  rewrite E0, E1.
  change (strategy_is (Some "always-bump-minor") "always-bump-major") with false.
  change (strategy_is (Some "always-bump-minor") "always-bump-minor") with true.
  cbn iota. pose proof (decimal_value_nonneg M HM). pose proof (decimal_value_nonneg m Hm).
  rewrite jsadd_one_safe, !ToString_safe by lia. reflexivity.
Qed.

Lemma bumpVersion_patch (strategy : option string) :
  strategy_is strategy "always-bump-major" = false ->
  strategy_is strategy "always-bump-minor" = false ->
  bumpVersion tag strategy =
  string_of_Z (decimal_value M) ++ "." ++ string_of_Z (decimal_value m) ++ "."
  ++ string_of_Z (decimal_value p + 1).
Proof.
  intros N1 N2. unfold bumpVersion. cbn zeta. destruct components_tag as [E0 [E1 E2]].
  rewrite E0, E1, E2, N1, N2.
  pose proof (decimal_value_nonneg M HM). pose proof (decimal_value_nonneg m Hm).
  pose proof (decimal_value_nonneg p Hp).
  rewrite jsadd_one_safe, !ToString_safe by lia. reflexivity.
Qed.
End Bump.

(** ** The output formatter *)

Lemma with_outputs_nil {S : Type} (r : Run S) : with_outputs r [] = r.
Proof. destruct r. unfold with_outputs. simpl. rewrite app_nil_r. reflexivity. Qed.

Lemma with_outputs_app {S : Type} (r : Run S) (l1 l2 : list (string * jsval)) :
  with_outputs (with_outputs r l1) l2 = with_outputs r (l1 ++ l2).
Proof. unfold with_outputs. simpl. rewrite app_assoc. reflexivity. Qed.

Lemma with_output_eq {S : Type} (r : Run S) (k : string) (v : jsval) :
  with_output r k v = with_outputs r [(k, v)].
Proof. reflexivity. Qed.

Lemma setPathOutput_eq {S : Type} (path key : string) (value : jsval) (r : Run S) :
  setPathOutput path key value r = (with_outputs r [(output_name path key, value)], Ok tt).
Proof.
  unfold setPathOutput, output_name. destruct (String.eqb path "."); reflexivity.
Qed.

Lemma output_entries_eq {S : Type} (path : string) (es : list (string * option jsval)) :
  forall r : Run S,
    output_entries path es r =
    (with_outputs r (published (fun k => output_name path (output_key k)) es), Ok tt).
Proof.
  induction es as [| [k v] es IH]; intros r.
  - simpl. rewrite with_outputs_nil. reflexivity.
  - cbn [output_entries]. unfold bind. destruct v as [v |].
    + rewrite setPathOutput_eq, IH, with_outputs_app. reflexivity.
    + unfold ret. rewrite IH. reflexivity.
Qed.

Lemma published_entries (path : string) (release : Release) :
  published (fun k => output_name path (output_key k)) (entries release) =
  published (output_name path) (external_fields release).
Proof. reflexivity. Qed.

Lemma outputReleases_one {S : Type} (release : Release) (r : Run S) :
  outputReleases [Some release] r =
  (with_outputs r (release_outputs (or_else (rel_path release) ".") release), Ok tt).
Proof.
  unfold outputReleases. cbn [defined flat_map app List.length Nat.eqb negb Z.of_nat].
  unfold bind at 1. unfold core_setOutput at 1. rewrite with_output_eq.
  change (0 <? Z.pos (Pos.of_succ_nat 0)) with true.
  unfold bind at 1. cbn [output_each].
  set (path := or_else (rel_path release) ".").
  assert (Hp : String.eqb path "" = false).
  { subst path. unfold or_else. destruct (String.eqb (rel_path release) "") eqn:E;
      [reflexivity | exact E]. }
  rewrite Hp. cbn [negb]. unfold bind at 1. unfold bind at 1.
  rewrite setPathOutput_eq. unfold ret at 1. unfold bind at 1.
  rewrite output_entries_eq, published_entries. unfold ret at 1.
  unfold core_setOutput. rewrite with_output_eq, !with_outputs_app.
  reflexivity.
Qed.

Lemma outputReleases_none {S : Type} (r : Run S) :
  outputReleases [] r =
  (with_outputs r [("releases_created", VBool false); ("paths_released", VJsonPaths [])], Ok tt).
Proof.
  unfold outputReleases, bind, core_setOutput, with_output, with_outputs, ret. simpl.
  rewrite <- app_assoc. reflexivity.
Qed.

Lemma outputPRs_one {S : Type} (pr : PullRequest) (r : Run S) :
  outputPRs [Some pr] r = (with_outputs r (pr_outputs pr), Ok tt).
Proof.
  unfold outputPRs, pr_outputs, bind, core_setOutput, with_output, with_outputs. simpl.
  rewrite <- !app_assoc. reflexivity.
Qed.

Lemma outputPRs_none {S : Type} (r : Run S) :
  outputPRs [] r = (with_outputs r [("prs_created", VBool false)], Ok tt).
Proof. reflexivity. Qed.

(** ** Footprints of the two branches *)

Ltac unfold_action :=
  unfold releaseBranch, pullRequestBranch, nextVersion, determineNextVersion,
    generateChangelog, createRelease, createPullRequest, getLatestRelease,
    listCommits, getBranch, createRef, request, try_catch, bind, ret, throw, lift,
    core_info, core_warning, core_error, emit, core_setFailed.

Ltac reduce_action :=
  cbn [fst snd host_state outputs log calls failed answered logged with_outputs
       with_output marked_failed].

Ltac host_step :=
  match goal with
  | |- context [repos_getLatestRelease ?h ?s] =>
      destruct (repos_getLatestRelease h s) as [? [? | ?]]
  | |- context [repos_getBranch ?h ?s ?b] =>
      destruct (repos_getBranch h s b) as [? [? | ?]]
  | |- context [repos_listCommits ?h ?s ?a ?n] =>
      destruct (repos_listCommits h s a n) as [? [? | ?]]
  | |- context [repos_createRelease ?h ?s ?a ?b ?c ?d ?e] =>
      destruct (repos_createRelease h s a b c d e) as [? [? | ?]]
  | |- context [git_createRef ?h ?s ?a ?b] =>
      destruct (git_createRef h s a b) as [? [? | ?]]
  | |- context [pulls_create ?h ?s ?a ?b ?c ?d] =>
      destruct (pulls_create h s a b c d) as [? [? | ?]]
  | |- context [issues_addLabels ?h ?s ?a ?b] =>
      destruct (issues_addLabels h s a b) as [? [? | ?]]
  end; reduce_action.

Ltac solve_app :=
  first [ reflexivity
        | symmetry; apply app_nil_r
        | repeat rewrite <- app_assoc; reflexivity ].

Lemma or_else_effective_path (inputs : ActionInputs) :
  or_else (effective_path inputs) "." = effective_path inputs.
Proof.
  unfold effective_path. destruct (path inputs) as [p |]; [| reflexivity].
  unfold or_else. destruct (String.eqb p "") eqn:E; [reflexivity |].
  rewrite E. reflexivity.
Qed.

Ltac solve_forall :=
  repeat first [ apply Forall_nil
               | apply Forall_cons
               | apply Forall_app; split ];
  cbn [release_call pull_call];
  repeat split; try reflexivity; try exact I.

Ltac solve_failure :=
  unfold failure_log;
  first [ reflexivity
        | eexists; split; [left; reflexivity | reflexivity]
        | eexists; split; [right; left; reflexivity | reflexivity]
        | eexists; split; [right; right; left; reflexivity | reflexivity] ].

Ltac solve_log :=
  first [ solve_failure
        | eexists; split; [| left; reflexivity]; solve_failure
        | eexists; split; [| right; eexists; reflexivity]; solve_failure ].

Ltac splits := repeat match goal with |- _ /\ _ => split end.

Ltac leaf H :=
  injection H as <- <-; reduce_action;
  eexists; eexists; eexists;
  splits; try solve_app; try solve_forall;
  try (unfold lookups; simpl; lia);
  try (unfold release_log, pull_log; solve_log).

Lemma releaseBranch_footprint {S : Type} (host : Host S) (inputs : ActionInputs) (r r' : Run S)
  (res : outcome unit) :
  releaseBranch host inputs r = (r', res) ->
  exists version lo ll lc,
    outputs r' = (outputs r ++ lo)%list /\
    log r' = (log r ++ Info "Creating release" :: ll)%list /\
    calls r' = (calls r ++ lc)%list /\
    failed r' = failed r /\
    Forall (release_call inputs version) lc /\
    release_log res ll /\
    (lookups lc <= if truthy_str (releaseAs inputs) then 1 else 2)%nat /\
    match res with
    | Ok _ => exists release,
        lo = release_outputs (effective_path inputs) release /\
        rel_tagName release = tagName inputs version /\
        rel_path release = effective_path inputs /\
        rel_version release = Some version
    | Throw _ => lo = []
    end /\
    resolved inputs version.
Proof.
  unfold_action. reduce_action. unfold resolved.
  destruct (truthy_str (releaseAs inputs)) eqn:Eo.
  - destruct (releaseAs inputs) as [v |] eqn:Er; [| discriminate].
    repeat host_step.
    all: try (rewrite outputReleases_one; cbn [rel_path]; rewrite or_else_effective_path).
    all: intros H; exists v; leaf H.
    all: eexists; splits; reflexivity.
  - repeat host_step.
    all: try (rewrite outputReleases_one; cbn [rel_path]; rewrite or_else_effective_path).
    all: intros H; eexists; leaf H.
    all: try (eexists; splits; reflexivity).
    all: first [left; reflexivity | right; eexists; reflexivity].
Qed.

Ltac reduce_pull := cbn [has_labels pr_labels pr_title pr_body pr_headBranchName pr_baseBranchName].

Lemma pullRequestBranch_footprint {S : Type} (host : Host S) (inputs : ActionInputs)
  (r r' : Run S) (res : outcome unit) :
  pullRequestBranch host inputs r = (r', res) ->
  exists version lo ll lc,
    outputs r' = (outputs r ++ lo)%list /\
    log r' = (log r ++ Info "Creating pull request" :: ll)%list /\
    calls r' = (calls r ++ lc)%list /\
    failed r' = failed r /\
    Forall (pull_call inputs version) lc /\
    pull_log inputs version res ll /\
    (lookups lc <= if truthy_str (releaseAs inputs) then 0 else 1)%nat /\
    match res with
    | Ok _ => exists pr,
        lo = pr_outputs pr /\
        pr_title pr = "chore: release " ++ version /\
        pr_headBranchName pr = releaseBranchName inputs version /\
        pr_baseBranchName pr = targetBranch inputs
    | Throw _ => lo = []
    end /\
    resolved inputs version.
Proof.
  unfold_action. reduce_action. unfold resolved.
  destruct (truthy_flag (skipLabeling inputs)); reduce_pull.
  all: destruct (truthy_str (releaseAs inputs)) eqn:Eo.
  all: try (destruct (releaseAs inputs) as [v |] eqn:Er; [| discriminate]).
  all: repeat (host_step; reduce_pull).
  all: try rewrite outputPRs_one.
  all: intros H.
  all: try (exists v; leaf H; eexists; splits; reflexivity).
  all: eexists; leaf H.
  all: try (eexists; splits; reflexivity).
  all: first [left; reflexivity | right; eexists; reflexivity].
Qed.

(** ** The embedding at work *)

Example Number_samples :
  map (fun s => ToString (Number_ s))
      ["12"; " 42 "; "x"; ""; "1e3"; "0x1F"; "-7"; "1e21"; "1e-7"; "9007199254740993"]
  = ["12"; "42"; "NaN"; "0"; "1000"; "31"; "-7"; "1e+21"; "1e-7"; "9007199254740992"].
Proof. vm_compute. reflexivity. Qed.

Example bumpVersion_samples :
  map (fun t => bumpVersion t (Some "always-bump-patch"))
      ["v1.2.3"; "1.2"; ""; "v1.2.3-beta"; "1.2.3.4"; "V1.2.3"]
  = ["1.2.4"; "1.2.1"; "0.0.1"; "1.2.1"; "1.2.4"; "0.2.4"].
Proof. vm_compute. reflexivity. Qed.

Example main_scenario_requests :
  map (fun c => match c with
                | CreateRelease tag name _ _ _ => tag ++ " / " ++ name
                | CreatePull title _ head base => title ++ " / " ++ head ++ " / " ++ base
                | GetLatestRelease => "latest release"
                | GetBranch b => "branch " ++ b
                | ListCommits _ _ => "commits"
                | CreateRef ref _ => ref
                | AddLabels _ _ => "labels"
                end)
      (calls (fst (main scenario_host plain_env (start tt))))
  = [ "latest release"; "branch main"; "latest release"; "commits";
      "v1.2.4 / Release 1.2.4";
      "latest release"; "branch main"; "refs/heads/release-please--main--1.2.4";
      "chore: release 1.2.4 / release-please--main--1.2.4 / main"; "labels" ].
Proof. vm_compute. reflexivity. Qed.

(** ** The top level *)

Lemma main_parse_failure {S : Type} (host : Host S) (env : string -> string) (r : Run S)
  (e : JsError) :
  parseInputs env = Throw e ->
  main host env r = (marked_failed r (failure_message e), Ok tt).
Proof.
  intros H. unfold main, try_catch, bind, lift. rewrite H. reflexivity.
Qed.

Lemma main_eq {S : Type} (host : Host S) (env : string -> string) (inputs : ActionInputs)
  (r : Run S) :
  parseInputs env = Ok inputs ->
  main host env r =
  let r0 := logged r (Info "Starting Gitea release-please process") in
  match (if negb (truthy_flag (skipGiteaRelease inputs))
         then releaseBranch host inputs r0 else (r0, Ok tt)) with
  | (r1, Throw e) => (marked_failed r1 (failure_message e), Ok tt)
  | (r1, Ok _) =>
      match (if negb (truthy_flag (skipGiteaPullRequest inputs))
             then pullRequestBranch host inputs r1 else (r1, Ok tt)) with
      | (r2, Throw e) => (marked_failed r2 (failure_message e), Ok tt)
      | (r2, Ok _) =>
          (logged r2 (Info "Release-please process completed successfully"), Ok tt)
      end
  end.
Proof.
  intros H. unfold main, try_catch, bind, lift. rewrite H.
  unfold core_info, emit, core_setFailed, ret, failure_message. cbn zeta.
  destruct (negb (truthy_flag (skipGiteaRelease inputs))).
  - destruct (releaseBranch host inputs _) as [r1 [[] | e]]; [| reflexivity].
    destruct (negb (truthy_flag (skipGiteaPullRequest inputs))).
    + destruct (pullRequestBranch host inputs r1) as [r2 [[] | e]]; reflexivity.
    + reflexivity.
  - destruct (negb (truthy_flag (skipGiteaPullRequest inputs))).
    + destruct (pullRequestBranch host inputs _) as [r2 [[] | e]]; reflexivity.
    + reflexivity.
Qed.

Lemma getOptionalInput_eq (env : string -> string) (name : string) :
  getOptionalInput env name = Ok (nonempty (trim (env name))).
Proof. reflexivity. Qed.

Lemma parseInputs_fields (env : string -> string) (inputs : ActionInputs) :
  parseInputs env = Ok inputs ->
  getOptionalBooleanInput env "skip-gitea-release" = Ok (skipGiteaRelease inputs) /\
  getOptionalBooleanInput env "skip-gitea-pull-request" = Ok (skipGiteaPullRequest inputs) /\
  getOptionalBooleanInput env "include-component-in-tag" = Ok (includeComponentInTag inputs) /\
  path inputs = nonempty (trim (env "path")) /\
  releaseAs inputs = nonempty (trim (env "release-as")) /\
  versioningStrategy inputs = nonempty (trim (env "versioning-strategy")).
Proof.
  unfold parseInputs. rewrite !getOptionalInput_eq.
  destruct (core_getInput env "token" true); [| discriminate].
  destruct (core_getInput env "repo-url" false); [| discriminate].
  destruct (core_getInput env "config-file" false); [| discriminate].
  destruct (core_getInput env "manifest-file" false); [| discriminate].
  destruct (core_getInput env "gitea-api-url" true); [| discriminate].
  destruct (getOptionalBooleanInput env "skip-gitea-release"); [| discriminate].
  destruct (getOptionalBooleanInput env "skip-gitea-pull-request"); [| discriminate].
  destruct (getOptionalBooleanInput env "skip-labeling"); [| discriminate].
  destruct (getOptionalBooleanInput env "include-component-in-tag"); [| discriminate].
  destruct (core_getInput env "changelog-host" false); [| discriminate].
  destruct (core_getInput env "gitea-owner" true); [| discriminate].
  destruct (core_getInput env "gitea-repo" true); [| discriminate].
  cbn [obind]. intros H. injection H as <-. cbn. auto 10.
Qed.

Lemma nonempty_some (s v : string) : nonempty s = Some v -> v <> "" /\ s = v.
Proof.
  unfold nonempty. destruct (String.eqb s "") eqn:E; [discriminate |].
  intros H. injection H as <-. split; [| reflexivity].
  apply String.eqb_neq. exact E.
Qed.

(** ** Version resolver *)

Lemma determineNextVersion_eq {S : Type} (host : Host S) (strategy : option string)
  (r : Run S) :
  determineNextVersion host strategy r =
  (answered r (fst (repos_getLatestRelease host (host_state r))) GetLatestRelease,
   Ok match snd (repos_getLatestRelease host (host_state r)) with
      | Ok tag_name => bumpVersion tag_name strategy
      | Throw _ => "1.0.0"
      end).
Proof.
  unfold determineNextVersion, getLatestRelease, try_catch, bind, request, ret.
  destruct (repos_getLatestRelease host (host_state r)) as [s' [tag | e]]; reflexivity.
Qed.

Lemma strategy_is_other (s label : string) : s <> label -> strategy_is (Some s) label = false.
Proof. intros H. cbn [strategy_is]. apply String.eqb_neq. exact H. Qed.

(** C1 (as amended). When the latest release tag is [v]major.minor.patch with
    decimal components that stay safe integers after the bump (below
    2^53 - 1), [determineNextVersion] returns (major+1).0.0 under
    always-bump-major, major.(minor+1).0 under always-bump-minor and
    major.minor.(patch+1) under always-bump-patch, under an absent strategy
    and under any other strategy string; and when the lookup finds no
    release it returns 1.0.0 whatever the strategy. *)
Theorem determineNextVersion_bump {S : Type} (host : Host S) (r : Run S)
  (strategy : option string) (prefixed : bool) (M m p : string) :
  is_decimal M = true -> is_decimal m = true -> is_decimal p = true ->
  decimal_value M < 2 ^ 53 - 1 ->
  decimal_value m < 2 ^ 53 - 1 ->
  decimal_value p < 2 ^ 53 - 1 ->
  (snd (repos_getLatestRelease host (host_state r)) = Ok (version_tag prefixed M m p) ->
   (strategy = Some "always-bump-major" ->
    snd (determineNextVersion host strategy r) =
    Ok (string_of_Z (decimal_value M + 1) ++ ".0.0")) /\
   (strategy = Some "always-bump-minor" ->
    snd (determineNextVersion host strategy r) =
    Ok (string_of_Z (decimal_value M) ++ "." ++ string_of_Z (decimal_value m + 1) ++ ".0")) /\
   (strategy = Some "always-bump-patch" \/ strategy = None \/
    (exists s, strategy = Some s /\ s <> "always-bump-major" /\ s <> "always-bump-minor") ->
    snd (determineNextVersion host strategy r) =
    Ok (string_of_Z (decimal_value M) ++ "." ++ string_of_Z (decimal_value m) ++ "."
        ++ string_of_Z (decimal_value p + 1)))) /\
  (forall e, snd (repos_getLatestRelease host (host_state r)) = Throw e ->
             snd (determineNextVersion host strategy r) = Ok "1.0.0").
Proof.
  intros HM Hm Hp BM Bm Bp. rewrite determineNextVersion_eq. cbn [snd]. split.
  - intros ->. repeat split.
    + intros ->. f_equal. apply bumpVersion_major; assumption.
    + intros ->. f_equal. apply bumpVersion_minor; assumption.
    + intros Hs. f_equal. apply bumpVersion_patch; try assumption.
      * destruct Hs as [-> | [-> | [s [-> [N1 N2]]]]];
          [reflexivity | reflexivity | apply strategy_is_other; exact N1].
      * destruct Hs as [-> | [-> | [s [-> [N1 N2]]]]];
          [reflexivity | reflexivity | apply strategy_is_other; exact N2].
  - intros e ->. reflexivity.
Qed.

Lemma determineNextVersion_bump_witness :
  snd (determineNextVersion (fixed_host (healthy (Ok "v1.2.3"))) (Some "always-bump-minor")
         (start tt)) = Ok "1.3.0".
Proof.
  apply (determineNextVersion_bump (fixed_host (healthy (Ok "v1.2.3"))) (start tt)
           (Some "always-bump-minor") true "1" "2" "3");
    try reflexivity.
Defined.

(** C1 as stated fails once a component leaves the safe integers: for the
    tag 9007199254740992.0.0 (major = 2^53) the major bump returns the same
    version, since 2^53 + 1 is not a binary64 number. *)
Lemma determineNextVersion_bump_counterexample :
  is_decimal "9007199254740992" = true /\
  snd (determineNextVersion (fixed_host (healthy (Ok "9007199254740992.0.0")))
         (Some "always-bump-major") (start tt))
  <> Ok (string_of_Z (decimal_value "9007199254740992" + 1) ++ ".0.0").
Proof.
  split; [reflexivity |]. vm_compute. discriminate.
Qed.

Lemma component_default (parts : list jsnum) (i : nat) :
  nth_error parts i = None \/ nth_error parts i = Some NaN ->
  component parts i = jszero.
Proof.
  unfold component. intros [-> | ->]; reflexivity.
Qed.

(** C7. [determineNextVersion] returns a version for every answer of the
    host, whatever the latest tag is; a component of the tag (after the
    optional leading v is dropped and the rest is split on dots) that is
    missing or that [Number] does not read as a number counts as 0, so
    that a tag without any usable component gives 1.0.0, 0.1.0 or 0.0.1
    according to the strategy; and the tag v2.x under always-bump-patch
    gives 2.0.1. *)
Theorem determineNextVersion_total {S : Type} (host : Host S) (r : Run S)
  (strategy : option string) :
  (exists version, snd (determineNextVersion host strategy r) = Ok version) /\
  (forall tag_name,
      snd (repos_getLatestRelease host (host_state r)) = Ok tag_name ->
      snd (determineNextVersion host strategy r) = Ok (bumpVersion tag_name strategy)) /\
  (forall tag_name i,
      let parts := split_on "." (strip_leading "v" tag_name) in
      nth_error parts i = None \/
      (exists part, nth_error parts i = Some part /\ Number_ part = NaN) ->
      component (versionParts tag_name) i = jszero) /\
  (forall tag_name,
      component (versionParts tag_name) 0 = jszero ->
      component (versionParts tag_name) 1 = jszero ->
      component (versionParts tag_name) 2 = jszero ->
      bumpVersion tag_name (Some "always-bump-major") = "1.0.0" /\
      bumpVersion tag_name (Some "always-bump-minor") = "0.1.0" /\
      bumpVersion tag_name (Some "always-bump-patch") = "0.0.1") /\
  bumpVersion "v2.x" (Some "always-bump-patch") = "2.0.1" /\
  snd (determineNextVersion (fixed_host (healthy (Ok "v2.x"))) (Some "always-bump-patch")
         (start tt)) = Ok "2.0.1".
Proof.
  rewrite determineNextVersion_eq. cbn [snd]. splits.
  - eexists. reflexivity.
  - intros tag_name ->. reflexivity.
  - intros tag_name i. cbn zeta. intros H. apply component_default.
    unfold versionParts. rewrite nth_error_map.
    destruct H as [-> | [part [-> E]]]; [left; reflexivity | right].
    cbn [option_map]. rewrite E. reflexivity.
  - intros tag_name H0 H1 H2. unfold bumpVersion. cbn zeta.
    rewrite H0, H1, H2. splits; reflexivity.
  - reflexivity.
  - reflexivity.
Qed.

(** ** Changelog generator *)

Lemma changelog_loop_all (commits : list Commit) : forall changelog : string,
  changelog_loop None commits changelog = changelog ++ join (map changelog_line commits).
Proof.
  induction commits as [| c rest IH]; intros changelog.
  - simpl. rewrite append_nil_r. reflexivity.
  - cbn [changelog_loop truthy_str andb map join]. rewrite IH, append_assoc. reflexivity.
Qed.

Lemma changelog_loop_stop (stop : string) (commits : list Commit) :
  stop <> "" ->
  forall (n : nat) (c : Commit) (changelog : string),
    nth_error commits n = Some c ->
    commit_sha c = stop ->
    (forall j c', (j < n)%nat -> nth_error commits j = Some c' -> commit_sha c' <> stop) ->
    changelog_loop (Some stop) commits changelog =
    changelog ++ join (map changelog_line (firstn n commits)).
Proof.
  intros Hne. apply String.eqb_neq in Hne.
  induction commits as [| c0 rest IH]; intros n c changelog Hn Hc Hfirst.
  - destruct n; discriminate.
  - cbn [changelog_loop truthy_str]. rewrite Hne. cbn [negb andb].
    destruct n as [| n].
    + cbn [nth_error] in Hn. injection Hn as ->.
      rewrite Hc, String.eqb_refl. simpl. rewrite append_nil_r. reflexivity.
    + cbn [nth_error] in Hn.
      assert (H0 : commit_sha c0 <> stop) by (apply (Hfirst 0%nat); [lia | reflexivity]).
      apply String.eqb_neq in H0. rewrite H0.
      rewrite (IH n c); try assumption.
      * cbn [firstn map join]. rewrite append_assoc. reflexivity.
      * intros j c' Hj Hj'. apply (Hfirst (Datatypes.S j)); [lia | exact Hj'].
Qed.

Lemma changelog_loop_prefix (fromTag : option string) (commits : list Commit) :
  forall changelog : string,
    exists k : nat,
      changelog_loop fromTag commits changelog =
      changelog ++ join (map changelog_line (firstn k commits)).
Proof.
  induction commits as [| c rest IH]; intros changelog.
  - exists 0%nat. simpl. rewrite append_nil_r. reflexivity.
  - cbn [changelog_loop].
    destruct (truthy_str fromTag && _).
    + exists 0%nat. simpl. rewrite append_nil_r. reflexivity.
    + destruct (IH (changelog ++ changelog_line c)) as [k E].
      exists (Datatypes.S k). rewrite E. cbn [firstn map join].
      rewrite append_assoc. reflexivity.
Qed.

Lemma generateChangelog_eq {S : Type} (host : Host S) (fromTag : option string)
  (toSha : string) (r : Run S) (commits : list Commit) :
  snd (repos_listCommits host (host_state r) (Some toSha) 100) = Ok commits ->
  snd (generateChangelog host fromTag toSha r) =
  Ok (changelog_loop fromTag commits ("## Changes" ++ newline ++ newline)).
Proof.
  unfold generateChangelog, listCommits, try_catch, bind, request, ret.
  destruct (repos_listCommits host (host_state r) (Some toSha) 100) as [s' [cs | e]];
    cbn [snd]; intros H; [injection H as -> | discriminate].
  reflexivity.
Qed.

Lemma first_line_prefix (message : string) :
  exists rest,
    message = first_line message ++ rest /\
    (rest = "" \/ exists tail, rest = newline ++ tail) /\
    all_chars (fun c => negb (Ascii.eqb c (ascii_of_nat 10))) (first_line message) = true.
Proof.
  unfold first_line. induction message as [| c r IH].
  - exists "". simpl. auto.
  - cbn [split_on]. destruct (Ascii.eqb c (ascii_of_nat 10)) eqn:E.
    + apply Ascii.eqb_eq in E. subst c. exists (String (ascii_of_nat 10) r).
      cbn [hd append all_chars]. splits; [reflexivity | right; exists r; reflexivity | reflexivity].
    + destruct IH as [rest [E1 [E2 E3]]].
      destruct (split_on (ascii_of_nat 10) r) as [| h t] eqn:Es.
      * exists r. cbn [hd] in *. cbn [append all_chars]. rewrite E.
        simpl in E1. subst rest. splits; [reflexivity | exact E2 | reflexivity].
      * cbn [hd] in *. exists rest. cbn [append all_chars]. rewrite E, E3.
        splits; [f_equal; exact E1 | exact E2 | reflexivity].
Qed.

Lemma substring0_prefix (n : nat) (s : string) :
  exists rest, s = substring0 n s ++ rest /\
               String.length (substring0 n s) = Nat.min n (String.length s).
Proof.
  revert s. induction n as [| n IH]; intros s.
  - exists s. split; reflexivity.
  - destruct s as [| c r].
    + exists "". split; reflexivity.
    + destruct (IH r) as [rest [E1 E2]]. exists rest.
      cbn [substring0 append String.length Nat.min]. rewrite <- E1, E2. auto.
Qed.

(** C2. Over the commit page the host returns (newest first),
    [generateChangelog] produces the heading "## Changes", a blank line, and
    one bullet line per emitted commit: the first line of the commit message,
    then the first seven characters of the identifier in parentheses. The
    emitted commits are a leading part of the page: the whole page when the
    stop reference is null, and exactly the commits before the N-th one when
    the stop reference is the identifier of the N-th commit (a non-empty
    identifier that no earlier commit carries), that commit excluded. *)
Theorem generateChangelog_lines {S : Type} (host : Host S) (r : Run S) (toSha : string)
  (commits : list Commit) :
  snd (repos_listCommits host (host_state r) (Some toSha) 100) = Ok commits ->
  let heading := "## Changes" ++ newline ++ newline in
  (forall fromTag, exists k,
      snd (generateChangelog host fromTag toSha r) =
      Ok (heading ++ join (map changelog_line (firstn k commits)))) /\
  snd (generateChangelog host None toSha r) =
  Ok (heading ++ join (map changelog_line commits)) /\
  (forall (n : nat) (c : Commit),
      nth_error commits n = Some c ->
      commit_sha c <> "" ->
      (forall j c', (j < n)%nat -> nth_error commits j = Some c' ->
                    commit_sha c' <> commit_sha c) ->
      snd (generateChangelog host (Some (commit_sha c)) toSha r) =
      Ok (heading ++ join (map changelog_line (firstn n commits)))) /\
  (forall c, exists subject abbreviated rest_of_message rest_of_sha,
      changelog_line c = "* " ++ subject ++ " (" ++ abbreviated ++ ")" ++ newline /\
      commit_message c = subject ++ rest_of_message /\
      (rest_of_message = "" \/ exists tail, rest_of_message = newline ++ tail) /\
      all_chars (fun ch => negb (Ascii.eqb ch (ascii_of_nat 10))) subject = true /\
      commit_sha c = abbreviated ++ rest_of_sha /\
      String.length abbreviated = Nat.min 7 (String.length (commit_sha c))).
Proof.
  intros H heading. splits.
  - intros fromTag. rewrite (generateChangelog_eq host fromTag toSha r commits H).
    destruct (changelog_loop_prefix fromTag commits heading) as [k E].
    exists k. rewrite <- E. reflexivity.
  - rewrite (generateChangelog_eq host None toSha r commits H).
    rewrite changelog_loop_all. reflexivity.
  - intros n c Hn Hne Hfirst.
    rewrite (generateChangelog_eq host _ toSha r commits H).
    rewrite (changelog_loop_stop (commit_sha c) commits Hne n c); auto.
  - intros c. destruct (first_line_prefix (commit_message c)) as [rm [E1 [E2 E3]]].
    destruct (substring0_prefix 7 (commit_sha c)) as [rs [E4 E5]].
    exists (first_line (commit_message c)), (substring0 7 (commit_sha c)), rm, rs.
    splits; try assumption. reflexivity.
Qed.

Lemma generateChangelog_lines_witness :
  snd (generateChangelog (fixed_host (healthy (Ok "v1.2.3")))
         (Some "0a1b2c3d4e5f60718293a4b5c6d7e8f901234567") "head" (start tt)) =
  Ok ("## Changes" ++ newline ++ newline
      ++ "* feat: add widget (3f2a9c1)" ++ newline
      ++ "* fix: handle empty list (9b8c7d6)" ++ newline).
Proof.
  pose proof (generateChangelog_lines (fixed_host (healthy (Ok "v1.2.3"))) (start tt)
                "head" sample_commits eq_refl) as H.
  cbn zeta in H. destruct H as [_ [_ [H _]]].
  apply (H 2%nat {| commit_sha := "0a1b2c3d4e5f60718293a4b5c6d7e8f901234567";
                    commit_message := "chore: release 1.2.3" |}).
  - reflexivity.
  - discriminate.
  - intros j c' Hj Hc'.
    destruct j as [| [| j]]; [| | lia]; injection Hc' as <-; discriminate.
Defined.

(** ** What one invocation publishes and requests *)

Lemma resolved_exists (inputs : ActionInputs) : exists version, resolved inputs version.
Proof.
  unfold resolved. destruct (truthy_str (releaseAs inputs)) eqn:E.
  - destruct (releaseAs inputs) as [v |]; [exists v; reflexivity | discriminate].
  - exists "1.0.0". left. reflexivity.
Qed.

Lemma truthy_flag_false (b : option bool) : truthy_flag b = false <-> b <> Some true.
Proof.
  destruct b as [[|] |]; simpl; split; intros H; try discriminate; try reflexivity.
  exfalso. apply H. reflexivity.
Qed.

Lemma main_footprint {S : Type} (host : Host S) (env : string -> string)
  (inputs : ActionInputs) (r : Run S) :
  parseInputs env = Ok inputs ->
  exists v1 v2 lo1 lo2 lc1 lc2,
    outputs (fst (main host env r)) = (outputs r ++ lo1 ++ lo2)%list /\
    calls (fst (main host env r)) = (calls r ++ lc1 ++ lc2)%list /\
    (lo1 = [] \/
     exists release,
       skipGiteaRelease inputs <> Some true /\
       lo1 = release_outputs (effective_path inputs) release /\
       rel_tagName release = tagName inputs v1 /\
       rel_path release = effective_path inputs /\
       rel_version release = Some v1) /\
    (lo2 = [] \/
     exists pr,
       skipGiteaPullRequest inputs <> Some true /\
       lo2 = pr_outputs pr /\
       pr_title pr = "chore: release " ++ v2 /\
       pr_headBranchName pr = releaseBranchName inputs v2 /\
       pr_baseBranchName pr = targetBranch inputs) /\
    Forall (release_call inputs v1) lc1 /\
    Forall (pull_call inputs v2) lc2 /\
    (skipGiteaRelease inputs = Some true -> lc1 = [] /\ lo1 = []) /\
    (skipGiteaPullRequest inputs = Some true -> lc2 = [] /\ lo2 = []) /\
    (lookups lc1 <= if truthy_str (releaseAs inputs) then 1 else 2)%nat /\
    (lookups lc2 <= if truthy_str (releaseAs inputs) then 0 else 1)%nat /\
    resolved inputs v1 /\ resolved inputs v2.
Proof.
  intros Hp. rewrite (main_eq host env inputs r Hp). cbn zeta.
  destruct (resolved_exists inputs) as [v0 Hv0].
  set (r0 := logged r (Info "Starting Gitea release-please process")).
  destruct (truthy_flag (skipGiteaRelease inputs)) eqn:G1; cbn [negb];
    destruct (truthy_flag (skipGiteaPullRequest inputs)) eqn:G2; cbn [negb].
  - exists v0, v0, [], [], [], []. cbn [fst outputs calls logged app].
    rewrite !app_nil_r. splits; auto; try (unfold lookups; simpl; destruct (truthy_str _); lia).
  - destruct (pullRequestBranch host inputs r0) as [r2 res2] eqn:E2.
    destruct (pullRequestBranch_footprint host inputs r0 r2 res2 E2)
      as [v2 [lo [ll [lc [Ho [Hl [Hc [Hf [Fc [Fl [Lk [Hres Hv]]]]]]]]]]]].
    apply truthy_flag_false in G2.
    exists v0, v2, [], lo, [], lc.
    assert (Eo : outputs (fst (match res2 with
                               | Ok _ => (logged r2 (Info "Release-please process completed successfully"), Ok tt)
                               | Throw e => (marked_failed r2 (failure_message e), Ok tt)
                               end)) = outputs r2) by (destruct res2; reflexivity).
    assert (Ec : calls (fst (match res2 with
                             | Ok _ => (logged r2 (Info "Release-please process completed successfully"), Ok tt)
                             | Throw e => (marked_failed r2 (failure_message e), Ok tt)
                             end)) = calls r2) by (destruct res2; reflexivity).
    rewrite Eo, Ec, Ho, Hc. cbn [app outputs calls r0 logged].
    splits; auto; try (intros; congruence); try (unfold lookups; simpl; destruct (truthy_str _); lia).
    destruct res2; [right | left; exact Hres].
    destruct Hres as [pr Hpr]. exists pr. tauto.
  - destruct (releaseBranch host inputs r0) as [r1 res1] eqn:E1.
    destruct (releaseBranch_footprint host inputs r0 r1 res1 E1)
      as [v1 [lo [ll [lc [Ho [Hl [Hc [Hf [Fc [Fl [Lk [Hres Hv]]]]]]]]]]]].
    apply truthy_flag_false in G1.
    exists v1, v0, lo, [], lc, [].
    assert (Eo : outputs (fst (match res1 with
                               | Ok _ => (logged r1 (Info "Release-please process completed successfully"), Ok tt)
                               | Throw e => (marked_failed r1 (failure_message e), Ok tt)
                               end)) = outputs r1) by (destruct res1; reflexivity).
    assert (Ec : calls (fst (match res1 with
                             | Ok _ => (logged r1 (Info "Release-please process completed successfully"), Ok tt)
                             | Throw e => (marked_failed r1 (failure_message e), Ok tt)
                             end)) = calls r1) by (destruct res1; reflexivity).
    rewrite Eo, Ec, Ho, Hc. cbn [app outputs calls r0 logged]. rewrite !app_nil_r.
    splits; auto; try (intros; congruence); try (unfold lookups; simpl; destruct (truthy_str _); lia).
    destruct res1; [right | left; exact Hres].
    destruct Hres as [release Hrel]. exists release. tauto.
  - destruct (releaseBranch host inputs r0) as [r1 res1] eqn:E1.
    destruct (releaseBranch_footprint host inputs r0 r1 res1 E1)
      as [v1 [lo [ll [lc [Ho [Hl [Hc [Hf [Fc [Fl [Lk [Hres Hv]]]]]]]]]]]].
    apply truthy_flag_false in G1. apply truthy_flag_false in G2.
    destruct res1 as [[] | e1].
    + destruct (pullRequestBranch host inputs r1) as [r2 res2] eqn:E2.
      destruct (pullRequestBranch_footprint host inputs r1 r2 res2 E2)
        as [v2 [lo' [ll' [lc' [Ho' [Hl' [Hc' [Hf' [Fc' [Fl' [Lk' [Hres' Hv']]]]]]]]]]]].
      exists v1, v2, lo, lo', lc, lc'.
      assert (Eo : outputs (fst (match res2 with
                                 | Ok _ => (logged r2 (Info "Release-please process completed successfully"), Ok tt)
                                 | Throw e => (marked_failed r2 (failure_message e), Ok tt)
                                 end)) = outputs r2) by (destruct res2; reflexivity).
      assert (Ec : calls (fst (match res2 with
                               | Ok _ => (logged r2 (Info "Release-please process completed successfully"), Ok tt)
                               | Throw e => (marked_failed r2 (failure_message e), Ok tt)
                               end)) = calls r2) by (destruct res2; reflexivity).
      rewrite Eo, Ec, Ho', Hc', Ho, Hc. cbn [app outputs calls r0 logged].
      rewrite <- !app_assoc.
      splits; auto; try (intros; congruence).
      * right. destruct Hres as [release Hrel]. exists release. tauto.
      * destruct res2; [right | left; exact Hres'].
        destruct Hres' as [pr Hpr]. exists pr. tauto.
    + exists v1, v0, lo, [], lc, [].
      cbn [fst outputs calls marked_failed]. rewrite Ho, Hc.
      cbn [app outputs calls r0 logged]. rewrite !app_nil_r.
      splits; auto; try (intros; congruence); try (unfold lookups; simpl; destruct (truthy_str _); lia).
Qed.

(** ** Published keys *)

Lemma has_double_dash_prefixed (p k : string) : has_double_dash (p ++ "--" ++ k) = true.
Proof.
  induction p as [| c p IH]; [reflexivity |].
  cbn [append]. cbn [append] in IH.
  destruct (p ++ String "-" (String "-" k)) as [| b t] eqn:E.
  - destruct p; discriminate.
  - cbn [has_double_dash]. cbn [has_double_dash] in IH. rewrite IH.
    apply orb_true_r.
Qed.

Lemma output_name_neq (path key target : string) :
  has_double_dash target = false -> key <> target -> output_name path key <> target.
Proof.
  intros Hd Hk. unfold output_name. destruct (String.eqb path "."); [exact Hk |].
  intros E. rewrite <- E, has_double_dash_prefixed in Hd. discriminate.
Qed.

Lemma published_keys (rename : string -> string) (fields : list (string * option jsval))
  (k : string) (v : jsval) :
  In (k, v) (published rename fields) ->
  exists k0, In (k0, Some v) fields /\ k = rename k0.
Proof.
  unfold published. rewrite in_flat_map. intros [[k0 [v0 |]] [Hin H]]; cbn [fst snd] in H.
  - destruct H as [H | []]. injection H as <- <-. exists k0. auto.
  - destruct H.
Qed.

Lemma external_field_names (release : Release) (k : string) (v : option jsval) :
  In (k, v) (external_fields release) -> In k external_names.
Proof.
  intros H. apply (in_map fst) in H. cbn [fst] in H.
  unfold external_names. cbn [external_fields map fst] in H. right. exact H.
Qed.

Lemma release_outputs_keys (path : string) (release : Release) (k : string) (v : jsval) :
  In (k, v) (release_outputs path release) ->
  (k = "releases_created" /\ v = VBool true) \/
  k = "paths_released" \/
  exists k0, In k0 external_names /\ k = output_name path k0.
Proof.
  unfold release_outputs. intros [H | [H | H]].
  - injection H as <- <-. left. auto.
  - injection H as <- <-. right. right. exists "release_created". split; [left |]; reflexivity.
  - apply in_app_or in H. destruct H as [H | [H | []]].
    + apply published_keys in H. destruct H as [k0 [Hin ->]].
      right. right. exists k0. split; [| reflexivity].
      apply (external_field_names release k0 (Some v)). exact Hin.
    + injection H as <- <-. right. left. reflexivity.
Qed.

Lemma external_names_not (target : string) :
  existsb (String.eqb target) external_names = false ->
  forall k0, In k0 external_names -> k0 <> target.
Proof.
  intros H k0 Hin ->. assert (existsb (String.eqb target) external_names = true).
  { apply existsb_exists. exists target. split; [exact Hin | apply String.eqb_refl]. }
  congruence.
Qed.

Lemma release_outputs_flag (path : string) (release : Release) (v : jsval) :
  In ("releases_created", v) (release_outputs path release) -> v = VBool true.
Proof.
  intros H. apply release_outputs_keys in H.
  destruct H as [[_ H] | [H | [k0 [Hin H]]]]; [exact H | discriminate |].
  exfalso. symmetry in H. revert H. apply output_name_neq; [reflexivity |].
  apply external_names_not; [reflexivity | exact Hin].
Qed.

Lemma release_outputs_no_pr_flag (path : string) (release : Release) (v : jsval) :
  ~ In ("prs_created", v) (release_outputs path release).
Proof.
  intros H. apply release_outputs_keys in H.
  destruct H as [[H _] | [H | [k0 [Hin H]]]]; [discriminate | discriminate |].
  symmetry in H. revert H. apply output_name_neq; [reflexivity |].
  apply external_names_not; [reflexivity | exact Hin].
Qed.

Lemma pr_outputs_flag (pr : PullRequest) (v : jsval) :
  In ("prs_created", v) (pr_outputs pr) -> v = VBool true.
Proof.
  unfold pr_outputs. intros [H | [H | [H | []]]]; try discriminate.
  injection H as <-. reflexivity.
Qed.

Lemma pr_outputs_no_release_flag (pr : PullRequest) (v : jsval) :
  ~ In ("releases_created", v) (pr_outputs pr).
Proof.
  unfold pr_outputs. intros [H | [H | [H | []]]]; discriminate.
Qed.

(** C3 (as amended). Each formatter publishes its category's created flag:
    true when it is handed a record, false when it is handed none. [main]
    runs a formatter only at the end of its branch, with the one record that
    was created: whenever an invocation publishes releases_created or
    prs_created the value is true and the branch was not skipped by its
    flag, so a skipped branch publishes no created flag at all. In the
    scenario of a prior release v1.2.3, always-bump-patch and
    skipGiteaPullRequest = true, releases_created is true, tag_name is
    v1.2.4 and prs_created is not published. *)
Theorem created_flags {S : Type} (host : Host S) (env : string -> string)
  (inputs : ActionInputs) (s : S) :
  parseInputs env = Ok inputs ->
  let published := outputs (fst (main host env (start s))) in
  (forall v, In ("releases_created", v) published ->
             v = VBool true /\ skipGiteaRelease inputs <> Some true) /\
  (forall v, In ("prs_created", v) published ->
             v = VBool true /\ skipGiteaPullRequest inputs <> Some true) /\
  (forall q : Run S,
      outputs (fst (outputReleases [] q)) =
      (outputs q ++ [("releases_created", VBool false); ("paths_released", VJsonPaths [])])%list /\
      outputs (fst (outputPRs [] q)) = (outputs q ++ [("prs_created", VBool false)])%list) /\
  (forall (q : Run S) release pr,
      (exists rest,
          outputs (fst (outputReleases [Some release] q)) =
          (outputs q ++ ("releases_created", VBool true) :: rest)%list) /\
      (exists rest,
          outputs (fst (outputPRs [Some pr] q)) =
          (outputs q ++ ("prs_created", VBool true) :: rest)%list)) /\
  (let scenario := outputs (fst (main scenario_host scenario_env (start tt))) in
   get_output "releases_created" scenario = Some (VBool true) /\
   get_output "tag_name" scenario = Some (VStr "v1.2.4") /\
   has_key "prs_created" scenario = false).
Proof.
  intros Hp published.
  destruct (main_footprint host env inputs (start s) Hp)
    as [v1 [v2 [lo1 [lo2 [lc1 [lc2 [Ho [_ [H1 [H2 _]]]]]]]]]].
  cbn [start outputs app] in Ho. subst published. rewrite Ho. splits.
  - intros v Hin. apply in_app_or in Hin. destruct Hin as [Hin | Hin].
    + destruct H1 as [-> | [release [Hs [-> _]]]]; [destruct Hin |].
      split; [apply release_outputs_flag in Hin; exact Hin | exact Hs].
    + destruct H2 as [-> | [pr [_ [-> _]]]]; [destruct Hin |].
      apply pr_outputs_no_release_flag in Hin. destruct Hin.
  - intros v Hin. apply in_app_or in Hin. destruct Hin as [Hin | Hin].
    + destruct H1 as [-> | [release [_ [-> _]]]]; [destruct Hin |].
      apply release_outputs_no_pr_flag in Hin. destruct Hin.
    + destruct H2 as [-> | [pr [Hs [-> _]]]]; [destruct Hin |].
      split; [apply pr_outputs_flag in Hin; exact Hin | exact Hs].
  - intros q. rewrite outputReleases_none, outputPRs_none. split; reflexivity.
  - intros q release pr. rewrite outputReleases_one, outputPRs_one.
    split; eexists; reflexivity.
  - vm_compute. auto.
Qed.

Lemma created_flags_witness :
  ~ In ("prs_created", VBool false)
      (outputs (fst (main scenario_host scenario_env (start tt)))).
Proof.
  intros H.
  pose proof (created_flags scenario_host scenario_env _ tt eq_refl) as C.
  cbn zeta in C. destruct C as [_ [C _]].
  apply C in H. destruct H as [_ H]. apply H. reflexivity.
Defined.

(** C3 as stated fails in its own scenario: with skipGiteaPullRequest = true
    the pull-request formatter never runs, so prs_created is not published
    (the claim has it published as false). *)
Lemma created_flags_counterexample :
  get_output "prs_created" (outputs (fst (main scenario_host scenario_env (start tt))))
  <> Some (VBool false).
Proof.
  vm_compute. discriminate.
Qed.

(** ** Derived names *)

Lemma tagName_cases (inputs : ActionInputs) (version : string) :
  (forall p, includeComponentInTag inputs = Some true -> path inputs = Some p -> p <> "" ->
             tagName inputs version = p ++ "-v" ++ version) /\
  (includeComponentInTag inputs <> Some true \/ path inputs = None \/ path inputs = Some "" ->
   tagName inputs version = "v" ++ version).
Proof.
  unfold tagName. split.
  - intros p -> -> Hp. apply String.eqb_neq in Hp. cbn [truthy_flag truthy_str].
    rewrite Hp. reflexivity.
  - intros [H | [-> | ->]].
    + apply truthy_flag_false in H. rewrite H. reflexivity.
    + rewrite andb_false_r. reflexivity.
    + rewrite andb_false_r. reflexivity.
Qed.

Lemma tagName_parsed (env : string -> string) (inputs : ActionInputs) (version : string) :
  parseInputs env = Ok inputs ->
  tagName inputs version =
  match includeComponentInTag inputs, path inputs with
  | Some true, Some p => p ++ "-v" ++ version
  | _, _ => "v" ++ version
  end.
Proof.
  intros Hp. destruct (parseInputs_fields env inputs Hp) as [_ [_ [_ [Hpath _]]]].
  destruct (tagName_cases inputs version) as [Hon Hoff].
  destruct (includeComponentInTag inputs) as [[|] |] eqn:Ef;
    try (apply Hoff; left; discriminate).
  destruct (path inputs) as [p |] eqn:Epath; [| apply Hoff; auto].
  symmetry in Hpath. apply nonempty_some in Hpath. destruct Hpath as [Hne _].
  apply Hon; auto.
Qed.

(** C4. The tag of the release that is requested is <path>-v<version> when
    includeComponentInTag is enabled and a path is set, and v<version> in
    every other case, whatever the path; the head branch of the pull request
    that is requested is release-please--<targetBranch>--<version>, its base
    the target branch. This holds for the name derivations on every inputs
    record and version, and for every request an invocation issues. *)
Theorem derived_names {S : Type} (host : Host S) (env : string -> string)
  (inputs : ActionInputs) (r : Run S) :
  parseInputs env = Ok inputs ->
  (forall c, In c (calls (fst (main host env r))) ->
      In c (calls r) \/
      match c with
      | CreateRelease tag name _ _ _ =>
          exists version,
            name = "Release " ++ version /\
            tag = match includeComponentInTag inputs, path inputs with
                  | Some true, Some p => p ++ "-v" ++ version
                  | _, _ => "v" ++ version
                  end
      | CreatePull title _ head base =>
          exists version,
            title = "chore: release " ++ version /\
            head = "release-please--" ++ targetBranch inputs ++ "--" ++ version /\
            base = targetBranch inputs
      | _ => True
      end) /\
  (forall (any : ActionInputs) (version : string),
      (forall p, includeComponentInTag any = Some true -> path any = Some p -> p <> "" ->
                 tagName any version = p ++ "-v" ++ version) /\
      (includeComponentInTag any <> Some true \/ path any = None \/ path any = Some "" ->
       tagName any version = "v" ++ version) /\
      releaseBranchName any version
      = "release-please--" ++ targetBranch any ++ "--" ++ version).
Proof.
  intros Hp. split.
  - destruct (main_footprint host env inputs r Hp)
      as [v1 [v2 [lo1 [lo2 [lc1 [lc2 [_ [Hc [_ [_ [F1 [F2 _]]]]]]]]]]]].
    rewrite Hc. intros c Hin.
    apply in_app_or in Hin. destruct Hin as [Hin | Hin]; [left; exact Hin | right].
    apply in_app_or in Hin. destruct Hin as [Hin | Hin].
    + rewrite Forall_forall in F1. specialize (F1 c Hin).
      destruct c; cbn [release_call] in F1; try exact I; try destruct F1.
      exists v1. destruct H0 as [-> _]. split; [reflexivity |].
      rewrite H. apply (tagName_parsed env); exact Hp.
    + rewrite Forall_forall in F2. specialize (F2 c Hin).
      destruct c; cbn [pull_call] in F2; try exact I; try destruct F2.
      exists v2. destruct H0 as [-> ->]. auto.
  - intros any version. destruct (tagName_cases any version) as [Hon Hoff].
    splits; [exact Hon | exact Hoff | reflexivity].
Qed.

Lemma derived_names_witness :
  Forall (fun c => match c with
                   | CreateRelease tag name _ _ _ =>
                       exists version, name = "Release " ++ version /\
                                       tag = "pkgA-v" ++ version
                   | CreatePull title _ head base =>
                       exists version,
                         title = "chore: release " ++ version /\
                         head = "release-please--main--" ++ version /\
                         base = "main"
                   | _ => True
                   end)
    (calls (fst (main scenario_host component_env (start tt)))).
Proof.
  apply Forall_forall. intros c Hin.
  destruct (derived_names scenario_host component_env _ (start tt) eq_refl) as [H _].
  destruct (H c Hin) as [[] | Hc]. exact Hc.
Defined.

(** ** Failures *)

(** C5. With both branches enabled: when the release branch throws, the
    error reaches the top-level handler, which marks the invocation failed
    with the error's text; nothing else happens afterwards, so the
    pull-request branch does not run (no pull-request request, no
    pull-request log line, no output). When the release branch completes
    and the pull-request branch then throws, the invocation is marked
    failed in the same way and the release outputs published before the
    failure stay published. *)
Theorem failure_propagation {S : Type} (host : Host S) (env : string -> string)
  (inputs : ActionInputs) (r : Run S) :
  parseInputs env = Ok inputs ->
  skipGiteaRelease inputs <> Some true ->
  skipGiteaPullRequest inputs <> Some true ->
  let r0 := logged r (Info "Starting Gitea release-please process") in
  let final := fst (main host env r) in
  (forall r1 e,
      releaseBranch host inputs r0 = (r1, Throw e) ->
      final = marked_failed r1 (failure_message e) /\
      failed final = Some ("release-please failed: " ++ error_toString e) /\
      outputs final = outputs r /\
      exists version lc ll,
        calls final = (calls r ++ lc)%list /\
        Forall (release_call inputs version) lc /\
        release_log (Throw e) ll /\
        log final =
        (log r ++ Info "Starting Gitea release-please process"
               :: Info "Creating release"
               :: ll ++ [Error (failure_message e)])%list) /\
  (forall r1 r2 e,
      releaseBranch host inputs r0 = (r1, Ok tt) ->
      pullRequestBranch host inputs r1 = (r2, Throw e) ->
      final = marked_failed r2 (failure_message e) /\
      failed final = Some ("release-please failed: " ++ error_toString e) /\
      exists release,
        rel_path release = effective_path inputs /\
        outputs final = (outputs r ++ release_outputs (effective_path inputs) release)%list).
Proof.
  intros Hp G1 G2 r0 final. subst final.
  rewrite (main_eq host env inputs r Hp). cbn zeta. fold r0.
  apply truthy_flag_false in G1. apply truthy_flag_false in G2.
  rewrite G1, G2. cbn [negb]. split.
  - intros r1 e E1. rewrite E1. cbn [fst].
    destruct (releaseBranch_footprint host inputs r0 r1 (Throw e) E1)
      as [v1 [lo [ll [lc [Ho [Hl [Hc [Hf [Fc [Fl [Lk [Hres Hv]]]]]]]]]]]].
    subst lo. splits; try reflexivity.
    + cbn [outputs marked_failed]. rewrite Ho. cbn [r0 outputs logged].
      apply app_nil_r.
    + exists v1, lc, ll. splits; try assumption.
      cbn [log marked_failed]. rewrite Hl. cbn [r0 log logged].
      rewrite <- !app_assoc. reflexivity.
  - intros r1 r2 e E1 E2. rewrite E1, E2. cbn [fst].
    destruct (releaseBranch_footprint host inputs r0 r1 (Ok tt) E1)
      as [v1 [lo [ll [lc [Ho [Hl [Hc [Hf [Fc [Fl [Lk [[release Hrel] Hv]]]]]]]]]]]].
    destruct (pullRequestBranch_footprint host inputs r1 r2 (Throw e) E2)
      as [v2 [lo' [ll' [lc' [Ho' [Hl' [Hc' [Hf' [Fc' [Fl' [Lk' [Hres' Hv']]]]]]]]]]]].
    subst lo'. splits; try reflexivity.
    exists release. destruct Hrel as [-> [_ [Hpath _]]]. split; [exact Hpath |].
    cbn [outputs marked_failed]. rewrite Ho', Ho, app_nil_r. reflexivity.
Qed.

Lemma failure_propagation_witness :
  failed (fst (main no_branch_host plain_env (start tt)))
  = Some "release-please failed: HttpError: branch not found" /\
  failed (fst (main no_pull_host plain_env (start tt)))
  = Some "release-please failed: HttpError: pull request refused" /\
  get_output "releases_created" (outputs (fst (main no_pull_host plain_env (start tt))))
  = Some (VBool true).
Proof.
  assert (G : forall b : bool, (None : option bool) <> Some b) by discriminate.
  splits.
  - pose proof (failure_propagation no_branch_host plain_env _ (start tt) eq_refl
                  (G true) (G true)) as C.
    cbn zeta in C. destruct C as [C _].
    destruct (C _ _ eq_refl) as [_ [C2 _]]. exact C2.
  - pose proof (failure_propagation no_pull_host plain_env _ (start tt) eq_refl
                  (G true) (G true)) as C.
    cbn zeta in C. destruct C as [_ C].
    destruct (C _ _ _ eq_refl eq_refl) as [_ [C2 _]]. exact C2.
  - pose proof (failure_propagation no_pull_host plain_env _ (start tt) eq_refl
                  (G true) (G true)) as C.
    cbn zeta in C. destruct C as [_ C].
    destruct (C _ _ _ eq_refl eq_refl) as [C1 _]. rewrite C1. reflexivity.
Defined.

(** ** Ref creation *)

Ltac solve_or :=
  match goal with
  | |- _ \/ _ => first [left; solve_or | right; solve_or]
  | |- _ = _ => reflexivity
  | |- In _ _ => assumption
  end.

Ltac in_list := repeat rewrite in_app_iff; cbn [In]; solve_or.

Lemma pullRequestBranch_warning {S : Type} (host : Host S) (inputs : ActionInputs)
  (r : Run S) (m : string) :
  In (Warning m) (log (fst (pullRequestBranch host inputs r))) ->
  In (Warning m) (log r) \/
  exists version title body,
    m = "Branch " ++ releaseBranchName inputs version ++ " may already exist" /\
    In (CreatePull title body (releaseBranchName inputs version) (targetBranch inputs))
       (calls (fst (pullRequestBranch host inputs r))).
Proof.
  unfold_action. reduce_action.
  destruct (truthy_flag (skipLabeling inputs)); reduce_pull.
  all: destruct (truthy_str (releaseAs inputs)) eqn:Eo.
  all: repeat (host_step; reduce_pull).
  all: try rewrite outputPRs_one.
  all: reduce_action.
  all: repeat rewrite in_app_iff; cbn [In].
  all: intros H.
  all: repeat match goal with
         | H : _ \/ _ |- _ => destruct H as [H | H]
         | H : False |- _ => destruct H
         | H : Info _ = Warning _ |- _ => discriminate H
         | H : Error _ = Warning _ |- _ => discriminate H
         end.
  all: try (left; assumption).
  all: right; injection H as <-; eexists; eexists; eexists; split; [reflexivity |].
  all: in_list.
Qed.

Ltac break_in H :=
  repeat (first [rewrite in_app_iff in H | progress cbn [In] in H]);
  repeat match goal with
         | H' : _ \/ _ |- _ => destruct H' as [H' | H']
         | H' : False |- _ => destruct H'
         | H' : Info _ = Error _ |- _ => discriminate H'
         end.

Lemma release_log_no_warning (res : outcome unit) (ll : list LogEvent) (m : string) :
  release_log res ll -> ~ In (Warning m) ll.
Proof.
  unfold release_log, failure_log. destruct res as [u | e].
  - intros ->. intros [].
  - intros [step [_ ->]] [H | []]. discriminate.
Qed.

Lemma release_log_ok (ll : list LogEvent) : release_log (Ok tt) ll -> ll = [].
Proof. intros H. exact H. Qed.

Lemma pull_log_ok (inputs : ActionInputs) (version : string) (ll : list LogEvent) (m : string) :
  pull_log inputs version (Ok tt) ll -> In (Error m) ll ->
  exists e, m = "Failed to create ref: " ++ error_toString e.
Proof.
  intros [tail [Ht [-> | [e ->]]]]; cbn [failure_log] in Ht; subst tail.
  - intros [].
  - intros [H | [H | []]]; [| discriminate]. injection H as <-. exists e. reflexivity.
Qed.

Lemma pullRequestBranch_ref_failure {S : Type} (host : Host S) (inputs : ActionInputs)
  (q q1 q2 : Run S) (version sha : string) (s3 : S) (e : JsError) :
  nextVersion host inputs (logged q (Info "Creating pull request")) = (q1, Ok version) ->
  getBranch host (targetBranch inputs) q1 = (q2, Ok sha) ->
  git_createRef host (host_state q2)
    ("refs/heads/" ++ releaseBranchName inputs version) sha = (s3, Throw e) ->
  pullRequestBranch host inputs q =
  (createdPR <- createPullRequest host (pull_request_for inputs version) ;;
   outputPRs [Some createdPR])
    (logged
       (logged (answered q2 s3 (CreateRef ("refs/heads/" ++ releaseBranchName inputs version) sha))
          (Error ("Failed to create ref: " ++ error_toString e)))
       (Warning ("Branch " ++ releaseBranchName inputs version ++ " may already exist"))).
Proof.
  intros E1 E2 E3. unfold pullRequestBranch.
  unfold bind at 1. unfold core_info, emit. unfold bind at 1. rewrite E1.
  unfold bind at 1. rewrite E2. unfold bind at 1.
  unfold try_catch at 1. unfold createRef, try_catch, request.
  rewrite E3. unfold bind at 1. unfold core_error, emit. unfold throw.
  unfold core_warning, emit. reflexivity.
Qed.

(** C6. In the pull-request branch a failure of the ref creation is caught:
    it is logged (as the client's error and then as the warning "Branch ...
    may already exist"), and the branch goes on to create the pull request
    with the derived branch name as head. Whenever an invocation logs that
    warning, it has requested the pull request for that branch name. No
    other step is treated this way: an invocation that is not marked failed
    has logged no error except failed ref creations. *)
Theorem ref_creation_downgraded {S : Type} (host : Host S) (env : string -> string)
  (inputs : ActionInputs) (s : S) :
  parseInputs env = Ok inputs ->
  let final := fst (main host env (start s)) in
  (forall (q q1 q2 : Run S) version sha s3 e,
      nextVersion host inputs (logged q (Info "Creating pull request")) = (q1, Ok version) ->
      getBranch host (targetBranch inputs) q1 = (q2, Ok sha) ->
      git_createRef host (host_state q2)
        ("refs/heads/" ++ releaseBranchName inputs version) sha = (s3, Throw e) ->
      let name := releaseBranchName inputs version in
      pr_headBranchName (pull_request_for inputs version) = name /\
      pullRequestBranch host inputs q =
      (createdPR <- createPullRequest host (pull_request_for inputs version) ;;
       outputPRs [Some createdPR])%action
        (logged
           (logged (answered q2 s3 (CreateRef ("refs/heads/" ++ name) sha))
              (Error ("Failed to create ref: " ++ error_toString e)))
           (Warning ("Branch " ++ name ++ " may already exist")))) /\
  (forall m, In (Warning m) (log final) ->
      exists version title body,
        m = "Branch " ++ releaseBranchName inputs version ++ " may already exist" /\
        In (CreatePull title body (releaseBranchName inputs version) (targetBranch inputs))
           (calls final)) /\
  (failed final = None ->
   forall m, In (Error m) (log final) ->
             exists e, m = "Failed to create ref: " ++ error_toString e).
Proof.
  intros Hp final. splits.
  - intros q q1 q2 version sha s3 e E1 E2 E3 name. split; [reflexivity |].
    apply (pullRequestBranch_ref_failure host inputs q q1 q2 version sha s3 e E1 E2 E3).
  - subst final. rewrite (main_eq host env inputs (start s) Hp). cbn zeta.
    set (r0 := logged (start s) (Info "Starting Gitea release-please process")).
    assert (W0 : forall m, ~ In (Warning m) (log r0)).
    { intros m [H | []]. discriminate. }
    assert (W1 : forall r1 res1,
               (if negb (truthy_flag (skipGiteaRelease inputs))
                then releaseBranch host inputs r0 else (r0, Ok tt)) = (r1, res1) ->
               forall m, ~ In (Warning m) (log r1)).
    { intros r1 res1 E m. destruct (negb (truthy_flag (skipGiteaRelease inputs))).
      - destruct (releaseBranch_footprint host inputs r0 r1 res1 E)
          as [v1 [lo [ll [lc [_ [Hl [_ [_ [_ [Fl _]]]]]]]]]].
        rewrite Hl, in_app_iff. intros [H | [H | H]].
        + exact (W0 m H).
        + discriminate.
        + exact (release_log_no_warning res1 ll m Fl H).
      - injection E as <- <-. apply W0. }
    destruct (if negb (truthy_flag (skipGiteaRelease inputs))
              then releaseBranch host inputs r0 else (r0, Ok tt)) as [r1 res1] eqn:E1.
    specialize (W1 r1 res1 eq_refl).
    destruct res1 as [[] | e1].
    + destruct (negb (truthy_flag (skipGiteaPullRequest inputs))).
      * intros m Hin.
        assert (Hin2 : In (Warning m) (log (fst (pullRequestBranch host inputs r1)))).
        { destruct (pullRequestBranch host inputs r1) as [r2 [[] | e2]];
            cbn [fst log logged marked_failed] in *;
            apply in_app_or in Hin; destruct Hin as [Hin | [Hin | []]];
            try exact Hin; discriminate. }
        apply pullRequestBranch_warning in Hin2.
        destruct Hin2 as [Hin2 | [version [title [body [Hm Hc]]]]];
          [destruct (W1 m Hin2) |].
        exists version, title, body. split; [exact Hm |].
        destruct (pullRequestBranch host inputs r1) as [r2 [[] | e2]]; exact Hc.
      * intros m Hin. cbn [fst log logged] in Hin.
        apply in_app_or in Hin. destruct Hin as [Hin | [Hin | []]];
          [destruct (W1 m Hin) | discriminate].
    + intros m Hin. cbn [fst log marked_failed] in Hin.
      apply in_app_or in Hin. destruct Hin as [Hin | [Hin | []]];
        [destruct (W1 m Hin) | discriminate].
  - subst final. rewrite (main_eq host env inputs (start s) Hp). cbn zeta.
    set (r0 := logged (start s) (Info "Starting Gitea release-please process")).
    destruct (negb (truthy_flag (skipGiteaRelease inputs))).
    + destruct (releaseBranch host inputs r0) as [r1 res1] eqn:E1.
      destruct (releaseBranch_footprint host inputs r0 r1 res1 E1)
        as [v1 [lo [ll [lc [_ [Hl [_ [_ [_ [Fl _]]]]]]]]]].
      destruct res1 as [[] | e1]; [| cbn [fst failed marked_failed]; discriminate].
      apply release_log_ok in Fl. subst ll.
      destruct (negb (truthy_flag (skipGiteaPullRequest inputs))).
      * destruct (pullRequestBranch host inputs r1) as [r2 res2] eqn:E2.
        destruct (pullRequestBranch_footprint host inputs r1 r2 res2 E2)
          as [v2 [lo' [ll' [lc' [_ [Hl' [_ [_ [_ [Fl' _]]]]]]]]]].
        destruct res2 as [[] | e2]; [| cbn [fst failed marked_failed]; discriminate].
        intros _ m Hin. cbn [fst log logged] in Hin. rewrite Hl', Hl in Hin.
        cbn [r0 log logged start app] in Hin.
        break_in Hin.
        exact (pull_log_ok inputs v2 ll' m Fl' Hin).
      * intros _ m Hin. cbn [fst log logged] in Hin. rewrite Hl in Hin.
        cbn [r0 log logged start app] in Hin.
        break_in Hin.
    + destruct (negb (truthy_flag (skipGiteaPullRequest inputs))).
      * destruct (pullRequestBranch host inputs r0) as [r2 res2] eqn:E2.
        destruct (pullRequestBranch_footprint host inputs r0 r2 res2 E2)
          as [v2 [lo' [ll' [lc' [_ [Hl' [_ [_ [_ [Fl' _]]]]]]]]]].
        destruct res2 as [[] | e2]; [| cbn [fst failed marked_failed]; discriminate].
        intros _ m Hin. cbn [fst log logged] in Hin. rewrite Hl' in Hin.
        cbn [r0 log logged start app] in Hin.
        break_in Hin.
        exact (pull_log_ok inputs v2 ll' m Fl' Hin).
      * intros _ m Hin. cbn [fst log logged r0 start app] in Hin.
        break_in Hin.
Qed.

Lemma ref_creation_downgraded_witness :
  exists version title body,
    In (CreatePull title body ("release-please--main--" ++ version) "main")
       (calls (fst (main ref_exists_host plain_env (start tt)))).
Proof.
  pose proof (ref_creation_downgraded ref_exists_host plain_env _ tt eq_refl) as C.
  cbn zeta in C. destruct C as [_ [C _]].
  destruct (C "Branch release-please--main--1.2.4 may already exist")
    as [version [title [body [_ Hc]]]].
  - vm_compute. tauto.
  - exists version, title, body. exact Hc.
Defined.

(** ** Keys of a published release *)

Lemma append_inj_l (p a b : string) : p ++ a = p ++ b -> a = b.
Proof.
  induction p as [| c p IH]; cbn [append]; intros H; [exact H |].
  injection H as H. apply IH. exact H.
Qed.

Lemma output_name_inj (path a b : string) :
  output_name path a = output_name path b -> a = b.
Proof.
  unfold output_name. destruct (String.eqb path "."); intros H; [exact H |].
  apply append_inj_l in H. apply (append_inj_l "--") in H. exact H.
Qed.

Lemma external_fields_functional (release : Release) (k : string) (a b : option jsval) :
  In (k, a) (external_fields release) -> In (k, b) (external_fields release) -> a = b.
Proof.
  unfold external_fields. cbn [In]. intros Ha Hb.
  repeat match goal with
         | H : _ \/ _ |- _ => destruct H as [H | H]
         | H : False |- _ => destruct H
         end.
  all: inversion Ha; subst; inversion Hb; subst; reflexivity.
Qed.

Lemma published_in (rename : string -> string) (fields : list (string * option jsval))
  (k : string) (v : jsval) :
  In (k, Some v) fields -> In (rename k, v) (published rename fields).
Proof.
  intros H. unfold published. apply in_flat_map. exists (k, Some v).
  split; [exact H | left; reflexivity].
Qed.

Lemma or_else_root (p : string) : or_else p "." = "." <-> p = "." \/ p = "".
Proof.
  unfold or_else. destruct (String.eqb p "") eqn:E.
  - apply String.eqb_eq in E. subst p. split; auto.
  - apply String.eqb_neq in E. split; [auto | intros [H | H]; [exact H | contradiction]].
Qed.

Lemma output_key_external (raw : string) : output_key raw = external_name raw.
Proof.
  unfold output_key, external_name.
  destruct (String.eqb raw "tagName") eqn:E1; [reflexivity |].
  destruct (String.eqb raw "uploadUrl") eqn:E2; [reflexivity |].
  destruct (String.eqb raw "body") eqn:E3; [| reflexivity].
  apply String.eqb_eq in E3. subst raw. reflexivity.
Qed.

(** The keys under which [outputReleases] publishes one record, in terms of
    the path the formatter computes ([release.path || '.']). *)
Lemma outputReleases_keys {S : Type} (release : Release) (q : Run S) :
  let path := or_else (rel_path release) "." in
  let result := outputs (fst (outputReleases [Some release] q)) in
  exists published,
    result = (outputs q ++ published)%list /\
    (path = "." <-> rel_path release = "." \/ rel_path release = "") /\
    (forall k v, In (k, v) published ->
        k = "releases_created" \/ k = "paths_released" \/
        exists k0, In k0 external_names /\
                   k = if String.eqb path "." then k0 else path ++ "--" ++ k0) /\
    (forall raw v, In (raw, Some v) (entries release) ->
        In (output_name path (external_name raw), v) published) /\
    (forall raw, In (raw, None) (entries release) ->
        forall v, ~ In (output_name path (external_name raw), v) published) /\
    ~ In "tagName" external_names /\ ~ In "uploadUrl" external_names /\
    ~ In "url" external_names.
Proof.
  intros path result. subst result. rewrite outputReleases_one. fold path.
  exists (release_outputs path release). cbn [fst outputs with_outputs]. splits.
  - reflexivity.
  - apply or_else_root.
  - intros k v H. apply release_outputs_keys in H.
    destruct H as [[H _] | [H | H]]; auto.
  - intros raw v H. unfold release_outputs. right. right. apply in_or_app. left.
    rewrite <- published_entries.
    apply (published_in (fun k => output_name path (output_key k))) in H.
    rewrite output_key_external in H. exact H.
  - intros raw Hnone v H.
    assert (Hext : In (external_name raw, None) (external_fields release)).
    { apply (in_map (fun kv => (output_key (fst kv), snd kv))) in Hnone.
      cbn [fst snd] in Hnone. rewrite output_key_external in Hnone. exact Hnone. }
    assert (Hname : In (external_name raw) external_names).
    { right. apply (in_map fst) in Hext. exact Hext. }
    unfold release_outputs in H. destruct H as [H | [H | H]].
    + injection H as H _. symmetry in H. revert H.
      apply output_name_neq; [reflexivity |].
      apply external_names_not; [reflexivity | exact Hname].
    + injection H as H _. apply output_name_inj in H. subst.
      rewrite <- H in Hext. cbn [external_fields In] in Hext.
      repeat match goal with
             | H' : _ \/ _ |- _ => destruct H' as [H' | H']
             | H' : False |- _ => destruct H'
             | H' : (_, _) = (_, _) |- _ => discriminate H'
             end.
    + apply in_app_or in H. destruct H as [H | [H | []]].
      * apply published_keys in H. destruct H as [k0 [Hin Hk]].
        apply output_name_inj in Hk. subst k0.
        pose proof (external_fields_functional release _ _ _ Hext Hin). discriminate.
      * injection H as H _. symmetry in H. revert H.
        apply output_name_neq; [reflexivity |].
        apply external_names_not; [reflexivity | exact Hname].
  - intros H. cbn in H. intuition discriminate.
  - intros H. cbn in H. intuition discriminate.
  - intros H. cbn in H. intuition discriminate.
Qed.

Lemma or_else_same (p d : string) : p <> "" -> or_else p d = p.
Proof.
  intros H. unfold or_else. apply String.eqb_neq in H. rewrite H. reflexivity.
Qed.

Lemma effective_path_nonempty (inputs : ActionInputs) : effective_path inputs <> "".
Proof.
  unfold effective_path. destruct (path inputs) as [p |]; [| discriminate].
  unfold or_else. destruct (String.eqb p "") eqn:E; [discriminate |].
  apply String.eqb_neq. exact E.
Qed.

(** C8. For a created release record handed to the output formatter (its
    path is never empty: [main] builds it with the path input, or "." when
    there is none): when the path is the root "." every published key of
    the release is unprefixed, and for any other path every key of that
    release is prefixed "<path>--". Fields are published under their
    external names (tagName as tag_name, uploadUrl as upload_url, url as
    html_url, the others unchanged), and a field without a value is not
    published at all. *)
Theorem release_output_keys {S : Type} (release : Release) (q : Run S) :
  rel_path release <> "" ->
  let path := rel_path release in
  let result := outputs (fst (outputReleases [Some release] q)) in
  (exists published,
      result = (outputs q ++ published)%list /\
      (forall k v, In (k, v) published ->
          k = "releases_created" \/ k = "paths_released" \/
          exists k0, In k0 external_names /\
                     k = if String.eqb path "." then k0 else path ++ "--" ++ k0) /\
      (forall raw v, In (raw, Some v) (entries release) ->
          In (output_name path (external_name raw), v) published) /\
      (forall raw, In (raw, None) (entries release) ->
          forall v, ~ In (output_name path (external_name raw), v) published)) /\
  external_name "tagName" = "tag_name" /\
  external_name "uploadUrl" = "upload_url" /\
  external_name "url" = "html_url" /\
  ~ In "tagName" external_names /\ ~ In "uploadUrl" external_names /\
  ~ In "url" external_names /\
  (forall (host : Host S) (inputs : ActionInputs) (r r' : Run S),
      releaseBranch host inputs r = (r', Ok tt) ->
      exists created,
        rel_path created <> "" /\
        outputs r' = (outputs r ++ release_outputs (rel_path created) created)%list).
Proof.
  intros Hne path result.
  destruct (outputReleases_keys release q) as (published & E & _ & K & P & N & T1 & T2 & T3).
  cbn zeta in E, K, P, N. rewrite (or_else_same _ "." Hne) in K, P, N.
  splits; try reflexivity; try assumption.
  - exists published. splits; assumption.
  - intros host inputs r r' H.
    destruct (releaseBranch_footprint host inputs r r' (Ok tt) H)
      as (v & lo & ll & lc & Ho & _ & _ & _ & _ & _ & _ & (created & Hl & _ & Hp & _) & _).
    exists created. rewrite Hp. split; [apply effective_path_nonempty |].
    rewrite Ho, Hl. reflexivity.
Qed.

Lemma release_output_keys_witness :
  In ("pkgA--tag_name", VStr "v1.0.0")
     (outputs (fst (outputReleases [Some (sample_release "pkgA")] (start tt)))) /\
  In ("tag_name", VStr "v1.0.0")
     (outputs (fst (outputReleases [Some (sample_release ".")] (start tt)))) /\
  (forall v, ~ In ("pkgA--upload_url", v)
                  (outputs (fst (outputReleases [Some (sample_release "pkgA")] (start tt))))).
Proof.
  destruct (release_output_keys (sample_release "pkgA") (start tt) ltac:(discriminate))
    as ((pa & Ea & _ & Pa & Na) & _).
  destruct (release_output_keys (sample_release ".") (start tt) ltac:(discriminate))
    as ((pr & Er & _ & Pr & _) & _).
  cbn zeta in Ea, Pa, Na, Er, Pr. rewrite Ea, Er. cbn [start outputs app]. splits.
  - apply (Pa "tagName" (VStr "v1.0.0")). left. reflexivity.
  - apply (Pr "tagName" (VStr "v1.0.0")). left. reflexivity.
  - apply (Na "uploadUrl"). cbn. tauto.
Defined.

(** ** The version override *)

Lemma nextVersion_override {S : Type} (host : Host S) (inputs : ActionInputs) (v : string)
  (q : Run S) :
  releaseAs inputs = Some v -> v <> "" -> nextVersion host inputs q = (q, Ok v).
Proof.
  intros E Hne. unfold nextVersion. rewrite E. cbn [truthy_str].
  apply String.eqb_neq in Hne. rewrite Hne. reflexivity.
Qed.

(** C9. When the release-as override is set, the next version of either
    branch is exactly that string and computing it makes no request: the
    release and the pull request that are requested carry the override, and
    an invocation makes at most one latest-release lookup (the one the
    changelog needs), none of them in the pull-request branch. The resolver
    runs, starting with its lookup, only when the override is absent. *)
Theorem release_as_override {S : Type} (host : Host S) (env : string -> string)
  (inputs : ActionInputs) (r : Run S) (v : string) :
  parseInputs env = Ok inputs ->
  releaseAs inputs = Some v ->
  (forall q : Run S, nextVersion host inputs q = (q, Ok v)) /\
  (exists lc1 lc2,
      calls (fst (main host env r)) = (calls r ++ lc1 ++ lc2)%list /\
      Forall (release_call inputs v) lc1 /\
      Forall (pull_call inputs v) lc2 /\
      (lookups lc1 <= 1)%nat /\ lookups lc2 = 0%nat) /\
  (forall (other : ActionInputs) (q : Run S),
      releaseAs other = None ->
      nextVersion host other q = determineNextVersion host (versioningStrategy other) q /\
      calls (fst (nextVersion host other q)) = (calls q ++ [GetLatestRelease])%list).
Proof.
  intros Hp Er.
  destruct (parseInputs_fields env inputs Hp) as [_ [_ [_ [_ [Has _]]]]].
  rewrite Er in Has. symmetry in Has. apply nonempty_some in Has. destruct Has as [Hne _].
  assert (Ht : truthy_str (releaseAs inputs) = true).
  { rewrite Er. cbn [truthy_str]. apply String.eqb_neq in Hne. rewrite Hne. reflexivity. }
  splits.
  - intros q. apply nextVersion_override; assumption.
  - destruct (main_footprint host env inputs r Hp)
      as (v1 & v2 & lo1 & lo2 & lc1 & lc2 & _ & Hc & _ & _ & F1 & F2 & _ & _ & L1 & L2 & R1 & R2).
    unfold resolved in R1, R2. rewrite Ht in *. rewrite Er in R1, R2.
    injection R1 as <-. injection R2 as <-.
    exists lc1, lc2. splits; try assumption. lia.
  - intros other q Eo. unfold nextVersion. rewrite Eo. cbn [truthy_str].
    split; [reflexivity |]. rewrite determineNextVersion_eq. reflexivity.
Qed.

Lemma release_as_override_witness :
  exists lc1 lc2,
    calls (fst (main scenario_host override_env (start tt))) = (lc1 ++ lc2)%list /\
    Forall (fun c => match c with
                     | CreateRelease tag name _ _ _ =>
                         tag = "v3.0.0" /\ name = "Release 3.0.0"
                     | _ => True
                     end) lc1 /\
    (lookups lc1 <= 1)%nat /\ lookups lc2 = 0%nat.
Proof.
  destruct (release_as_override scenario_host override_env _ (start tt) "3.0.0"
              eq_refl eq_refl) as [_ [[lc1 [lc2 [Hc [F1 [_ [L1 L2]]]]]] _]].
  exists lc1, lc2. splits; try assumption.
  apply Forall_forall. intros c Hin. rewrite Forall_forall in F1. specialize (F1 c Hin).
  destruct c; try exact I. cbn [release_call] in F1. destruct F1 as [F1 [F2 _]].
  split; [exact F1 | exact F2].
Defined.

(** ** Skip flags *)

Lemma getOptionalBooleanInput_empty (env : string -> string) (name : string) :
  trim (env name) = "" -> getOptionalBooleanInput env name = Ok None.
Proof.
  intros H. unfold getOptionalBooleanInput, core_getInput. cbn [andb obind].
  rewrite H. reflexivity.
Qed.

Lemma release_log_no_info (res : outcome unit) (ll : list LogEvent) (m : string) :
  release_log res ll -> ~ In (Info m) ll.
Proof.
  unfold release_log, failure_log. destruct res as [u | e].
  - intros ->. intros [].
  - intros [step [_ ->]] [H | []]. discriminate.
Qed.

Lemma pull_log_no_info (inputs : ActionInputs) (version : string) (res : outcome unit)
  (ll : list LogEvent) (m : string) :
  pull_log inputs version res ll -> ~ In (Info m) ll.
Proof.
  intros [tail [Ht Hl]] Hin.
  assert (Htail : ~ In (Info m) tail).
  { unfold failure_log in Ht. destruct res as [u | e].
    - subst tail. intros [].
    - destruct Ht as [step [_ ->]]. intros [H | []]. discriminate. }
  destruct Hl as [-> | [e ->]]; [exact (Htail Hin) |].
  destruct Hin as [H | [H | H]]; [discriminate | discriminate | exact (Htail H)].
Qed.

Lemma main_branches_logged {S : Type} (host : Host S) (env : string -> string)
  (inputs : ActionInputs) (s : S) :
  parseInputs env = Ok inputs ->
  let r0 := logged (start s) (Info "Starting Gitea release-please process") in
  let final := fst (main host env (start s)) in
  (In (Info "Creating release") (log final) <-> skipGiteaRelease inputs <> Some true) /\
  (In (Info "Creating pull request") (log final) <->
   skipGiteaPullRequest inputs <> Some true /\
   (skipGiteaRelease inputs <> Some true ->
    forall r1 e, releaseBranch host inputs r0 <> (r1, Throw e))).
Proof.
  intros Hp r0 final. subst final. rewrite (main_eq host env inputs (start s) Hp).
  cbn zeta. fold r0. rewrite <- !truthy_flag_false.
  destruct (truthy_flag (skipGiteaRelease inputs)) eqn:G1; cbn [negb].
  - destruct (truthy_flag (skipGiteaPullRequest inputs)) eqn:G2; cbn [negb].
    + cbn [fst log logged r0 start app In]. split; split; intros H.
      * break_in H; discriminate.
      * discriminate.
      * break_in H; discriminate.
      * destruct H as [H _]. discriminate.
    + destruct (pullRequestBranch host inputs r0) as [r2 res2] eqn:E2.
      destruct (pullRequestBranch_footprint host inputs r0 r2 res2 E2)
        as (v2 & lo' & ll' & lc' & _ & Hl' & _ & _ & _ & Fl' & _).
      assert (Hlog : forall tail,
                 In (Info "Creating release") (log r2 ++ tail) ->
                 In (Info "Creating release") tail).
      { intros tail H. rewrite Hl' in H. cbn [r0 log logged start app] in H.
        break_in H; try discriminate; try assumption.
        destruct (pull_log_no_info _ _ _ _ _ Fl' H). }
      assert (Hpr : forall tail, In (Info "Creating pull request") (log r2 ++ tail)).
      { intros tail. rewrite Hl'. in_list. }
      split; split; intros H.
      * destruct res2 as [[] | e]; cbn [fst log logged marked_failed] in H;
          apply Hlog in H; break_in H; discriminate.
      * discriminate.
      * split; [reflexivity | intros; discriminate].
      * destruct res2 as [[] | e]; cbn [fst log logged marked_failed]; apply Hpr.
  - destruct (releaseBranch host inputs r0) as [r1 res1] eqn:E1.
    destruct (releaseBranch_footprint host inputs r0 r1 res1 E1)
      as (v1 & lo & ll & lc & _ & Hl & _ & _ & _ & Fl & _).
    assert (Hrel : forall tail, In (Info "Creating release") (log r1 ++ tail)).
    { intros tail. rewrite Hl. in_list. }
    assert (Hnopr : forall tail,
               In (Info "Creating pull request") (log r1 ++ tail) ->
               In (Info "Creating pull request") tail).
    { intros tail H. rewrite Hl in H. cbn [r0 log logged start app] in H.
      break_in H; try discriminate; try assumption.
      destruct (release_log_no_info _ _ _ Fl H). }
    destruct res1 as [[] | e1].
    + destruct (truthy_flag (skipGiteaPullRequest inputs)) eqn:G2; cbn [negb].
      * cbn [fst log logged]. split; split; intros H.
        -- reflexivity.
        -- apply Hrel.
        -- apply Hnopr in H. break_in H; discriminate.
        -- destruct H as [H _]. discriminate.
      * destruct (pullRequestBranch host inputs r1) as [r2 res2] eqn:E2.
        destruct (pullRequestBranch_footprint host inputs r1 r2 res2 E2)
          as (v2 & lo' & ll' & lc' & _ & Hl' & _ & _ & _ & Fl' & _).
        split; split; intros H.
        -- reflexivity.
        -- destruct res2 as [[] | e]; cbn [fst log logged marked_failed];
             rewrite Hl', <- !app_assoc; apply Hrel.
        -- split; [reflexivity |]. intros _ r1' e' E. discriminate.
        -- destruct res2 as [[] | e]; cbn [fst log logged marked_failed];
             rewrite Hl'; in_list.
    + cbn [fst log marked_failed]. split; split; intros H.
      * reflexivity.
      * apply Hrel.
      * apply Hnopr in H. break_in H; discriminate.
      * destruct H as [_ H]. destruct (H eq_refl r1 e1 eq_refl).
Qed.

(** C10 (as amended). When the skip-gitea-release and
    skip-gitea-pull-request inputs are absent or empty, both skip flags
    parse to undefined and neither branch is skipped: once the inputs are
    parsed the release branch runs, and the pull-request branch runs after
    it unless the release branch fails. For any inputs a branch runs only
    if its flag is not an explicit true. *)
Theorem default_flags {S : Type} (host : Host S) (env : string -> string)
  (inputs : ActionInputs) (s : S) :
  trim (env "skip-gitea-release") = "" ->
  trim (env "skip-gitea-pull-request") = "" ->
  parseInputs env = Ok inputs ->
  let r0 := logged (start s) (Info "Starting Gitea release-please process") in
  let final := fst (main host env (start s)) in
  getOptionalBooleanInput env "skip-gitea-release" = Ok None /\
  getOptionalBooleanInput env "skip-gitea-pull-request" = Ok None /\
  skipGiteaRelease inputs = None /\
  skipGiteaPullRequest inputs = None /\
  In (Info "Creating release") (log final) /\
  (In (Info "Creating pull request") (log final) <->
   forall r1 e, releaseBranch host inputs r0 <> (r1, Throw e)) /\
  (forall (env' : string -> string) (inputs' : ActionInputs),
      parseInputs env' = Ok inputs' ->
      (In (Info "Creating release") (log (fst (main host env' (start s)))) <->
       skipGiteaRelease inputs' <> Some true) /\
      (In (Info "Creating pull request") (log (fst (main host env' (start s)))) ->
       skipGiteaPullRequest inputs' <> Some true)).
Proof.
  intros E1 E2 Hp r0 final.
  pose proof (getOptionalBooleanInput_empty env _ E1) as B1.
  pose proof (getOptionalBooleanInput_empty env _ E2) as B2.
  destruct (parseInputs_fields env inputs Hp) as (F1 & F2 & _).
  rewrite B1 in F1. rewrite B2 in F2. injection F1 as F1. injection F2 as F2.
  destruct (main_branches_logged host env inputs s Hp) as [L1 L2].
  cbn zeta in L1, L2. fold r0 in L2. fold final in L1, L2.
  splits; try assumption; try (symmetry; assumption).
  - apply L1. rewrite <- F1. discriminate.
  - rewrite L2. rewrite <- F1, <- F2. split.
    + intros [_ H]. apply H. discriminate.
    + intros H. split; [discriminate | intros _; exact H].
  - intros env' inputs' Hp'.
    destruct (main_branches_logged host env' inputs' s Hp') as [L1' L2'].
    cbn zeta in L1', L2'. split; [exact L1' |]. intros H. apply L2' in H. apply H.
Qed.

Lemma default_flags_witness :
  In (Info "Creating release") (log (fst (main scenario_host plain_env (start tt)))) /\
  In (Info "Creating pull request") (log (fst (main scenario_host plain_env (start tt)))).
Proof.
  pose proof (default_flags scenario_host plain_env _ tt eq_refl eq_refl eq_refl) as C.
  cbn zeta in C. destruct C as (_ & _ & _ & _ & C1 & C2 & _).
  split; [exact C1 |]. apply C2. intros r1 e H. vm_compute in H. discriminate H.
Defined.

(** C10 as stated fails when the release branch fails: with both skip
    inputs absent and the branch lookup refused, the pull-request branch
    never starts. *)
Lemma default_flags_counterexample :
  trim (plain_env "skip-gitea-release") = "" /\
  trim (plain_env "skip-gitea-pull-request") = "" /\
  ~ In (Info "Creating pull request")
       (log (fst (main no_branch_host plain_env (start tt)))) /\
  Forall (fun c => match c with
                   | CreatePull _ _ _ _ => False
                   | _ => True
                   end)
    (calls (fst (main no_branch_host plain_env (start tt)))).
Proof.
  splits.
  - reflexivity.
  - reflexivity.
  - vm_compute. intuition discriminate.
  - vm_compute. repeat constructor.
Qed.

(* ================================================================= *)
(** * Further properties of the action *)

(** ** Reading the inputs *)

Lemma core_getInput_optional (env : string -> string) (name : string) :
  core_getInput env name false = Ok (trim (env name)).
Proof. reflexivity. Qed.

Lemma core_getInput_required (env : string -> string) (name : string) :
  core_getInput env name true =
  match input_error env (name, Supplied) with
  | Some e => Throw e
  | None => Ok (trim (env name))
  end.
Proof.
  unfold core_getInput, input_error. cbn [fst snd andb].
  destruct (String.eqb (env name) ""); reflexivity.
Qed.

Lemma getOptionalBooleanInput_checked (env : string -> string) (name : string) :
  getOptionalBooleanInput env name =
  match input_error env (name, BooleanOrBlank) with
  | Some e => Throw e
  | None =>
      Ok (if String.eqb (trim (env name)) "" then None
          else Some (existsb (String.eqb (trim (env name))) ["true"; "True"; "TRUE"]))
  end.
Proof.
  unfold getOptionalBooleanInput, core_getBooleanInput, input_error.
  rewrite core_getInput_optional. cbn [obind fst snd].
  set (v := trim (env name)).
  destruct (String.eqb v "") eqn:Ev; cbn [orb]; [reflexivity |].
  unfold yaml_booleans.
  change (existsb (String.eqb v) ["true"; "True"; "TRUE"; "false"; "False"; "FALSE"])
    with (existsb (String.eqb v) (["true"; "True"; "TRUE"] ++ ["false"; "False"; "FALSE"])%list).
  rewrite existsb_app.
  destruct (existsb (String.eqb v) ["true"; "True"; "TRUE"]); cbn [orb obind]; [reflexivity |].
  destruct (existsb (String.eqb v) ["false"; "False"; "FALSE"]); reflexivity.
Qed.

Lemma parseInputs_checked (env : string -> string) :
  match first_error env checked_inputs with
  | Some e => parseInputs env = Throw e
  | None => exists inputs, parseInputs env = Ok inputs
  end.
Proof.
  unfold parseInputs. rewrite !getOptionalInput_eq, !core_getInput_optional.
  rewrite !core_getInput_required, !getOptionalBooleanInput_checked.
  unfold checked_inputs. cbn [first_error].
  repeat match goal with
         | |- context [input_error env ?c] => destruct (input_error env c); cbn [obind]
         end.
  all: try reflexivity.
  eexists. reflexivity.
Qed.

Lemma first_error_checked (env : string -> string) :
  (forall e, parseInputs env = Throw e <-> first_error env checked_inputs = Some e) /\
  ((exists inputs, parseInputs env = Ok inputs) <-> first_error env checked_inputs = None).
Proof.
  pose proof (parseInputs_checked env) as H.
  destruct (first_error env checked_inputs) as [e0 |].
  - split.
    + intros e. rewrite H. split; intros E; injection E as <-; reflexivity.
    + split; [intros [inputs E]; rewrite H in E; discriminate | discriminate].
  - destruct H as [inputs H]. split.
    + intros e. rewrite H. split; discriminate.
    + split; [reflexivity | intros _; exists inputs; exact H].
Qed.

(** X1. [parseInputs] rejects the inputs exactly when one of its eight
    checks fails, and it throws the error of the first failing check in the
    order the inputs are read: token and gitea-api-url must be supplied, the
    four optional booleans must be blank or a YAML boolean, gitea-owner and
    gitea-repo must be supplied. A missing token is reported whatever else
    is wrong. *)
Theorem parseInputs_first_error (env : string -> string) :
  (forall e, parseInputs env = Throw e <-> first_error env checked_inputs = Some e) /\
  ((exists inputs, parseInputs env = Ok inputs) <-> first_error env checked_inputs = None) /\
  (env "token" = "" ->
   parseInputs env =
   Throw {| err_name := "Error"; err_message := "Input required and not supplied: token" |}).
Proof.
  destruct (first_error_checked env) as [H1 H2]. splits; [exact H1 | exact H2 |].
  intros E. apply H1. unfold checked_inputs. cbn [first_error input_error fst snd].
  rewrite E. reflexivity.
Qed.

Lemma trimStart_blank (s : string) : all_chars is_space s = true -> trimStart s = "".
Proof.
  induction s as [| c r IH]; [reflexivity |].
  cbn [all_chars trimStart]. intros H. apply andb_prop in H. destruct H as [Hc Hr].
  rewrite Hc. apply IH. exact Hr.
Qed.

Lemma trim_blank (s : string) : all_chars is_space s = true -> trim s = "".
Proof. intros H. unfold trim. rewrite (trimStart_blank s H). reflexivity. Qed.

Lemma nonempty_not_empty (s : string) : nonempty s <> Some "".
Proof.
  unfold nonempty. destruct (String.eqb s "") eqn:E; [discriminate |].
  intros H. injection H as ->. discriminate.
Qed.

Lemma parseInputs_record (env : string -> string) (inputs : ActionInputs) :
  parseInputs env = Ok inputs ->
  inputs =
  {| token := trim (env "token");
     repoUrl := trim (env "repo-url");
     releaseType := nonempty (trim (env "release-type"));
     path := nonempty (trim (env "path"));
     giteaApiUrl := trim (env "gitea-api-url");
     configFile := Some (or_else (trim (env "config-file")) "release-please-config.json");
     manifestFile := Some (or_else (trim (env "manifest-file")) ".release-please-manifest.json");
     proxyServer := nonempty (trim (env "proxy-server"));
     targetBranch := or_else (trim (env "target-branch")) "main";
     skipGiteaRelease := flag_value env "skip-gitea-release";
     skipGiteaPullRequest := flag_value env "skip-gitea-pull-request";
     skipLabeling := flag_value env "skip-labeling";
     includeComponentInTag := flag_value env "include-component-in-tag";
     changelogHost := trim (env "changelog-host");
     versioningStrategy := nonempty (trim (env "versioning-strategy"));
     releaseAs := nonempty (trim (env "release-as"));
     giteaOwner := trim (env "gitea-owner");
     giteaRepo := trim (env "gitea-repo") |}.
Proof.
  unfold parseInputs. rewrite !getOptionalInput_eq, !core_getInput_optional.
  rewrite !core_getInput_required, !getOptionalBooleanInput_checked.
  repeat match goal with
         | |- context [input_error env ?c] => destruct (input_error env c); cbn [obind]
         end.
  all: try discriminate.
  intros H. injection H as <-. unfold flag_value, DEFAULT_CONFIG_FILE, DEFAULT_MANIFEST_FILE.
  f_equal.
  - unfold or_else. destruct (String.eqb (trim (env "repo-url")) "") eqn:E; [| reflexivity].
    apply String.eqb_eq in E. symmetry. exact E.
  - unfold nonempty, or_else. destruct (String.eqb (trim (env "target-branch")) ""); reflexivity.
  - unfold or_else. destruct (String.eqb (trim (env "changelog-host")) "") eqn:E; [| reflexivity].
    apply String.eqb_eq in E. symmetry. exact E.
Qed.

Lemma or_else_nonempty (s d : string) : d <> "" -> or_else s d <> "".
Proof.
  intros Hd. unfold or_else. destruct (String.eqb s "") eqn:E; [exact Hd |].
  apply String.eqb_neq. exact E.
Qed.

(** X2. A parsed inputs record holds the trimmed values of the inputs:
    target-branch defaults to main and is never empty, config-file and
    manifest-file default to their standard names, a blank optional string
    is undefined (never the empty string), a blank optional boolean is
    undefined, and a token made of white space only passes the required
    check and is read as the empty string. *)
Theorem parseInputs_defaults (env : string -> string) (inputs : ActionInputs) :
  parseInputs env = Ok inputs ->
  inputs =
  {| token := trim (env "token");
     repoUrl := trim (env "repo-url");
     releaseType := nonempty (trim (env "release-type"));
     path := nonempty (trim (env "path"));
     giteaApiUrl := trim (env "gitea-api-url");
     configFile := Some (or_else (trim (env "config-file")) "release-please-config.json");
     manifestFile := Some (or_else (trim (env "manifest-file")) ".release-please-manifest.json");
     proxyServer := nonempty (trim (env "proxy-server"));
     targetBranch := or_else (trim (env "target-branch")) "main";
     skipGiteaRelease := flag_value env "skip-gitea-release";
     skipGiteaPullRequest := flag_value env "skip-gitea-pull-request";
     skipLabeling := flag_value env "skip-labeling";
     includeComponentInTag := flag_value env "include-component-in-tag";
     changelogHost := trim (env "changelog-host");
     versioningStrategy := nonempty (trim (env "versioning-strategy"));
     releaseAs := nonempty (trim (env "release-as"));
     giteaOwner := trim (env "gitea-owner");
     giteaRepo := trim (env "gitea-repo") |} /\
  targetBranch inputs <> "" /\
  path inputs <> Some "" /\
  releaseAs inputs <> Some "" /\
  versioningStrategy inputs <> Some "" /\
  (all_chars is_space (env "target-branch") = true -> targetBranch inputs = "main") /\
  (all_chars is_space (env "token") = true -> token inputs = "").
Proof.
  intros H. pose proof (parseInputs_record env inputs H) as E.
  split; [exact E |]. rewrite E. cbn [targetBranch path releaseAs versioningStrategy token].
  splits.
  - apply or_else_nonempty. discriminate.
  - apply nonempty_not_empty.
  - apply nonempty_not_empty.
  - apply nonempty_not_empty.
  - intros B. rewrite (trim_blank _ B). reflexivity.
  - intros B. apply trim_blank. exact B.
Qed.

Lemma parseInputs_defaults_witness :
  exists inputs,
    parseInputs blank_token_env = Ok inputs /\ token inputs = "" /\
    targetBranch inputs = "main".
Proof.
  pose (inputs := {| token := ""; repoUrl := ""; releaseType := None; path := None;
                     giteaApiUrl := "https://gitea.example/api/v1";
                     configFile := Some DEFAULT_CONFIG_FILE;
                     manifestFile := Some DEFAULT_MANIFEST_FILE;
                     proxyServer := None; targetBranch := "main"; skipGiteaRelease := None;
                     skipGiteaPullRequest := None; skipLabeling := None;
                     includeComponentInTag := None; changelogHost := "";
                     versioningStrategy := None; releaseAs := None;
                     giteaOwner := "owner"; giteaRepo := "repo" |}).
  assert (P : parseInputs blank_token_env = Ok inputs) by reflexivity.
  destruct (parseInputs_defaults _ _ P) as (_ & _ & _ & _ & _ & D & T).
  exists inputs. split; [exact P |].
  split; [apply T; reflexivity | apply D; reflexivity].
Defined.

(** ** How an invocation ends *)

(** X3. When an input is rejected, [main] does nothing but fail the
    invocation: the failure message is the rejection's text behind
    "release-please failed: ", it is the only line logged, no request is
    issued, no output is published, and [main] itself returns normally. *)
Theorem main_input_error {S : Type} (host : Host S) (env : string -> string) (r : Run S)
  (e : JsError) :
  first_error env checked_inputs = Some e ->
  let final := fst (main host env r) in
  let message := "release-please failed: " ++ error_toString e in
  snd (main host env r) = Ok tt /\
  failed final = Some message /\
  log final = (log r ++ [Error message])%list /\
  calls final = calls r /\
  outputs final = outputs r /\
  host_state final = host_state r.
Proof.
  intros H. apply (proj1 (first_error_checked env)) in H.
  cbn zeta. rewrite (main_parse_failure host env r e H). cbn. auto 10.
Qed.

Lemma main_input_error_witness :
  failed (fst (main scenario_host faulty_env (start tt)))
  = Some "release-please failed: Error: Input required and not supplied: gitea-api-url" /\
  calls (fst (main scenario_host faulty_env (start tt))) = [].
Proof.
  pose proof (main_input_error scenario_host faulty_env (start tt) _ eq_refl) as H.
  cbn zeta in H. destruct H as (_ & F & _ & C & _). split; [exact F | exact C].
Defined.

Lemma main_log_cases {S : Type} (host : Host S) (env : string -> string) (r : Run S) :
  let final := fst (main host env r) in
  snd (main host env r) = Ok tt /\
  ((failed final = failed r /\
    exists l, log final = (log r ++ l ++ [completed])%list /\
              forall m, In (Info m) l ->
                        In m ["Starting Gitea release-please process"; "Creating release";
                              "Creating pull request"]) \/
   (exists e l,
       failed final = Some ("release-please failed: " ++ error_toString e) /\
       log final = (log r ++ l ++ [Error ("release-please failed: " ++ error_toString e)])%list /\
       forall m, In (Info m) l ->
                 In m ["Starting Gitea release-please process"; "Creating release";
                       "Creating pull request"])).
Proof.
  cbn zeta. destruct (parseInputs env) as [inputs | e] eqn:Hp.
  2:{ rewrite (main_parse_failure host env r e Hp). split; [reflexivity |]. right.
      exists e, []. cbn. splits; try reflexivity. intros m []. }
  rewrite (main_eq host env inputs r Hp). cbn zeta.
  set (r0 := logged r (Info "Starting Gitea release-please process")).
  assert (L0 : log r0 = (log r ++ [Info "Starting Gitea release-please process"])%list)
    by reflexivity.
  assert (F0 : failed r0 = failed r) by reflexivity.
  assert (Hrel : forall r1 res1,
             (if negb (truthy_flag (skipGiteaRelease inputs))
              then releaseBranch host inputs r0 else (r0, Ok tt)) = (r1, res1) ->
             failed r1 = failed r /\
             exists l, log r1 = (log r ++ l)%list /\
                       forall m, In (Info m) l ->
                                 In m ["Starting Gitea release-please process"; "Creating release";
                                       "Creating pull request"]).
  { intros r1 res1 E. destruct (negb (truthy_flag (skipGiteaRelease inputs))).
    - destruct (releaseBranch_footprint host inputs r0 r1 res1 E)
        as (v1 & lo & ll & lc & _ & Hl & _ & Hf & _ & Fl & _).
      split; [congruence |]. rewrite Hl, L0, <- app_assoc. eexists. split; [reflexivity |].
      intros m H. cbn [app In] in H. destruct H as [H | [H | H]].
      + injection H as <-. cbn. auto.
      + injection H as <-. cbn. auto.
      + destruct (release_log_no_info _ _ _ Fl H).
    - injection E as <- <-. split; [exact F0 |]. rewrite L0. eexists. split; [reflexivity |].
      intros m [H | []]. injection H as <-. cbn. auto. }
  assert (Hpull : forall r1 r2 res2,
             (if negb (truthy_flag (skipGiteaPullRequest inputs))
              then pullRequestBranch host inputs r1 else (r1, Ok tt)) = (r2, res2) ->
             failed r2 = failed r1 /\
             exists l, log r2 = (log r1 ++ l)%list /\
                       forall m, In (Info m) l ->
                                 In m ["Starting Gitea release-please process"; "Creating release";
                                       "Creating pull request"]).
  { intros r1 r2 res2 E. destruct (negb (truthy_flag (skipGiteaPullRequest inputs))).
    - destruct (pullRequestBranch_footprint host inputs r1 r2 res2 E)
        as (v2 & lo & ll & lc & _ & Hl & _ & Hf & _ & Fl & _).
      split; [exact Hf |]. rewrite Hl. eexists. split; [reflexivity |].
      intros m [H | H].
      + injection H as <-. cbn. auto.
      + destruct (pull_log_no_info _ _ _ _ _ Fl H).
    - injection E as <- <-. split; [reflexivity |]. exists []. rewrite app_nil_r.
      split; [reflexivity | intros m []]. }
  destruct (if negb (truthy_flag (skipGiteaRelease inputs))
            then releaseBranch host inputs r0 else (r0, Ok tt)) as [r1 res1] eqn:E1.
  destruct (Hrel r1 res1 eq_refl) as (F1 & l1 & L1 & I1).
  destruct res1 as [[] | e1].
  - destruct (if negb (truthy_flag (skipGiteaPullRequest inputs))
              then pullRequestBranch host inputs r1 else (r1, Ok tt)) as [r2 res2] eqn:E2.
    destruct (Hpull r1 r2 res2 E2) as (F2 & l2 & L2 & I2).
    assert (I12 : forall m, In (Info m) (l1 ++ l2) ->
                            In m ["Starting Gitea release-please process"; "Creating release";
                                  "Creating pull request"]).
    { intros m H. apply in_app_or in H. destruct H; auto. }
    assert (L12 : log r2 = (log r ++ l1 ++ l2)%list) by (rewrite L2, L1, app_assoc; reflexivity).
    destruct res2 as [[] | e2]; (split; [reflexivity |]).
    + left. cbn [fst failed logged log]. split; [congruence |].
      exists (l1 ++ l2)%list. split; [| exact I12].
      unfold completed. rewrite L12, <- !app_assoc. reflexivity.
    + right. exists e2, (l1 ++ l2)%list. cbn [fst failed marked_failed log].
      unfold failure_message. splits; [reflexivity | | exact I12].
      rewrite L12, <- !app_assoc. reflexivity.
  - split; [reflexivity |]. right. exists e1, l1. cbn [fst failed marked_failed log].
    unfold failure_message. splits; [reflexivity | | exact I1].
    rewrite L1, <- !app_assoc. reflexivity.
Qed.

(** X4. [main] never throws: whatever the inputs and the host do, it
    returns normally. A fresh invocation ends in exactly one of two ways:
    it is not marked failed and its last log line is the completion
    message, or it is marked failed with "release-please failed: " and the
    error's text, that message is its last log line, and the completion
    message is not logged. *)
Theorem main_outcome {S : Type} (host : Host S) (env : string -> string) (s : S) :
  let final := fst (main host env (start s)) in
  snd (main host env (start s)) = Ok tt /\
  (failed final = None <-> In completed (log final)) /\
  (failed final = None <-> exists l, log final = (l ++ [completed])%list) /\
  (forall message,
      failed final = Some message <->
      exists e l, message = "release-please failed: " ++ error_toString e /\
                  log final = (l ++ [Error message])%list).
Proof.
  cbn zeta. destruct (main_log_cases host env (start s)) as [R H]. cbn zeta in H.
  cbn [start failed log app] in H.
  split; [exact R |].
  destruct H as [(F & l & L & I) | (e & l & F & L & I)].
  - rewrite F, L. splits.
    + split; [intros _; in_list | reflexivity].
    + split; [intros _; exists l; reflexivity | reflexivity].
    + intros message. split; [discriminate |]. intros (e & l' & _ & E).
      apply app_inj_tail in E. destruct E as [_ E]. discriminate.
  - rewrite F, L. splits.
    + split; [discriminate |]. intros H. apply in_app_or in H. destruct H as [H | [H | []]].
      * apply I in H. cbn in H. intuition discriminate.
      * discriminate.
    + split; [discriminate |]. intros (l' & E). apply app_inj_tail in E.
      destruct E as [_ E]. discriminate.
    + intros message. split.
      * intros H. injection H as <-. exists e, l. split; reflexivity.
      * intros (e' & l' & -> & E). apply app_inj_tail in E. destruct E as [_ E].
        injection E as E. rewrite E. reflexivity.
Qed.

(** ** The client *)

Lemma strip_suffix_app (suffix b : string) : strip_suffix suffix (b ++ suffix) = b.
Proof.
  induction b as [| c r IH].
  - cbn [append]. destruct suffix; cbn [strip_suffix]; rewrite String.eqb_refl; reflexivity.
  - cbn [append strip_suffix].
    destruct (String.eqb (String c (r ++ suffix)) suffix) eqn:E.
    + apply String.eqb_eq in E. apply (f_equal String.length) in E.
      cbn [String.length] in E. rewrite length_append in E. lia.
    + rewrite IH. reflexivity.
Qed.

Lemma strip_suffix_none (suffix s : string) :
  ends_with suffix s = false -> strip_suffix suffix s = s.
Proof.
  induction s as [| c r IH]; cbn [ends_with strip_suffix]; intros H;
    apply orb_false_elim in H; destruct H as [H1 H2]; rewrite H1; [reflexivity |].
  rewrite (IH H2). reflexivity.
Qed.

Lemma ends_with_app (suffix b : string) : ends_with suffix (b ++ suffix) = true.
Proof.
  induction b as [| c r IH].
  - cbn [append]. destruct suffix; cbn [ends_with]; rewrite String.eqb_refl; reflexivity.
  - cbn [append ends_with]. rewrite IH. apply orb_true_r.
Qed.

Lemma ends_with_split (suffix s : string) :
  ends_with suffix s = true -> exists b, s = b ++ suffix.
Proof.
  induction s as [| c r IH]; cbn [ends_with]; intros H; apply orb_prop in H;
    destruct H as [H | H].
  - apply String.eqb_eq in H. exists "". exact H.
  - discriminate.
  - apply String.eqb_eq in H. exists "". exact H.
  - destruct (IH H) as [b ->]. exists (String c b). reflexivity.
Qed.

(** X5. The client's constructor normalises the base URL: one trailing
    "/api/v1" is dropped from the URL it keeps, and the URL given to Octokit
    is that URL with "/api/v1" appended. So the Octokit URL always ends with
    "/api/v1"; a URL given with the suffix is used as it is, one given
    without it gets the suffix, and normalising twice changes nothing. A
    trailing slash after the suffix is not recognised: the suffix is then
    appended once more. *)
Theorem client_base_url (token baseUrl owner repo : string) :
  let client := new_GiteaClient token baseUrl owner repo in
  octokit_baseUrl client = client_baseUrl client ++ "/api/v1" /\
  ends_with "/api/v1" (octokit_baseUrl client) = true /\
  (ends_with "/api/v1" baseUrl = true -> octokit_baseUrl client = baseUrl) /\
  (ends_with "/api/v1" baseUrl = false -> octokit_baseUrl client = baseUrl ++ "/api/v1") /\
  octokit_baseUrl (new_GiteaClient token (octokit_baseUrl client) owner repo)
  = octokit_baseUrl client /\
  octokit_baseUrl (new_GiteaClient token (baseUrl ++ "/api/v1/") owner repo)
  = baseUrl ++ "/api/v1//api/v1".
Proof.
  cbn zeta. unfold new_GiteaClient. cbn [octokit_baseUrl client_baseUrl]. splits.
  - reflexivity.
  - apply ends_with_app.
  - intros H. destruct (ends_with_split _ _ H) as [b ->]. rewrite strip_suffix_app. reflexivity.
  - intros H. rewrite (strip_suffix_none _ _ H). reflexivity.
  - rewrite strip_suffix_app. reflexivity.
  - rewrite strip_suffix_none; [rewrite append_assoc; reflexivity |].
    induction baseUrl as [| c r IH]; [reflexivity |].
    cbn [append ends_with]. rewrite IH, orb_false_r.
    apply String.eqb_neq. intros E. apply (f_equal String.length) in E.
    cbn [String.length] in E. rewrite length_append in E. cbn [String.length] in E. lia.
Qed.

(** X6. After the pull request is created, [createPullRequest] adds the
    labels in a second request, issued only when there is at least one
    label and carrying the number the host gave the new pull request. When
    that second request fails, the method logs "Failed to create pull
    request: ..." and throws, although the pull request exists; when it
    succeeds, or there is no label, the returned record is the proposed one
    with the number and URL of the response. *)
Theorem createPullRequest_labels {S : Type} (host : Host S) (pr : PullRequest) (r : Run S)
  (s1 : S) (data : PullData) :
  pulls_create host (host_state r) (pr_title pr) (pr_body pr) (pr_headBranchName pr)
    (pr_baseBranchName pr) = (s1, Ok data) ->
  let created := answered r s1 (create_pull_call pr) in
  let labeling := AddLabels (pd_number data) (labels_of pr) in
  (labels_of pr = [] ->
   createPullRequest host pr r = (created, Ok (created_pull_request pr data))) /\
  (forall s2,
      labels_of pr <> [] ->
      issues_addLabels host s1 (pd_number data) (labels_of pr) = (s2, Ok tt) ->
      createPullRequest host pr r =
      (answered created s2 labeling, Ok (created_pull_request pr data))) /\
  (forall s2 e,
      labels_of pr <> [] ->
      issues_addLabels host s1 (pd_number data) (labels_of pr) = (s2, Throw e) ->
      createPullRequest host pr r =
      (logged (answered created s2 labeling)
         (Error ("Failed to create pull request: " ++ error_toString e)),
       Throw e)).
Proof.
  intros Hc. cbn zeta.
  unfold createPullRequest, try_catch, bind, request, ret, throw, core_error, emit,
    create_pull_call, created_pull_request, labels_of, has_labels.
  rewrite Hc. splits.
  - intros Hl. destruct (pr_labels pr) as [[| l ls] |]; try discriminate; reflexivity.
  - intros s2 Hl Ha. destruct (pr_labels pr) as [[| l ls] |]; try (destruct (Hl eq_refl)).
    cbn [host_state answered]. rewrite Ha. reflexivity.
  - intros s2 e Hl Ha. destruct (pr_labels pr) as [[| l ls] |]; try (destruct (Hl eq_refl)).
    cbn [host_state answered]. rewrite Ha. reflexivity.
Qed.

Lemma createPullRequest_labels_witness :
  createPullRequest no_labels_host (pull_request_for plain_inputs "1.2.4") (start tt)
  = ({| host_state := tt; outputs := [];
        log := [Error "Failed to create pull request: HttpError: label not found"];
        failed := None;
        calls := [ CreatePull "chore: release 1.2.4"
                     ("Release 1.2.4" ++ newline ++ newline
                      ++ "This PR was generated by release-please for Gitea.")
                     "release-please--main--1.2.4" "main";
                   AddLabels (Fin (7 # 1)) ["autorelease: pending"] ] |},
     Throw (http_error "label not found")).
Proof.
  pose proof (createPullRequest_labels no_labels_host (pull_request_for plain_inputs "1.2.4")
                (start tt) tt {| pd_number := Fin (7 # 1);
                                 pd_html_url := "https://gitea.example/owner/repo/pulls/7" |}
                eq_refl) as H.
  cbn zeta in H. destruct H as (_ & _ & H).
  apply (H tt (http_error "label not found")); [discriminate | reflexivity].
Defined.

Lemma pullRequestBranch_unlabeled {S : Type} (host : Host S) (inputs : ActionInputs)
  (r : Run S) :
  truthy_flag (skipLabeling inputs) = true ->
  exists lc, calls (fst (pullRequestBranch host inputs r)) = (calls r ++ lc)%list /\
             forallb (fun c => negb (is_labeling c)) lc = true.
Proof.
  intros Hs. unfold_action. reduce_action. rewrite Hs. reduce_pull.
  destruct (truthy_str (releaseAs inputs)).
  all: repeat (host_step; reduce_pull).
  all: try rewrite outputPRs_one.
  all: reduce_action.
  all: eexists; split; [solve_app | reflexivity].
Qed.

Lemma releaseBranch_unlabeled {S : Type} (host : Host S) (inputs : ActionInputs) (r : Run S) :
  exists lc, calls (fst (releaseBranch host inputs r)) = (calls r ++ lc)%list /\
             forallb (fun c => negb (is_labeling c)) lc = true.
Proof.
  destruct (releaseBranch host inputs r) as [r' res] eqn:E.
  destruct (releaseBranch_footprint host inputs r r' res E)
    as (v & lo & ll & lc & _ & _ & Hc & _ & Fc & _).
  exists lc. split; [exact Hc |]. apply forallb_forall. intros c Hin.
  rewrite Forall_forall in Fc. specialize (Fc c Hin). destruct c; try reflexivity.
  destruct Fc.
Qed.

Lemma main_calls {S : Type} (host : Host S) (env : string -> string)
  (inputs : ActionInputs) (r : Run S) :
  parseInputs env = Ok inputs ->
  exists lc1 lc2,
    calls (fst (main host env r)) = (calls r ++ lc1 ++ lc2)%list /\
    forallb (fun c => negb (is_labeling c)) lc1 = true /\
    (lc2 = [] \/
     skipGiteaPullRequest inputs <> Some true /\
     exists r1, calls (fst (pullRequestBranch host inputs r1)) = (calls r1 ++ lc2)%list).
Proof.
  intros Hp. rewrite (main_eq host env inputs r Hp). cbn zeta.
  set (r0 := logged r (Info "Starting Gitea release-please process")).
  assert (H1 : exists lc1,
             calls (fst (if negb (truthy_flag (skipGiteaRelease inputs))
                         then releaseBranch host inputs r0 else (r0, Ok tt)))
             = (calls r ++ lc1)%list /\
             forallb (fun c => negb (is_labeling c)) lc1 = true).
  { destruct (negb (truthy_flag (skipGiteaRelease inputs))).
    - apply (releaseBranch_unlabeled host inputs r0).
    - exists []. split; [symmetry; apply app_nil_r | reflexivity]. }
  destruct H1 as (lc1 & C1 & N1).
  destruct (if negb (truthy_flag (skipGiteaRelease inputs))
            then releaseBranch host inputs r0 else (r0, Ok tt)) as [r1 res1].
  cbn [fst] in C1. exists lc1.
  destruct res1 as [[] | e1].
  2:{ exists []. cbn [fst calls marked_failed]. rewrite app_nil_r. auto. }
  destruct (truthy_flag (skipGiteaPullRequest inputs)) eqn:G2; cbn [negb].
  { exists []. cbn [fst calls logged]. rewrite app_nil_r. auto. }
  destruct (pullRequestBranch host inputs r1) as [r2 res2] eqn:E2.
  destruct (pullRequestBranch_footprint host inputs r1 r2 res2 E2)
    as (v2 & lo & ll & lc2 & _ & _ & C2 & _).
  exists lc2. splits.
  - destruct res2 as [[] | e2]; cbn [fst calls logged marked_failed];
      rewrite C2, C1, app_assoc; reflexivity.
  - exact N1.
  - right. split; [apply truthy_flag_false; exact G2 |].
    exists r1. rewrite E2. exact C2.
Qed.

Lemma in_unlabeled (lc : list ApiCall) (number : jsnum) (labels : list string) :
  forallb (fun c => negb (is_labeling c)) lc = true -> ~ In (AddLabels number labels) lc.
Proof.
  intros H Hin. rewrite forallb_forall in H. specialize (H _ Hin). discriminate.
Qed.

(** X7. With skip-labeling set to true an invocation never asks for
    labels. In every invocation a label request carries exactly the label
    "autorelease: pending", and it is issued only when neither the
    pull-request branch nor the labeling is skipped. *)
Theorem skip_labeling {S : Type} (host : Host S) (env : string -> string)
  (inputs : ActionInputs) (r : Run S) :
  parseInputs env = Ok inputs ->
  (skipLabeling inputs = Some true ->
   forall number labels,
     In (AddLabels number labels) (calls (fst (main host env r))) ->
     In (AddLabels number labels) (calls r)) /\
  (forall number labels,
      In (AddLabels number labels) (calls (fst (main host env r))) ->
      In (AddLabels number labels) (calls r) \/
      (labels = ["autorelease: pending"] /\ skipGiteaPullRequest inputs <> Some true /\
       skipLabeling inputs <> Some true)).
Proof.
  intros Hp. destruct (main_calls host env inputs r Hp) as (lc1 & lc2 & C & N1 & H2).
  rewrite C. split.
  - intros Hs number labels Hin. apply in_app_or in Hin. destruct Hin as [Hin | Hin]; [exact Hin |].
    apply in_app_or in Hin. destruct Hin as [Hin | Hin].
    + destruct (in_unlabeled _ _ _ N1 Hin).
    + destruct H2 as [-> | (_ & r1 & C2)]; [destruct Hin |].
      destruct (pullRequestBranch_unlabeled host inputs r1) as (lc & C2' & N2).
      { rewrite Hs. reflexivity. }
      rewrite C2 in C2'. apply app_inv_head in C2'. subst lc.
      destruct (in_unlabeled _ _ _ N2 Hin).
  - intros number labels Hin. apply in_app_or in Hin. destruct Hin as [Hin | Hin]; [left; exact Hin |].
    apply in_app_or in Hin. destruct Hin as [Hin | Hin].
    + destruct (in_unlabeled _ _ _ N1 Hin).
    + right. destruct H2 as [-> | (G2 & r1 & C2)]; [destruct Hin |].
      destruct (pullRequestBranch host inputs r1) as [r2 res2] eqn:E2.
      destruct (pullRequestBranch_footprint host inputs r1 r2 res2 E2)
        as (v2 & lo & ll & lc & _ & _ & C2' & _ & Fc & _).
      cbn [fst] in C2. rewrite C2 in C2'. apply app_inv_head in C2'. subst lc.
      rewrite Forall_forall in Fc. specialize (Fc _ Hin). cbn [pull_call] in Fc.
      splits; [exact Fc | exact G2 |].
      intros Hs. destruct (pullRequestBranch_unlabeled host inputs r1) as (lc & C3 & N3).
      { rewrite Hs. reflexivity. }
      rewrite E2 in C3. cbn [fst] in C3. rewrite C2 in C3. apply app_inv_head in C3. subst lc.
      destruct (in_unlabeled _ _ _ N3 Hin).
Qed.

Lemma skip_labeling_witness :
  ~ In (AddLabels (Fin (7 # 1)) ["autorelease: pending"])
       (calls (fst (main scenario_host unlabeled_env (start tt)))).
Proof.
  intros H.
  exact (proj1 (skip_labeling scenario_host unlabeled_env _ (start tt) eq_refl)
           eq_refl _ _ H).
Defined.

(** ** Tags read back by the resolver *)

Lemma code_digit_char (d : Z) : 0 <= d < 10 -> code (digit_char d) = 48 + d.
Proof.
  intros H. unfold code, digit_char. rewrite N_ascii_embedding; lia.
Qed.

Lemma all_chars_app (p : ascii -> bool) (a b : string) :
  all_chars p (a ++ b) = all_chars p a && all_chars p b.
Proof.
  induction a as [| c a IH]; [reflexivity |].
  cbn [append all_chars]. rewrite IH, andb_assoc. reflexivity.
Qed.

Lemma decimal_acc_app (a b : string) : forall acc : Z,
  decimal_acc (a ++ b) acc = decimal_acc b (decimal_acc a acc).
Proof.
  induction a as [| c a IH]; intros acc; [reflexivity |].
  cbn [append decimal_acc]. apply IH.
Qed.

Lemma is_digit_digit_char (d : Z) : 0 <= d < 10 -> is_digit (digit_char d) = true.
Proof.
  intros H. unfold is_digit. rewrite code_digit_char by exact H.
  apply andb_true_intro. split; apply Z.leb_le; lia.
Qed.

Lemma string_of_Z_small (n : Z) :
  0 <= n < 10 -> string_of_Z n = String (digit_char n) EmptyString.
Proof.
  intros H. rewrite (string_of_Z_fuel 0) by (change (10 ^ Z.of_nat 1) with 10; lia).
  cbn [dec_digits]. destruct (Z.ltb_spec n 10); [reflexivity | lia].
Qed.

Lemma string_of_Z_digits (n : Z) :
  0 <= n ->
  all_chars is_digit (string_of_Z n) = true /\ decimal_value (string_of_Z n) = n /\
  string_of_Z n <> "".
Proof.
  induction n as [n IH] using (well_founded_induction (Z.lt_wf 0)). intros Hn.
  destruct (Z_lt_le_dec n 10) as [Hs | Hb].
  - rewrite string_of_Z_small by lia. cbn [all_chars]. unfold decimal_value.
    cbn [decimal_acc]. rewrite is_digit_digit_char, code_digit_char by lia.
    splits; [reflexivity | lia | discriminate].
  - rewrite string_of_Z_step by lia.
    assert (Hq : 0 <= n / 10 < n).
    { split; [apply Z.div_pos; lia | apply Z.div_lt; lia]. }
    destruct (IH (n / 10) ltac:(lia) ltac:(lia)) as (D & V & N).
    pose proof (Z.mod_pos_bound n 10 ltac:(lia)) as Hm.
    rewrite all_chars_app, D. cbn [all_chars]. rewrite is_digit_digit_char by lia.
    unfold decimal_value in *. rewrite decimal_acc_app, V. cbn [decimal_acc].
    rewrite code_digit_char by lia.
    splits; [reflexivity | | ].
    + pose proof (Z.div_mod n 10 ltac:(lia)). lia.
    + destruct (string_of_Z (n / 10)); [destruct (N eq_refl) | discriminate].
Qed.

Lemma is_decimal_string_of_Z (n : Z) : 0 <= n -> is_decimal (string_of_Z n) = true.
Proof.
  intros Hn. destruct (string_of_Z_digits n Hn) as (D & _ & N). unfold is_decimal.
  rewrite D, andb_true_r. apply negb_true_iff. apply String.eqb_neq. exact N.
Qed.

Lemma decimal_value_string_of_Z (n : Z) : 0 <= n -> decimal_value (string_of_Z n) = n.
Proof. intros Hn. apply (string_of_Z_digits n Hn). Qed.

Lemma tagName_plain (inputs : ActionInputs) (version : string) :
  includeComponentInTag inputs <> Some true \/ path inputs = None \/ path inputs = Some "" ->
  tagName inputs version = "v" ++ version.
Proof. apply (tagName_cases inputs version). Qed.

Lemma strategy_cases (strategy : option string) :
  (strategy_is strategy "always-bump-major" = true /\ strategy = Some "always-bump-major") \/
  (strategy_is strategy "always-bump-major" = false /\
   strategy_is strategy "always-bump-minor" = true /\ strategy = Some "always-bump-minor") \/
  (strategy_is strategy "always-bump-major" = false /\
   strategy_is strategy "always-bump-minor" = false).
Proof.
  destruct strategy as [s |]; cbn [strategy_is]; [| auto].
  destruct (String.eqb_spec s "always-bump-major") as [-> | _]; [auto |].
  destruct (String.eqb_spec s "always-bump-minor") as [-> | _]; auto.
Qed.

Lemma bumpVersion_bumped (strategy : option string) (prefixed : bool) (M m p : string) :
  is_decimal M = true -> is_decimal m = true -> is_decimal p = true ->
  decimal_value M < 2 ^ 53 - 1 -> decimal_value m < 2 ^ 53 - 1 ->
  decimal_value p < 2 ^ 53 - 1 ->
  "v" ++ bumpVersion (version_tag prefixed M m p) strategy =
  tag_of (bumped strategy 1 (decimal_value M, decimal_value m, decimal_value p)).
Proof.
  intros HM Hm Hp BM Bm Bp. unfold bumped, tag_of.
  destruct (strategy_cases strategy) as [(E1 & ->) | [(E1 & E2 & ->) | (E1 & E2)]].
  - rewrite E1, bumpVersion_major by assumption. reflexivity.
  - rewrite E1, E2, bumpVersion_minor by assumption. reflexivity.
  - rewrite E1, E2, bumpVersion_patch by assumption. reflexivity.
Qed.

Lemma bumped_add (strategy : option string) (j k : Z) (version : Z * Z * Z) :
  bumped strategy j (bumped strategy k version) = bumped strategy (k + j) version.
Proof.
  destruct version as [[a b] c]. unfold bumped.
  destruct (strategy_is strategy "always-bump-major");
    [| destruct (strategy_is strategy "always-bump-minor")]; cbn iota beta;
    rewrite ?Z.add_assoc; reflexivity.
Qed.

Lemma bumped_bounds (strategy : option string) (k a b c bound : Z) :
  0 <= k -> 0 <= a -> 0 <= b -> 0 <= c ->
  a + k < bound -> b + k < bound -> c + k < bound ->
  let '(a', b', c') := bumped strategy k (a, b, c) in
  0 <= a' < bound /\ 0 <= b' < bound /\ 0 <= c' < bound.
Proof.
  intros. unfold bumped.
  destruct (strategy_is strategy "always-bump-major");
    [| destruct (strategy_is strategy "always-bump-minor")]; lia.
Qed.

(** X8. The tag [main] gives a release is read back by the resolver at
    the next release: when the component is not part of the tag, k+1
    successive releases after a tag [v]major.minor.patch (decimal
    components that stay safe integers) end at the tag v(major+k+1).0.0
    under always-bump-major, vmajor.(minor+k+1).0 under always-bump-minor,
    and vmajor.minor.(patch+k+1) under any other strategy. *)
Theorem release_series_versions (inputs : ActionInputs) (prefixed : bool) (M m p : string)
  (k : nat) :
  includeComponentInTag inputs <> Some true \/ path inputs = None \/ path inputs = Some "" ->
  is_decimal M = true -> is_decimal m = true -> is_decimal p = true ->
  decimal_value M + Z.of_nat (S k) < 2 ^ 53 ->
  decimal_value m + Z.of_nat (S k) < 2 ^ 53 ->
  decimal_value p + Z.of_nat (S k) < 2 ^ 53 ->
  release_series inputs (S k) (version_tag prefixed M m p) =
  tag_of (bumped (versioningStrategy inputs) (Z.of_nat (S k))
            (decimal_value M, decimal_value m, decimal_value p)).
Proof.
  intros Hplain HM Hm Hp. change (2 ^ 53) with 9007199254740992.
  assert (P53 : 2 ^ 53 - 1 = 9007199254740991) by reflexivity.
  induction k as [| k IH]; intros BM Bm Bp.
  - cbn [release_series]. rewrite tagName_plain by exact Hplain.
    apply bumpVersion_bumped; try assumption; rewrite P53; clear P53; lia.
  - cbn [release_series] in *. rewrite IH by lia. rewrite tagName_plain by exact Hplain.
    pose proof (decimal_value_nonneg M HM). pose proof (decimal_value_nonneg m Hm).
    pose proof (decimal_value_nonneg p Hp).
    pose proof (bumped_bounds (versioningStrategy inputs) (Z.of_nat (S k))
                  (decimal_value M) (decimal_value m) (decimal_value p) 9007199254740991
                  ltac:(lia) ltac:(lia) ltac:(lia) ltac:(lia) ltac:(lia) ltac:(lia) ltac:(lia))
      as Hb.
    replace (Z.of_nat (S (S k))) with (Z.of_nat (S k) + 1) by lia.
    rewrite <- bumped_add.
    destruct (bumped (versioningStrategy inputs) (Z.of_nat (S k))
                (decimal_value M, decimal_value m, decimal_value p)) as [[a b] c].
    destruct Hb as (Ha & Hb & Hc). unfold tag_of at 1.
    rewrite bumpVersion_bumped.
    + rewrite !decimal_value_string_of_Z by lia. reflexivity.
    + apply is_decimal_string_of_Z; lia.
    + apply is_decimal_string_of_Z; lia.
    + apply is_decimal_string_of_Z; lia.
    + rewrite decimal_value_string_of_Z; rewrite ?P53; clear - Ha Hb Hc; lia.
    + rewrite decimal_value_string_of_Z; rewrite ?P53; clear - Ha Hb Hc; lia.
    + rewrite decimal_value_string_of_Z; rewrite ?P53; clear - Ha Hb Hc; lia.
Qed.

Lemma release_series_versions_witness :
  release_series plain_inputs 3 (version_tag true "1" "9" "9") = "v1.9.12".
Proof.
  rewrite (release_series_versions plain_inputs true "1" "9" "9" 2).
  - vm_compute. reflexivity.
  - left. discriminate.
  - reflexivity.
  - reflexivity.
  - reflexivity.
  - vm_compute. reflexivity.
  - vm_compute. reflexivity.
  - vm_compute. reflexivity.
Defined.

(** ** The release notes *)





(** ** The version of the pull request *)






(** ** Tags the resolver reads differently *)

Lemma digit_of_v (radix : Z) : digit_of radix "v" = None.
Proof. unfold digit_of. cbn. rewrite Z.ltb_irrefl. reflexivity. Qed.

Lemma contains_tail (c d : ascii) (r : string) :
  contains c (String d r) = true -> d <> c -> contains c r = true.
Proof.
  cbn [contains]. intros H Hd. apply orb_prop in H. destruct H as [H | H]; [| exact H].
  apply Ascii.eqb_eq in H. contradiction.
Qed.

Lemma span_digits_v (radix : Z) (s : string) : forall acc cnt : Z,
  contains "v" s = true -> contains "v" (snd (span_digits radix s acc cnt)) = true.
Proof.
  induction s as [| d r IH]; intros acc cnt H; [discriminate |].
  cbn [span_digits]. destruct (digit_of radix d) as [x |] eqn:E; [| exact H].
  apply IH. apply (contains_tail _ d); [exact H |].
  intros ->. rewrite digit_of_v in E. discriminate.
Qed.

Lemma trimStart_v (s : string) : contains "v" s = true -> contains "v" (trimStart s) = true.
Proof.
  induction s as [| d r IH]; intros H; [discriminate |].
  cbn [trimStart]. destruct (is_space d) eqn:E; [| exact H].
  apply IH. apply (contains_tail _ d); [exact H |]. intros ->. discriminate.
Qed.

Lemma trimEnd_nonspace (c : ascii) (r : string) :
  is_space c = false -> trimEnd (String c r) = String c (trimEnd r).
Proof.
  intros H. cbn [trimEnd]. rewrite H. destruct (trimEnd r); reflexivity.
Qed.

Lemma trimEnd_v (s : string) : contains "v" s = true -> contains "v" (trimEnd s) = true.
Proof.
  induction s as [| d r IH]; intros H; [discriminate |].
  destruct (Ascii.eqb_spec d "v") as [-> | Hd].
  - rewrite trimEnd_nonspace by reflexivity. reflexivity.
  - pose proof (IH (contains_tail _ _ _ H Hd)) as Hr. cbn [trimEnd].
    destruct (trimEnd r) as [| x y]; [discriminate |].
    cbn [contains] in *. rewrite Hr. apply orb_true_r.
Qed.

Lemma trim_v (s : string) : contains "v" s = true -> contains "v" (trim s) = true.
Proof. intros H. unfold trim. apply trimEnd_v, trimStart_v. exact H. Qed.

Lemma radix_literal_v (radix : Z) (s : string) :
  contains "v" s = true -> radix_literal radix s = NaN.
Proof.
  intros H. unfold radix_literal. pose proof (span_digits_v radix s 0 0 H) as Hr.
  destruct (span_digits radix s 0 0) as [[x cnt] rest]. cbn [snd] in Hr.
  destruct rest; [discriminate | reflexivity].
Qed.

Lemma exponent_part_v (s : string) : contains "v" s = true -> exponent_part s = None.
Proof.
  intros H. destruct s as [| c r]; [discriminate |]. cbn [exponent_part].
  destruct (Ascii.eqb c "e" || Ascii.eqb c "E") eqn:E; [| reflexivity].
  assert (Hr : contains "v" r = true).
  { apply (contains_tail _ c); [exact H |]. intros ->. discriminate. }
  assert (Hs : contains "v" (snd (match r with
                                  | String "+" r' => (false, r')
                                  | String "-" r' => (true, r')
                                  | _ => (false, r)
                                  end)) = true).
  { destruct r as [| d r']; [discriminate |].
    destruct d as [[] [] [] [] [] [] [] []]; cbn [snd]; first [exact Hr | exact (contains_tail _ _ _ Hr ltac:(discriminate))]. }
  destruct (match r with
            | String "+" r' => (false, r')
            | String "-" r' => (true, r')
            | _ => (false, r)
            end) as [neg r'].
  cbn [snd] in Hs. pose proof (span_digits_v 10 r' 0 0 Hs) as Hd.
  destruct (span_digits 10 r' 0 0) as [[x cnt] rest]. cbn [snd] in Hd.
  destruct rest; [discriminate | reflexivity].
Qed.

Lemma unsigned_decimal_v (s : string) : contains "v" s = true -> unsigned_decimal s = NaN.
Proof.
  intros H. unfold unsigned_decimal.
  destruct (String.eqb_spec s "Infinity") as [-> | _]; [discriminate |].
  pose proof (span_digits_v 10 s 0 0 H) as H1.
  destruct (span_digits 10 s 0 0) as [[ip nip] r1]. cbn [snd] in H1.
  assert (H2 : contains "v" (snd (match r1 with
                                  | String "." r => span_digits 10 r ip 0
                                  | _ => (ip, 0, r1)
                                  end)) = true).
  { destruct r1 as [| d r]; [discriminate |].
    destruct d as [[] [] [] [] [] [] [] []];
      first [exact H1 | apply span_digits_v; exact (contains_tail _ _ _ H1 ltac:(discriminate))]. }
  destruct (match r1 with
            | String "." r => span_digits 10 r ip 0
            | _ => (ip, 0, r1)
            end) as [[m nfp] r2].
  cbn [snd] in H2. rewrite (exponent_part_v r2 H2).
  destruct (0 <? nip + nfp); reflexivity.
Qed.

Lemma Number_v (s : string) : contains "v" s = true -> Number_ s = NaN.
Proof.
  intros H. apply trim_v in H. unfold Number_. cbn zeta.
  destruct (radix_prefix (trim s)) as [[radix r] |] eqn:E.
  - apply radix_literal_v. unfold radix_prefix in E.
    destruct (trim s) as [| c0 [| c1 t]]; try discriminate.
    destruct (Ascii.eqb_spec c0 "0") as [-> | _]; [| discriminate].
    assert (Ht : contains "v" t = true).
    { apply (contains_tail _ c1).
      - apply (contains_tail _ "0"); [exact H | discriminate].
      - intros ->. discriminate. }
    destruct (Ascii.eqb c1 "x" || Ascii.eqb c1 "X");
      [injection E as _ <-; exact Ht |].
    destruct (Ascii.eqb c1 "o" || Ascii.eqb c1 "O");
      [injection E as _ <-; exact Ht |].
    destruct (Ascii.eqb c1 "b" || Ascii.eqb c1 "B");
      [injection E as _ <-; exact Ht | discriminate].
  - destruct (trim s) as [| c r]; [discriminate |].
    destruct (Ascii.eqb_spec c "+") as [-> | _].
    + apply unsigned_decimal_v. apply (contains_tail _ "+"); [exact H | discriminate].
    + destruct (Ascii.eqb_spec c "-") as [-> | _].
      * rewrite unsigned_decimal_v; [reflexivity |].
        apply (contains_tail _ "-"); [exact H | discriminate].
      * apply unsigned_decimal_v. exact H.
Qed.

Lemma span_digits_stop (s rest : string) (c : ascii) : forall acc cnt : Z,
  all_chars is_digit s = true -> digit_of 10 c = None ->
  span_digits 10 (s ++ String c rest) acc cnt =
  (decimal_acc s acc, cnt + Z.of_nat (String.length s), String c rest).
Proof.
  induction s as [| d r IH]; intros acc cnt H Hc.
  - cbn [append span_digits decimal_acc String.length]. rewrite Hc, Z.add_0_r. reflexivity.
  - cbn [all_chars] in H. apply andb_prop in H. destruct H as [Hd Hr].
    cbn [append span_digits decimal_acc]. rewrite (digit_of_digit d Hd), (IH _ _ Hr Hc).
    cbn [String.length]. rewrite Nat2Z.inj_succ. f_equal. f_equal. lia.
Qed.

Lemma trimEnd_digits_dash (s h : string) :
  all_chars is_digit s = true ->
  trimEnd (s ++ String "-" h) = s ++ String "-" (trimEnd h).
Proof.
  induction s as [| d r IH]; intros H.
  - cbn [append]. apply trimEnd_nonspace. reflexivity.
  - cbn [all_chars] in H. apply andb_prop in H. destruct H as [Hd Hr].
    cbn [append]. rewrite trimEnd_nonspace by (apply digit_not_space; exact Hd).
    rewrite (IH Hr). reflexivity.
Qed.

Lemma Number_dash (s h : string) : is_decimal s = true -> Number_ (s ++ String "-" h) = NaN.
Proof.
  unfold is_decimal. intros H. apply andb_prop in H. destruct H as [Hne Hd].
  destruct s as [| c r]; [discriminate |].
  pose proof Hd as Hd'. cbn [all_chars] in Hd'. apply andb_prop in Hd'.
  destruct Hd' as [Hc Hr].
  unfold Number_. unfold trim. cbn [append trimStart].
  rewrite (digit_not_space c Hc).
  change (String c (r ++ String "-" h)) with (String c r ++ String "-" h).
  rewrite (trimEnd_digits_dash _ h Hd). cbn [append]. cbn zeta.
  assert (Ep : radix_prefix (String c (r ++ String "-" (trimEnd h))) = None).
  { unfold radix_prefix. destruct r as [| c1 r'].
    - cbn [append]. destruct (Ascii.eqb c "0"); reflexivity.
    - cbn [append]. cbn [all_chars] in Hr. apply andb_prop in Hr. destruct Hr as [H1 _].
      destruct (Ascii.eqb c "0"); [| reflexivity].
      replace (Ascii.eqb c1 "x") with false by (symmetry; not_digit H1).
      replace (Ascii.eqb c1 "X") with false by (symmetry; not_digit H1).
      replace (Ascii.eqb c1 "o") with false by (symmetry; not_digit H1).
      replace (Ascii.eqb c1 "O") with false by (symmetry; not_digit H1).
      replace (Ascii.eqb c1 "b") with false by (symmetry; not_digit H1).
      replace (Ascii.eqb c1 "B") with false by (symmetry; not_digit H1).
      reflexivity. }
  rewrite Ep.
  replace (Ascii.eqb c "+") with false by (symmetry; not_digit Hc).
  replace (Ascii.eqb c "-") with false by (symmetry; not_digit Hc).
  unfold unsigned_decimal.
  replace (String.eqb (String c (r ++ String "-" (trimEnd h))) "Infinity") with false.
  2:{ symmetry. cbn [String.eqb].
      replace (Ascii.eqb c "I") with false by (symmetry; not_digit Hc). reflexivity. }
  change (String c (r ++ String "-" (trimEnd h))) with (String c r ++ String "-" (trimEnd h)).
  rewrite (span_digits_stop _ _ "-" 0 0 Hd eq_refl).
  cbn [exponent_part Ascii.eqb Bool.eqb orb].
  destruct (0 <? 0 + Z.of_nat (String.length (String c r)) + 0); reflexivity.
Qed.

Lemma split_on_nonempty (sep : ascii) (s : string) : split_on sep s <> [].
Proof.
  destruct s as [| c r]; cbn [split_on]; [discriminate |].
  destruct (Ascii.eqb c sep); [discriminate |].
  destruct (split_on sep r); discriminate.
Qed.

Lemma split_on_prefix (sep : ascii) (a s : string) :
  contains sep a = false ->
  split_on sep (a ++ s) =
  (a ++ hd EmptyString (split_on sep s)) :: tl (split_on sep s).
Proof.
  induction a as [| c r IH]; intros H.
  - cbn [append]. pose proof (split_on_nonempty sep s). destruct (split_on sep s); [contradiction |].
    reflexivity.
  - cbn [contains] in H. apply orb_false_elim in H. destruct H as [Hc Hr].
    cbn [append split_on]. rewrite Hc, (IH Hr). reflexivity.
Qed.

Lemma contains_digits (c : ascii) (s : string) :
  is_digit c = false -> all_chars is_digit s = true -> contains c s = false.
Proof.
  intros Hc. induction s as [| d r IH]; intros H; [reflexivity |].
  cbn [all_chars] in H. apply andb_prop in H. destruct H as [Hd Hr].
  cbn [contains]. rewrite (IH Hr), orb_false_r.
  apply Ascii.eqb_neq. intros ->. congruence.
Qed.

Lemma contains_app (c : ascii) (a b : string) :
  contains c (a ++ b) = contains c a || contains c b.
Proof.
  induction a as [| d r IH]; [reflexivity |].
  cbn [append contains]. rewrite IH, orb_assoc. reflexivity.
Qed.

Lemma versionParts_stripped (tag a b rest : string) :
  contains "." a = false -> contains "." b = false ->
  strip_leading "v" tag = a ++ "." ++ b ++ "." ++ rest ->
  versionParts tag = Number_ a :: Number_ b :: map Number_ (split_on "." rest).
Proof.
  intros Ha Hb Hs. unfold versionParts. cbn zeta. rewrite Hs.
  rewrite (split_on_prefix "." a) by exact Ha. cbn [append split_on Ascii.eqb Bool.eqb hd tl].
  rewrite (split_on_prefix "." b) by exact Hb. cbn [append split_on Ascii.eqb Bool.eqb hd tl].
  rewrite !append_nil_r. reflexivity.
Qed.

Lemma bumpVersion_components (t1 t2 : string) (strategy : option string) :
  component (versionParts t1) 0 = component (versionParts t2) 0 ->
  component (versionParts t1) 1 = component (versionParts t2) 1 ->
  component (versionParts t1) 2 = component (versionParts t2) 2 ->
  bumpVersion t1 strategy = bumpVersion t2 strategy.
Proof. intros E0 E1 E2. unfold bumpVersion. cbn zeta. rewrite E0, E1, E2. reflexivity. Qed.

Lemma no_dot_decimal (s : string) : is_decimal s = true -> contains "." s = false.
Proof.
  intros H. apply contains_digits; [reflexivity | apply is_decimal_digits; exact H].
Qed.

Lemma strip_version_tag (prefixed : bool) (M m rest : string) :
  is_decimal M = true ->
  strip_leading "v" (version_tag prefixed M m rest) = M ++ "." ++ m ++ "." ++ rest.
Proof.
  intros HM. unfold version_tag. destruct prefixed; [reflexivity |].
  apply (strip_leading_decimal M ("." ++ m ++ "." ++ rest) HM).
Qed.

Lemma versionParts_version_tag (prefixed : bool) (M m rest : string) :
  is_decimal M = true -> is_decimal m = true ->
  versionParts (version_tag prefixed M m rest) =
  Number_ M :: Number_ m :: map Number_ (split_on "." rest).
Proof.
  intros HM Hm. apply versionParts_stripped.
  - apply no_dot_decimal. exact HM.
  - apply no_dot_decimal. exact Hm.
  - apply strip_version_tag. exact HM.
Qed.

Lemma component_zero (parts : list jsnum) (i : nat) :
  nth_error parts i = Some NaN \/ nth_error parts i = Some jszero \/ nth_error parts i = None ->
  component parts i = jszero.
Proof.
  unfold component. intros [-> | [-> | ->]]; reflexivity.
Qed.

(** X11. Only the first three dot-separated parts of the latest tag count:
    a tag [v]major.minor.patch followed by further parts resolves to the
    same next version as [v]major.minor.patch, under every strategy. *)
Theorem bumpVersion_extra_components (prefixed : bool) (M m p more : string)
  (strategy : option string) :
  is_decimal M = true -> is_decimal m = true -> is_decimal p = true ->
  bumpVersion (version_tag prefixed M m (p ++ "." ++ more)) strategy =
  bumpVersion (version_tag prefixed M m p) strategy.
Proof.
  intros HM Hm Hp.
  assert (E : exists tail,
             versionParts (version_tag prefixed M m (p ++ "." ++ more)) =
             (versionParts (version_tag prefixed M m p) ++ tail)%list /\
             List.length (versionParts (version_tag prefixed M m p)) = 3%nat).
  { rewrite !versionParts_version_tag by assumption.
    rewrite (split_on_prefix "." p) by (apply no_dot_decimal; exact Hp).
    cbn [append split_on Ascii.eqb Bool.eqb hd tl]. rewrite append_nil_r.
    rewrite (split_on_decimal p) by (apply is_decimal_digits; exact Hp).
    exists (map Number_ (split_on "." more)). split; reflexivity. }
  destruct E as (tail & E & L).
  apply bumpVersion_components; unfold component; rewrite E;
    rewrite nth_error_app1 by (rewrite L; lia); reflexivity.
Qed.

Lemma bumpVersion_extra_components_witness :
  bumpVersion "v1.2.3.4" (Some "always-bump-minor") = "1.3.0".
Proof.
  change "v1.2.3.4" with (version_tag true "1" "2" ("3" ++ "." ++ "4")).
  rewrite (bumpVersion_extra_components true "1" "2" "3" "4" _ eq_refl eq_refl eq_refl).
  vm_compute. reflexivity.
Defined.

(** X12. A suffix after the patch number makes the patch count as 0: the
    tag [v]major.minor.patch-suffix resolves to the same next version as
    [v]major.minor.0, under every strategy and whatever the suffix; under
    the patch strategies that is major.minor.1, which does not exceed the
    version the tag names when its patch is 1 or more. *)
Theorem bumpVersion_suffix (prefixed : bool) (M m p suffix : string)
  (strategy : option string) :
  is_decimal M = true -> is_decimal m = true -> is_decimal p = true ->
  bumpVersion (version_tag prefixed M m (p ++ "-" ++ suffix)) strategy =
  bumpVersion (version_tag prefixed M m "0") strategy /\
  (decimal_value M < 2 ^ 53 - 1 -> decimal_value m < 2 ^ 53 - 1 ->
   strategy_is strategy "always-bump-major" = false ->
   strategy_is strategy "always-bump-minor" = false ->
   bumpVersion (version_tag prefixed M m (p ++ "-" ++ suffix)) strategy =
   string_of_Z (decimal_value M) ++ "." ++ string_of_Z (decimal_value m) ++ ".1").
Proof.
  intros HM Hm Hp.
  assert (E : bumpVersion (version_tag prefixed M m (p ++ "-" ++ suffix)) strategy =
              bumpVersion (version_tag prefixed M m "0") strategy).
  { apply bumpVersion_components; rewrite !versionParts_version_tag by assumption;
      try reflexivity.
    rewrite (split_on_prefix "." p) by (apply no_dot_decimal; exact Hp).
    cbn [append split_on Ascii.eqb Bool.eqb].
    pose proof (split_on_nonempty "." suffix) as Hn.
    destruct (split_on "." suffix) as [| h t]; [contradiction |].
    cbn [hd tl map]. rewrite (component_zero _ 2).
    - symmetry. apply component_zero. right. left. reflexivity.
    - left. cbn [nth_error]. rewrite Number_dash by exact Hp. reflexivity. }
  split; [exact E |]. intros BM Bm N1 N2. rewrite E.
  rewrite (bumpVersion_patch prefixed M m "0" HM Hm eq_refl BM Bm) by assumption || reflexivity.
  reflexivity.
Qed.

Lemma bumpVersion_suffix_witness :
  bumpVersion "v1.2.3-beta.1" (Some "always-bump-patch") = "1.2.1".
Proof.
  change "v1.2.3-beta.1" with (version_tag true "1" "2" ("3" ++ "-" ++ "beta.1")).
  rewrite (proj2 (bumpVersion_suffix true "1" "2" "3" "beta.1" (Some "always-bump-patch")
                    eq_refl eq_refl eq_refl)).
  - reflexivity.
  - vm_compute. reflexivity.
  - vm_compute. reflexivity.
  - reflexivity.
  - reflexivity.
Defined.

(** X13. A tag that carries the component is not read back: with
    include-component-in-tag and a path without dots, [main] tags the
    version major.minor.patch as <path>-vmajor.minor.patch, and from that
    tag the resolver computes the same next version as from 0.minor.patch,
    under every strategy: the major number is lost. *)
Theorem bumpVersion_component_tag (inputs : ActionInputs) (component_path M m p : string)
  (strategy : option string) :
  includeComponentInTag inputs = Some true ->
  path inputs = Some component_path ->
  component_path <> "" ->
  contains "." component_path = false ->
  is_decimal M = true -> is_decimal m = true -> is_decimal p = true ->
  tagName inputs (M ++ "." ++ m ++ "." ++ p) =
  component_path ++ "-v" ++ M ++ "." ++ m ++ "." ++ p /\
  bumpVersion (tagName inputs (M ++ "." ++ m ++ "." ++ p)) strategy =
  bumpVersion (version_tag false "0" m p) strategy.
Proof.
  intros Hi Hpath Hne Hdot HM Hm Hp.
  assert (T : tagName inputs (M ++ "." ++ m ++ "." ++ p) =
              component_path ++ "-v" ++ M ++ "." ++ m ++ "." ++ p).
  { apply (tagName_cases inputs); assumption. }
  split; [exact T |]. rewrite T.
  assert (S : exists a,
             strip_leading "v" (component_path ++ "-v" ++ M ++ "." ++ m ++ "." ++ p) =
             a ++ "." ++ m ++ "." ++ p /\
             contains "." a = false /\ contains "v" a = true).
  { destruct component_path as [| c r]; [contradiction |].
    cbn [contains] in Hdot. apply orb_false_elim in Hdot. destruct Hdot as [Hc Hr].
    assert (Hd : contains "." M = false) by (apply no_dot_decimal; exact HM).
    cbn [append strip_leading]. destruct (Ascii.eqb c "v").
    - exists (r ++ "-v" ++ M). splits.
      + rewrite !append_assoc. reflexivity.
      + rewrite contains_app, Hr. cbn. exact Hd.
      + rewrite contains_app. cbn. apply orb_true_r.
    - exists (String c r ++ "-v" ++ M). splits.
      + cbn [append]. rewrite !append_assoc. reflexivity.
      + cbn [append contains]. rewrite Hc, contains_app, Hr. cbn. exact Hd.
      + cbn [append contains]. rewrite contains_app. cbn. rewrite !orb_true_r. reflexivity. }
  destruct S as (a & Hs & Ha & Hv).
  apply bumpVersion_components.
  - rewrite (versionParts_stripped _ a m p Ha (no_dot_decimal m Hm) Hs).
    rewrite versionParts_version_tag by (reflexivity || assumption).
    rewrite (component_zero _ 0) by (left; cbn [nth_error]; rewrite (Number_v a Hv); reflexivity).
    symmetry. apply component_zero. right. left. reflexivity.
  - rewrite (versionParts_stripped _ a m p Ha (no_dot_decimal m Hm) Hs).
    rewrite versionParts_version_tag by (reflexivity || assumption). reflexivity.
  - rewrite (versionParts_stripped _ a m p Ha (no_dot_decimal m Hm) Hs).
    rewrite versionParts_version_tag by (reflexivity || assumption). reflexivity.
Qed.

Lemma bumpVersion_component_tag_witness :
  tagName component_inputs "1.2.3" = "pkgA-v1.2.3" /\
  bumpVersion (tagName component_inputs "1.2.3") (Some "always-bump-patch") = "0.2.4".
Proof.
  destruct (bumpVersion_component_tag component_inputs "pkgA" "1" "2" "3"
              (Some "always-bump-patch") eq_refl eq_refl ltac:(discriminate) eq_refl
              eq_refl eq_refl eq_refl) as [T E].
  split; [exact T |].
  change "1.2.3" with ("1" ++ "." ++ "2" ++ "." ++ "3"). rewrite E.
  vm_compute. reflexivity.
Defined.

(** ** The formatters on lists, and the client's requests *)

Lemma output_each_eq {S : Type} (releases : list Release) :
  forall (pathsReleased : list string) (r : Run S),
    output_each releases pathsReleased r =
    (with_outputs r (flat_map record_outputs releases),
     Ok (pathsReleased ++ map published_path releases)%list).
Proof.
  induction releases as [| release rest IH]; intros pathsReleased r.
  - cbn [output_each flat_map map]. unfold ret. rewrite with_outputs_nil, app_nil_r.
    reflexivity.
  - cbn [output_each]. fold (published_path release).
    assert (Hp : String.eqb (published_path release) "" = false).
    { unfold published_path, or_else. destruct (String.eqb (rel_path release) "") eqn:E;
        [reflexivity | exact E]. }
    rewrite Hp. cbn [negb]. unfold bind at 1. unfold bind at 1.
    rewrite setPathOutput_eq. unfold ret at 1. unfold bind at 1.
    rewrite output_entries_eq, published_entries. rewrite IH.
    rewrite !with_outputs_app. cbn [flat_map map record_outputs app].
    rewrite <- app_assoc. reflexivity.
Qed.

(** X14. The output formatters on arbitrary lists. [outputReleases] skips
    undefined entries, publishes releases_created (true exactly when a
    record is left), then for every record in order the release_created
    flag and its fields under the record's path, and last paths_released
    with one path per record in order; the path a record is published
    under is never empty. [outputPRs] skips undefined entries, publishes
    prs_created (true exactly when a record is left) and, when there is
    one, the first record as pr and all of them as prs. *)
Theorem formatters_on_lists {S : Type} (releases : list (option Release))
  (prs : list (option PullRequest)) (q : Run S) :
  outputReleases releases q =
  (with_outputs q
     (("releases_created", VBool (negb (Nat.eqb (List.length (defined releases)) 0)))
      :: flat_map record_outputs (defined releases)
      ++ [("paths_released", VJsonPaths (map published_path (defined releases)))]),
   Ok tt) /\
  (forall release, In release (defined releases) -> published_path release <> "") /\
  outputPRs prs q =
  (with_outputs q
     (("prs_created", VBool (negb (Nat.eqb (List.length (defined prs)) 0)))
      :: match defined prs with
         | first :: _ => [("pr", VPullRequest first); ("prs", VJsonPRs (defined prs))]
         | [] => []
         end),
   Ok tt).
Proof.
  splits.
  - unfold outputReleases. cbn zeta. unfold bind at 1. unfold core_setOutput at 1.
    rewrite with_output_eq. unfold bind at 1.
    destruct (defined releases) as [| release rest] eqn:E.
    + cbn [List.length Nat.eqb negb Z.of_nat flat_map map app]. unfold ret at 1.
      unfold core_setOutput. rewrite with_output_eq, with_outputs_app. reflexivity.
    + cbn [List.length Nat.eqb negb]. rewrite output_each_eq.
      unfold core_setOutput. rewrite with_output_eq, !with_outputs_app.
      cbn [app]. replace (0 <? Z.of_nat (Datatypes.S (List.length rest))) with true
        by (symmetry; apply Z.ltb_lt; lia).
      reflexivity.
  - intros release _. unfold published_path, or_else.
    destruct (String.eqb (rel_path release) "") eqn:E; [discriminate |].
    apply String.eqb_neq. exact E.
  - unfold outputPRs. cbn zeta. unfold bind at 1. unfold core_setOutput at 1.
    rewrite with_output_eq.
    destruct (defined prs) as [| pr rest] eqn:E.
    + cbn [List.length Nat.eqb negb Z.of_nat]. unfold ret. reflexivity.
    + cbn [List.length Nat.eqb negb]. unfold bind, core_setOutput.
      rewrite !with_output_eq, !with_outputs_app.
      replace (0 <? Z.of_nat (Datatypes.S (List.length rest))) with true
        by (symmetry; apply Z.ltb_lt; lia).
      reflexivity.
Qed.

(** X15. The requests of the client. Each of [createRelease],
    [listCommits], [getBranch] and [createRef] issues exactly one request;
    when it succeeds nothing is logged, and when it fails the failure is
    logged once as "Failed to <step>: <error>" and the same error is
    thrown. [createRelease] sends an undefined draft or prerelease flag as
    false and returns the given record with the id, URL and upload URL of
    the response. [getLatestRelease] never throws and logs nothing: any
    failure of its request means that there is no release. *)
Theorem client_requests {S : Type} (host : Host S) (r : Run S) :
  (forall release,
      createRelease host release r =
      match repos_createRelease host (host_state r) (rel_tagName release) (rel_name release)
              (rel_body release) (truthy_flag (rel_draft release))
              (truthy_flag (rel_prerelease release)) with
      | (s', Ok data) =>
          (answered r s' (create_release_call release),
           Ok (created_release_record release data))
      | (s', Throw e) =>
          (reported r s' (create_release_call release) "create release" e, Throw e)
      end) /\
  getLatestRelease host r =
  (answered r (fst (repos_getLatestRelease host (host_state r))) GetLatestRelease,
   Ok match snd (repos_getLatestRelease host (host_state r)) with
      | Ok tag_name => Some tag_name
      | Throw _ => None
      end) /\
  (forall sha perPage,
      listCommits host sha perPage r =
      match repos_listCommits host (host_state r) sha perPage with
      | (s', Ok commits) => (answered r s' (ListCommits sha perPage), Ok commits)
      | (s', Throw e) => (reported r s' (ListCommits sha perPage) "list commits" e, Throw e)
      end) /\
  (forall branch,
      getBranch host branch r =
      match repos_getBranch host (host_state r) branch with
      | (s', Ok sha) => (answered r s' (GetBranch branch), Ok sha)
      | (s', Throw e) => (reported r s' (GetBranch branch) "get branch" e, Throw e)
      end) /\
  (forall ref sha,
      createRef host ref sha r =
      match git_createRef host (host_state r) ("refs/heads/" ++ ref) sha with
      | (s', Ok _) => (answered r s' (CreateRef ("refs/heads/" ++ ref) sha), Ok tt)
      | (s', Throw e) =>
          (reported r s' (CreateRef ("refs/heads/" ++ ref) sha) "create ref" e, Throw e)
      end).
Proof.
  unfold reported. splits.
  - intros release. unfold createRelease, try_catch, bind, request, ret, throw, core_error, emit.
    destruct (repos_createRelease host _ _ _ _ _ _) as [s' [data | e]]; reflexivity.
  - unfold getLatestRelease, try_catch, bind, request, ret.
    destruct (repos_getLatestRelease host _) as [s' [tag | e]]; reflexivity.
  - intros sha perPage. unfold listCommits, try_catch, bind, request, throw, core_error, emit.
    destruct (repos_listCommits host _ _ _) as [s' [commits | e]]; reflexivity.
  - intros branch. unfold getBranch, try_catch, bind, request, throw, core_error, emit.
    destruct (repos_getBranch host _ _) as [s' [sha | e]]; reflexivity.
  - intros ref sha. unfold createRef, try_catch, bind, request, throw, core_error, emit.
    destruct (git_createRef host _ _ _) as [s' [[] | e]]; reflexivity.
Qed.
